(** * Shopping-assistant chat gateway: remote execution gateway, backchannel
    authorization coordinator and stream reclassifier.

    The development embeds the TypeScript sources as Rocq functions:
    - [JS]            string primitives of the host language that the code calls;
    - [Json]          JSON values, [JSON.parse] and [JSON.stringify];
    - [Ciba]          lib/ciba-standard.ts   (initiate / poll / perform);
    - [Coordinator]   lib/auth0-ai-langchain.ts and lib/ciba-langchain.ts;
    - [Gateway]       lib/agents/langgraphClient.ts;
    - [SseHelper]     its helper [parseSSEFromString];
    - [Reclassifier]  app/api/chat-stream/route.ts;
    - [McpAuth]       lib/mcp/auth.ts, lib/mcp/dual-token-auth.ts and the guard
                      of app/api/mcp/agents/cart/route.ts;
    - [OAuth2]        lib/mcp/oauth2-client.ts;
    - [ConversationId] lib/conversation-id.ts;
    - [Supervisor]    lib/agents/supervisor.ts;
    - [CibaProvider]  lib/ciba-provider.ts.

    Strings are sequences of code units; the model covers the code units
    below 256, one [ascii] each. *)

From Stdlib Require Import ZArith QArith Qround String Ascii List Bool Lia DecimalString.
From stdpp Require Import base option gmap strings list.

Local Open Scope string_scope.
Local Open Scope Z_scope.

(* ===================================================================== *)
(** ** Host-language string primitives *)
(* ===================================================================== *)

Module JS.

(** White space as recognised by [String.prototype.trim] and by [\s]. *)
Definition isWhiteSpace (c : ascii) : bool :=
  let n := N_of_ascii c in
  (((9 <=? n) && (n <=? 13)) || (n =? 32) || (n =? 160))%N.

(** [s.startsWith(p)] *)
Fixpoint startsWith (s p : string) {struct p} : bool :=
  match p with
  | EmptyString => true
  | String a p' =>
      match s with
      | EmptyString => false
      | String b s' => Ascii.eqb a b && startsWith s' p'
      end
  end.

(** [s.includes(k)] *)
Fixpoint includes (s k : string) {struct s} : bool :=
  startsWith s k ||
  match s with
  | EmptyString => false
  | String _ s' => includes s' k
  end.

(** [s.indexOf(k)]; [None] stands for -1. *)
Fixpoint indexOf (s k : string) {struct s} : option nat :=
  if startsWith s k then Some O
  else match s with
       | EmptyString => None
       | String _ s' => S <$> indexOf s' k
       end.

(** [s.lastIndexOf(k)] for a one-character [k]. *)
Fixpoint lastIndexOfChar (s : string) (c : ascii) : option nat :=
  match s with
  | EmptyString => None
  | String b s' =>
      match lastIndexOfChar s' c with
      | Some i => Some (S i)
      | None => if Ascii.eqb b c then Some O else None
      end
  end.

(** [s.slice(n)] and [s.slice(0, n)] for a non-negative [n]. *)
Fixpoint drop (n : nat) (s : string) : string :=
  match n, s with
  | O, _ => s
  | S n', String _ s' => drop n' s'
  | S _, EmptyString => EmptyString
  end.

Fixpoint take (n : nat) (s : string) : string :=
  match n, s with
  | S n', String c s' => String c (take n' s')
  | _, _ => EmptyString
  end.

Fixpoint revOnto (s acc : string) : string :=
  match s with
  | EmptyString => acc
  | String c s' => revOnto s' (String c acc)
  end.

Definition reverse (s : string) : string := revOnto s EmptyString.

Fixpoint trimStart (s : string) : string :=
  match s with
  | EmptyString => EmptyString
  | String c s' => if isWhiteSpace c then trimStart s' else s
  end.

Definition trimEnd (s : string) : string := reverse (trimStart (reverse s)).

(** [s.trim()] *)
Definition trim (s : string) : string := trimEnd (trimStart s).

(** Truthiness of a string: non-empty. *)
Definition nonEmpty (s : string) : bool :=
  match s with EmptyString => false | _ => true end.

(** [s.split(/\n/)] *)
Fixpoint splitLinesFrom (cur : string) (s : string) : list string :=
  match s with
  | EmptyString => [reverse cur]
  | String c s' =>
      if Ascii.eqb c "010" then reverse cur :: splitLinesFrom EmptyString s'
      else splitLinesFrom (String c cur) s'
  end.

Definition splitLines (s : string) : list string := splitLinesFrom EmptyString s.

(** [s.split(/\r?\n/)] *)
Fixpoint splitCrLfFrom (cur : string) (s : string) : list string :=
  match s with
  | EmptyString => [reverse cur]
  | String c s' =>
      if Ascii.eqb c "010" then reverse cur :: splitCrLfFrom EmptyString s'
      else if Ascii.eqb c "013" then
        match s' with
        | String d s'' =>
            if Ascii.eqb d "010"
            then reverse cur :: splitCrLfFrom EmptyString s''
            else splitCrLfFrom (String c cur) s'
        | EmptyString => splitCrLfFrom (String c cur) s'
        end
      else splitCrLfFrom (String c cur) s'
  end.

Definition splitCrLf (s : string) : list string := splitCrLfFrom EmptyString s.

(** [s.split(/\s+/)] : maximal runs of white space separate the pieces. *)
Fixpoint splitSpacesFrom (cur : string) (inSep : bool) (s : string) : list string :=
  match s with
  | EmptyString => [reverse cur]
  | String c s' =>
      if isWhiteSpace c then
        if inSep then splitSpacesFrom cur true s'
        else reverse cur :: splitSpacesFrom EmptyString true s'
      else splitSpacesFrom (String c cur) false s'
  end.

Definition splitSpaces (s : string) : list string :=
  splitSpacesFrom EmptyString false s.

(** [xs.join(sep)] *)
Fixpoint join (sep : string) (xs : list string) : string :=
  match xs with
  | [] => EmptyString
  | [x] => x
  | x :: rest => x +:+ sep +:+ join sep rest
  end.

(** ASCII lower-casing, the folding a case-insensitive pattern made of
    ASCII letters applies. *)
Definition asciiLower (c : ascii) : ascii :=
  let n := N_of_ascii c in
  if ((65 <=? n) && (n <=? 90))%N then ascii_of_N (n + 32) else c.

(** [s.toLowerCase()] on code units below 256. *)
Definition lowerChar (c : ascii) : ascii :=
  let n := N_of_ascii c in
  if ((65 <=? n) && (n <=? 90))%N then ascii_of_N (n + 32)
  else if ((192 <=? n) && (n <=? 222) && negb (n =? 215))%N then ascii_of_N (n + 32)
  else c.

Fixpoint mapChars (f : ascii -> ascii) (s : string) : string :=
  match s with
  | EmptyString => EmptyString
  | String c s' => String (f c) (mapChars f s')
  end.

Definition toLowerCase (s : string) : string := mapChars lowerChar s.

Fixpoint filterChars (f : ascii -> bool) (s : string) : string :=
  match s with
  | EmptyString => EmptyString
  | String c s' => if f c then String c (filterChars f s') else filterChars f s'
  end.

Fixpoint existsChar (f : ascii -> bool) (s : string) : bool :=
  match s with
  | EmptyString => false
  | String c s' => f c || existsChar f s'
  end.

Definition isDigit (c : ascii) : bool :=
  let n := N_of_ascii c in ((48 <=? n) && (n <=? 57))%N.

Definition isAsciiLetter (c : ascii) : bool :=
  let n := N_of_ascii (asciiLower c) in ((97 <=? n) && (n <=? 122))%N.

(** Decimal rendering of an integer, as [String(n)] gives for a safe integer. *)
Definition ofZ (z : Z) : string := NilZero.string_of_int (Z.to_int z).

End JS.

(* ===================================================================== *)
(** ** JSON values, [JSON.parse], [JSON.stringify] *)
(* ===================================================================== *)

Module Json.

(** A number keeps the literal it was read from; [JSON.stringify] prints
    that literal and equality of numbers compares literals. *)
#[warnings="-register-all"] Inductive json : Type :=
| JNull
| JBool (b : bool)
| JNum (lexeme : string)
| JStr (s : string)
| JArr (items : list json)
| JObj (fields : list (string * json)).

Definition dquote : ascii := "034"%char.
Definition backslash : ascii := "092"%char.
Definition newline : ascii := "010"%char.

(** Source literals are written with ['] for the double quote and [~] for
    the line feed. *)
Definition litChar (c : ascii) : ascii :=
  if Ascii.eqb c "'" then dquote else if Ascii.eqb c "~" then newline else c.

Definition lit (s : string) : string := JS.mapChars litChar s.

(** Own properties of an object, in insertion order (the reordering of
    integer-like keys is not modelled). *)
Fixpoint assocGet (k : string) (fs : list (string * json)) : option json :=
  match fs with
  | [] => None
  | (k', v) :: rest => if String.eqb k k' then Some v else assocGet k rest
  end.

Fixpoint assocSet (k : string) (v : json) (fs : list (string * json))
  : list (string * json) :=
  match fs with
  | [] => [(k, v)]
  | (k', v') :: rest =>
      if String.eqb k k' then (k', v) :: rest else (k', v') :: assocSet k v rest
  end.

(** [v.k] on a value that is neither [null] nor [undefined]; [None] is
    [undefined]. *)
Definition get (v : json) (k : string) : option json :=
  match v with
  | JObj fs => assocGet k fs
  | _ => None
  end.

(** [v?.k] where [v] may be [undefined] ([None]) or [null]. *)
Definition optGet (v : option json) (k : string) : option json :=
  match v with
  | Some (JObj fs) => assocGet k fs
  | _ => None
  end.

Definition isZeroDigitOrSign (c : ascii) : bool :=
  Ascii.eqb c "0" || Ascii.eqb c "-" || Ascii.eqb c ".".

(** The mantissa of a number literal, up to its exponent mark. *)
Fixpoint mantissa (s : string) : string :=
  match s with
  | EmptyString => EmptyString
  | String c r =>
      if Ascii.eqb c "e" || Ascii.eqb c "E" then EmptyString
      else String c (mantissa r)
  end.

Definition isZeroLexeme (l : string) : bool :=
  negb (JS.existsChar (fun c => negb (isZeroDigitOrSign c)) (mantissa l)).

(** Truthiness of a value. *)
Definition truthy (v : json) : bool :=
  match v with
  | JNull => false
  | JBool b => b
  | JNum l => negb (isZeroLexeme l)
  | JStr s => JS.nonEmpty s
  | JArr _ | JObj _ => true
  end.

(** Truthiness of a possibly [undefined] value. *)
Definition truthyO (v : option json) : bool :=
  match v with Some x => truthy x | None => false end.

Definition isString (v : option json) : bool :=
  match v with Some (JStr _) => true | _ => false end.

(** [v === 'lit'] *)
Definition isStr (v : option json) (s : string) : bool :=
  match v with Some (JStr t) => String.eqb t s | _ => false end.

(* ------------------------------------------------------------------ *)
(** *** Parsing *)

Definition isJsonWs (c : ascii) : bool :=
  let n := N_of_ascii c in ((n =? 32) || (n =? 9) || (n =? 10) || (n =? 13))%N.

Fixpoint skipWs (s : string) : string :=
  match s with
  | EmptyString => EmptyString
  | String c r => if isJsonWs c then skipWs r else s
  end.

Definition hexValue (c : ascii) : option N :=
  let n := N_of_ascii c in
  if ((48 <=? n) && (n <=? 57))%N then Some (n - 48)%N
  else if ((97 <=? n) && (n <=? 102))%N then Some (n - 87)%N
  else if ((65 <=? n) && (n <=? 70))%N then Some (n - 55)%N
  else None.

Definition hex4 (a b c d : ascii) : option N :=
  match hexValue a, hexValue b, hexValue c, hexValue d with
  | Some x, Some y, Some z, Some w => Some (((x * 16 + y) * 16 + z) * 16 + w)%N
  | _, _, _, _ => None
  end.

(** Body of a string literal, after the opening quote.  An escape naming a
    code unit of 256 or more is outside the model and is rejected. *)
Fixpoint parseStringBody (s : string) (acc : string) : option (string * string) :=
  match s with
  | EmptyString => None
  | String c r =>
      if Ascii.eqb c dquote then Some (JS.reverse acc, r)
      else if Ascii.eqb c backslash then
        match r with
        | EmptyString => None
        | String e r' =>
            if Ascii.eqb e dquote then parseStringBody r' (String dquote acc)
            else if Ascii.eqb e backslash then parseStringBody r' (String backslash acc)
            else if Ascii.eqb e "/" then parseStringBody r' (String "/" acc)
            else if Ascii.eqb e "b" then parseStringBody r' (String "008" acc)
            else if Ascii.eqb e "f" then parseStringBody r' (String "012" acc)
            else if Ascii.eqb e "n" then parseStringBody r' (String "010" acc)
            else if Ascii.eqb e "r" then parseStringBody r' (String "013" acc)
            else if Ascii.eqb e "t" then parseStringBody r' (String "009" acc)
            else if Ascii.eqb e "u" then
              match r' with
              | String h1 (String h2 (String h3 (String h4 r''))) =>
                  match hex4 h1 h2 h3 h4 with
                  | Some n =>
                      if (n <? 256)%N
                      then parseStringBody r'' (String (ascii_of_N n) acc)
                      else None
                  | None => None
                  end
              | _ => None
              end
            else None
        end
      else if (N_of_ascii c <? 32)%N then None
      else parseStringBody r (String c acc)
  end.

Fixpoint spanDigits (s : string) : string * string :=
  match s with
  | EmptyString => (EmptyString, EmptyString)
  | String c r =>
      if JS.isDigit c then let '(d, r') := spanDigits r in (String c d, r')
      else (EmptyString, s)
  end.

Definition parseInt (s : string) : option (string * string) :=
  match s with
  | String c r =>
      if Ascii.eqb c "0" then Some ("0", r)
      else if JS.isDigit c then let '(d, r') := spanDigits r in Some (String c d, r')
      else None
  | EmptyString => None
  end.

Definition parseFrac (s : string) : option (string * string) :=
  match s with
  | String c r =>
      if Ascii.eqb c "." then
        match spanDigits r with
        | (EmptyString, _) => None
        | (d, r') => Some (String c d, r')
        end
      else Some (EmptyString, s)
  | EmptyString => Some (EmptyString, s)
  end.

Definition parseExp (s : string) : option (string * string) :=
  match s with
  | String c r =>
      if Ascii.eqb c "e" || Ascii.eqb c "E" then
        let '(sign, r1) :=
          match r with
          | String g r0 =>
              if Ascii.eqb g "+" || Ascii.eqb g "-"
              then (String g EmptyString, r0) else (EmptyString, r)
          | EmptyString => (EmptyString, r)
          end in
        match spanDigits r1 with
        | (EmptyString, _) => None
        | (d, r') => Some (String c (sign +:+ d), r')
        end
      else Some (EmptyString, s)
  | EmptyString => Some (EmptyString, s)
  end.

Definition parseNumber (s : string) : option (string * string) :=
  let '(sign, r0) :=
    match s with
    | String c r => if Ascii.eqb c "-" then ("-", r) else (EmptyString, s)
    | EmptyString => (EmptyString, s)
    end in
  '(i, r1) ← parseInt r0;
  '(f, r2) ← parseFrac r1;
  '(e, r3) ← parseExp r2;
  Some (sign +:+ i +:+ f +:+ e, r3).

Definition parseKeyword (kw : string) (v : json) (s : string) : option (json * string) :=
  if JS.startsWith s kw then Some (v, JS.drop (String.length kw) s) else None.

Fixpoint parseValue (fuel : nat) (s : string) {struct fuel} : option (json * string) :=
  match fuel with
  | O => None
  | S n =>
      match skipWs s with
      | EmptyString => None
      | String c r as s0 =>
          if Ascii.eqb c "{" then
            match skipWs r with
            | String d r' as r1 =>
                if Ascii.eqb d "}" then Some (JObj [], r') else parseMembers n r1 []
            | EmptyString => None
            end
          else if Ascii.eqb c "[" then
            match skipWs r with
            | String d r' as r1 =>
                if Ascii.eqb d "]" then Some (JArr [], r') else parseElements n r1 []
            | EmptyString => None
            end
          else if Ascii.eqb c dquote then
            '(str, r') ← parseStringBody r EmptyString; Some (JStr str, r')
          else if Ascii.eqb c "t" then parseKeyword "true" (JBool true) s0
          else if Ascii.eqb c "f" then parseKeyword "false" (JBool false) s0
          else if Ascii.eqb c "n" then parseKeyword "null" JNull s0
          else '(l, r') ← parseNumber s0; Some (JNum l, r')
      end
  end
with parseElements (fuel : nat) (s : string) (acc : list json) {struct fuel}
  : option (json * string) :=
  match fuel with
  | O => None
  | S n =>
      match parseValue n s with
      | Some (v, r) =>
          match skipWs r with
          | String c r' =>
              if Ascii.eqb c "," then parseElements n r' (acc ++ [v])
              else if Ascii.eqb c "]" then Some (JArr (acc ++ [v]), r')
              else None
          | EmptyString => None
          end
      | None => None
      end
  end
with parseMembers (fuel : nat) (s : string) (acc : list (string * json)) {struct fuel}
  : option (json * string) :=
  match fuel with
  | O => None
  | S n =>
      match skipWs s with
      | String q r =>
          if Ascii.eqb q dquote then
            match parseStringBody r EmptyString with
            | Some (k, r1) =>
                match skipWs r1 with
                | String c r2 =>
                    if Ascii.eqb c ":" then
                      match parseValue n r2 with
                      | Some (v, r3) =>
                          match skipWs r3 with
                          | String d r4 =>
                              if Ascii.eqb d "," then parseMembers n r4 (assocSet k v acc)
                              else if Ascii.eqb d "}" then Some (JObj (assocSet k v acc), r4)
                              else None
                          | EmptyString => None
                          end
                      | None => None
                      end
                    else None
                | EmptyString => None
                end
            | None => None
            end
          else None
      | EmptyString => None
      end
  end.

(** [JSON.parse(text)]; [None] is the thrown [SyntaxError].  A text with an
    escape that names a code unit of 256 or more is not represented and
    gives [None] as well, so [None] stands for the thrown error on texts
    without such an escape (texts without a backslash among them). *)
Definition parse (text : string) : option json :=
  match parseValue (S (String.length text)) text with
  | Some (v, r) =>
      match skipWs r with
      | EmptyString => Some v
      | _ => None
      end
  | None => None
  end.

(* ------------------------------------------------------------------ *)
(** *** Printing *)

Definition hexDigit (n : N) : ascii :=
  if (n <? 10)%N then ascii_of_N (48 + n) else ascii_of_N (87 + n).

Definition escapeChar (c : ascii) : string :=
  let n := N_of_ascii c in
  if Ascii.eqb c dquote then String backslash (String dquote EmptyString)
  else if Ascii.eqb c backslash then String backslash (String backslash EmptyString)
  else if (n =? 8)%N then String backslash "b"
  else if (n =? 12)%N then String backslash "f"
  else if (n =? 10)%N then String backslash "n"
  else if (n =? 13)%N then String backslash "r"
  else if (n =? 9)%N then String backslash "t"
  else if (n <? 32)%N then
    String backslash ("u00" +:+ String (hexDigit (n / 16)) (String (hexDigit (n mod 16)) EmptyString))
  else String c EmptyString.

Fixpoint escape (s : string) : string :=
  match s with
  | EmptyString => EmptyString
  | String c r => escapeChar c +:+ escape r
  end.

Definition quote (s : string) : string :=
  String dquote (escape s) +:+ String dquote EmptyString.

(** [JSON.stringify(v)].  A number is printed by its literal and the
    members of an object in the order of the list, which is what the
    program prints when the literals are written in the output form of
    numbers and the keys are not integer-like. *)
Fixpoint stringify (v : json) : string :=
  match v with
  | JNull => "null"
  | JBool true => "true"
  | JBool false => "false"
  | JNum l => l
  | JStr s => quote s
  | JArr items => "[" +:+ JS.join "," (map stringify items) +:+ "]"
  | JObj fields =>
      "{" +:+ JS.join "," (map (fun kv => quote (fst kv) +:+ ":" +:+ stringify (snd kv)) fields)
      +:+ "}"
  end.

(** [String(v)], the conversion a template literal applies.  A number is
    printed by its literal, which is what the program prints for a literal
    written in the output form of numbers. *)
Fixpoint toStr (v : json) : string :=
  match v with
  | JNull => "null"
  | JBool true => "true"
  | JBool false => "false"
  | JNum l => l
  | JStr s => s
  | JArr items =>
      JS.join "," (map (fun x => match x with JNull => EmptyString | _ => toStr x end) items)
  | JObj _ => "[object Object]"
  end.

Definition toStrO (v : option json) : string :=
  match v with Some x => toStr x | None => "undefined" end.

(** [a === b]; two structured values are never the same reference, and two
    numbers are compared by their literals. *)
Definition strictEq (a b : option json) : bool :=
  match a, b with
  | None, None => true
  | Some JNull, Some JNull => true
  | Some (JBool x), Some (JBool y) => Bool.eqb x y
  | Some (JNum x), Some (JNum y) => String.eqb x y
  | Some (JStr x), Some (JStr y) => String.eqb x y
  | _, _ => false
  end.

(** An object literal whose [undefined] members are left out when printed. *)
Fixpoint definedFields (fs : list (string * option json)) : list (string * json) :=
  match fs with
  | [] => []
  | (k, Some v) :: rest => (k, v) :: definedFields rest
  | (_, None) :: rest => definedFields rest
  end.

Definition object (fs : list (string * option json)) : json := JObj (definedFields fs).

(** Nesting depth of a value. *)
Fixpoint depth (v : json) : nat :=
  match v with
  | JArr items => S (fold_right (fun x acc => Nat.max (depth x) acc) O items)
  | JObj fields => S (fold_right (fun kv acc => Nat.max (depth (snd kv)) acc) O fields)
  | _ => O
  end.

End Json.

Export Json.

(* ===================================================================== *)
(** ** Standards-based backchannel authentication (lib/ciba-standard.ts) *)
(* ===================================================================== *)

Module Ciba.

Record CIBAConfig := {
  issuer : string;
  clientId : string;
  clientSecret : string;
  scope : string;
  audience : option string
}.

Record CIBAAuthRequest := {
  auth_req_id : string;
  expires_in : nat;
  interval : nat
}.

Record CIBATokenResponse := {
  access_token : option string;
  id_token : option string;
  token_type : option string;
  token_expires_in : option Z;
  token_scope : option string
}.

(** What the authorize endpoint answers: the call rejects, or answers with a
    status that is not a success, or answers with a JSON body. *)
Inductive InitResponse :=
| InitNetworkError (message : string)
| InitHttpError (status : Z) (body : string)
| InitHttpOk (auth_req_id : string) (expires_in : option nat) (interval : option nat).

(** What the token endpoint answers on one attempt: [fetch] or
    [response.json()] rejects with an error carrying [message]; or the
    response is a success; or it carries [{error, error_description}]. *)
Inductive PollResponse :=
| PollNetworkError (message : string)
| PollOk (tokens : CIBATokenResponse)
| PollError (error : option string) (error_description : option string).

(** Outcome of an asynchronous call: a value, or a thrown [Error] with its
    message. *)
Inductive Outcome (A : Type) :=
| Returned (a : A)
| Thrown (message : string).
Arguments Returned {A} a.
Arguments Thrown {A} message.

(** [x || d] on a number that may be absent. *)
Definition orDefault (x : option nat) (d : nat) : nat :=
  match x with
  | Some (S n) => S n
  | _ => d
  end.

Definition initiateCIBARequest (resp : InitResponse) : Outcome CIBAAuthRequest :=
  let tried :=
    match resp with
    | InitNetworkError m => Thrown m
    | InitHttpError status body =>
        Thrown ("CIBA request failed: " +:+ JS.ofZ status +:+ " - " +:+ body)
    | InitHttpOk id e i =>
        Returned {| auth_req_id := id;
                    expires_in := orDefault e 300;
                    interval := orDefault i 5 |}
    end in
  match tried with
  | Returned r => Returned r
  | Thrown m => Thrown ("Failed to initiate CIBA: " +:+ m)
  end.

Definition expiredMessage : string :=
  "Authorization request expired - user did not respond in time".
Definition pollingErrorPrefix : string := "CIBA polling error".
Definition pollingFailedMessage : string :=
  "CIBA polling failed after maximum attempts".
Definition timeoutMessage : string :=
  "CIBA authorization timeout - user did not respond in time".

Definition pollingErrorMessage (error error_description : option string) : string :=
  pollingErrorPrefix +:+ ": "
  +:+ match error with Some e => e | None => "undefined" end
  +:+ " - "
  +:+ match error_description with
      | Some d => d
      | None => EmptyString
      end.

(** A polling run: its outcome ([Returned None] is the [null] of a denial),
    the number of token requests issued and the number of waits of
    [interval] seconds. *)
Record PollRun := {
  result : Outcome (option CIBATokenResponse);
  fetches : nat;
  waits : nat
}.

(** What the [try] block of one attempt does. *)
Inductive Attempt :=
| AttemptReturn (r : option CIBATokenResponse)
| AttemptContinue
| AttemptThrow (message : string).

Definition tryAttempt (resp : PollResponse) : Attempt :=
  match resp with
  | PollNetworkError m => AttemptThrow m
  | PollOk t => AttemptReturn (Some t)
  | PollError error desc =>
      if bool_decide (error = Some "authorization_pending") then AttemptContinue
      else if bool_decide (error = Some "access_denied") then AttemptReturn None
      else if bool_decide (error = Some "expired_token") then AttemptThrow expiredMessage
      else AttemptThrow (pollingErrorMessage error desc)
  end.

Section Poll.
Variable provider : nat -> PollResponse.
Variable maxAttempts : nat.

(** The [for] loop from [attempt]; [fuel] bounds the iterations left. *)
Fixpoint pollFrom (fuel attempt fetched waited : nat) : PollRun :=
  match fuel with
  | O => {| result := Thrown timeoutMessage; fetches := fetched; waits := waited |}
  | S fuel' =>
      if (maxAttempts <? attempt)%nat
      then {| result := Thrown timeoutMessage; fetches := fetched; waits := waited |}
      else
        let waited' := if (1 <? attempt)%nat then S waited else waited in
        let fetched' := S fetched in
        match tryAttempt (provider attempt) with
        | AttemptReturn r =>
            {| result := Returned r; fetches := fetched'; waits := waited' |}
        | AttemptContinue => pollFrom fuel' (S attempt) fetched' waited'
        | AttemptThrow m =>
            (* catch (error) *)
            if JS.includes m pollingErrorPrefix
            then {| result := Thrown m; fetches := fetched'; waits := waited' |}
            else if (attempt =? maxAttempts)%nat
            then {| result := Thrown pollingFailedMessage;
                    fetches := fetched'; waits := waited' |}
            else pollFrom fuel' (S attempt) fetched' waited'
        end
  end.

Definition pollCIBAResult : PollRun := pollFrom maxAttempts 1 0 0.
End Poll.

(** [Math.ceil(expires_in / interval)] on positive integers. *)
Definition ceilDiv (a b : nat) : nat := ((a + b - 1) / b)%nat.

Definition performCIBAAuthorization
    (init : InitResponse) (provider : nat -> PollResponse)
  : Outcome (option CIBATokenResponse) :=
  match initiateCIBARequest init with
  | Thrown m => Thrown m
  | Returned authReq =>
      let maxAttempts := ceilDiv (expires_in authReq) (interval authReq) in
      result (pollCIBAResult provider maxAttempts)
  end.

(** The process environment the configuration is read from. *)
Record Env := {
  AUTH0_ISSUER_BASE_URL : option string;
  AUTH0_CLIENT_ID : option string;
  AUTH0_CLIENT_SECRET : option string;
  SHOP_API_AUDIENCE : option string
}.

Definition configMissingMessage : string :=
  "CIBA configuration missing: AUTH0_ISSUER_BASE_URL, AUTH0_CLIENT_ID, and AUTH0_CLIENT_SECRET are required".

Definition present (x : option string) : option string :=
  match x with
  | Some s => if JS.nonEmpty s then Some s else None
  | None => None
  end.

Definition getCIBAConfig (env : Env) : Outcome CIBAConfig :=
  match present (AUTH0_ISSUER_BASE_URL env),
        present (AUTH0_CLIENT_ID env),
        present (AUTH0_CLIENT_SECRET env) with
  | Some i, Some c, Some s =>
      Returned {| issuer := i; clientId := c; clientSecret := s;
                  scope := "openid profile email checkout:buy";
                  audience := SHOP_API_AUDIENCE env |}
  | _, _, _ => Thrown configMissingMessage
  end.

(** The identity provider as the coordinator sees it. *)
Record Provider := {
  env : Env;
  initResponse : InitResponse;
  tokenResponses : nat -> PollResponse
}.

Definition performCIBAAuthorizationWithEnv (p : Provider)
  : Outcome (option CIBATokenResponse) :=
  match getCIBAConfig (env p) with
  | Thrown m => Thrown m
  | Returned _ => performCIBAAuthorization (initResponse p) (tokenResponses p)
  end.

End Ciba.

(* ===================================================================== *)
(** ** Backchannel authorization coordinator
       (lib/auth0-ai-langchain.ts, lib/ciba-langchain.ts) *)
(* ===================================================================== *)

Module Coordinator.
Import Ciba.

Inductive Status := idle | requested | pending | approved | denied.

#[global] Instance Status_eq_dec : EqDecision Status.
Proof. solve_decision. Defined.

Record AuthorizationState := {
  status : Status;
  message : option string
}.

(** The phases [updateAuthorizationStatusMessage] announces. *)
Inductive Phase := sent | approvedPhase | processing.

(** An ephemeral status message; its text is fixed by the phase and its
    creation time is left out. *)
Record AuthorizationStatusMessage := {
  step : Phase;
  ephemeral : bool;
  autoRemoveMs : Z
}.

(** The module-level variables of the two coordinator modules, with two
    ghost logs: every status written to [authorizationState], in order, and
    the statuses in force each time the protected action is entered. *)
Record World := {
  authorizationState : AuthorizationState;          (* auth0-ai-langchain.ts *)
  authorizationStatusMessages : list AuthorizationStatusMessage;
  isToolExecutionInProgress : bool;
  cibaAuthorizationState : AuthorizationState;      (* ciba-langchain.ts *)
  history : list Status;
  invocations : list (Status * Status)
}.

Definition setAuthorizationState (a : AuthorizationState) (w : World) : World :=
  {| authorizationState := a;
     authorizationStatusMessages := authorizationStatusMessages w;
     isToolExecutionInProgress := isToolExecutionInProgress w;
     cibaAuthorizationState := cibaAuthorizationState w;
     history := history w ++ [status a];
     invocations := invocations w |}.

Definition setMessages (l : list AuthorizationStatusMessage) (w : World) : World :=
  {| authorizationState := authorizationState w;
     authorizationStatusMessages := l;
     isToolExecutionInProgress := isToolExecutionInProgress w;
     cibaAuthorizationState := cibaAuthorizationState w;
     history := history w;
     invocations := invocations w |}.

Definition setInProgress (b : bool) (w : World) : World :=
  {| authorizationState := authorizationState w;
     authorizationStatusMessages := authorizationStatusMessages w;
     isToolExecutionInProgress := b;
     cibaAuthorizationState := cibaAuthorizationState w;
     history := history w;
     invocations := invocations w |}.

Definition setCibaState (a : AuthorizationState) (w : World) : World :=
  {| authorizationState := authorizationState w;
     authorizationStatusMessages := authorizationStatusMessages w;
     isToolExecutionInProgress := isToolExecutionInProgress w;
     cibaAuthorizationState := a;
     history := history w;
     invocations := invocations w |}.

Definition logInvocation (w : World) : World :=
  {| authorizationState := authorizationState w;
     authorizationStatusMessages := authorizationStatusMessages w;
     isToolExecutionInProgress := isToolExecutionInProgress w;
     cibaAuthorizationState := cibaAuthorizationState w;
     history := history w;
     invocations :=
       invocations w
       ++ [(status (authorizationState w), status (cibaAuthorizationState w))] |}.

(** [state.status = s], an in-place update that keeps the message. *)
Definition withStatus (s : Status) (a : AuthorizationState) : AuthorizationState :=
  {| status := s; message := message a |}.

(** Errors: a plain [Error] or the SDK's [AccessDeniedInterrupt]. *)
Inductive ErrorKind := PlainError | AccessDeniedInterrupt.

Record JsError := {
  kind : ErrorKind;
  name : string;
  errMessage : string
}.

Definition mkError (m : string) : JsError :=
  {| kind := PlainError; name := "Error"; errMessage := m |}.

Inductive Result (A : Type) :=
| Ok (a : A)
| Raise (e : JsError).
Arguments Ok {A} a.
Arguments Raise {A} e.

(** Computations over the module state that may throw. *)
Definition M (A : Type) : Type := World -> Result A * World.

Definition ret {A} (a : A) : M A := fun w => (Ok a, w).
Definition raise {A} (e : JsError) : M A := fun w => (Raise e, w).
Definition bind {A B} (m : M A) (k : A -> M B) : M B :=
  fun w =>
    match m w with
    | (Ok a, w') => k a w'
    | (Raise e, w') => (Raise e, w')
    end.
Definition tryCatch {A} (m : M A) (h : JsError -> M A) : M A :=
  fun w =>
    match m w with
    | (Ok a, w') => (Ok a, w')
    | (Raise e, w') => h e w'
    end.
Definition modify (f : World -> World) : M unit := fun w => (Ok tt, f w).

Notation "x <- m ;; k" := (bind m (fun x => k))
  (at level 100, m at next level, right associativity).
Notation "m ;;; k" := (bind m (fun _ => k))
  (at level 100, right associativity).

(** Awaiting a promise that settles with a [Ciba.Outcome]. *)
Definition await {A} (p : Outcome A) : M A :=
  match p with
  | Returned a => ret a
  | Thrown m => raise (mkError m)
  end.

(* ------------------------------------------------------------------ *)
(** *** lib/auth0-ai-langchain.ts *)

Definition createAuthorizationStatusMessage (p : Phase) (autoRemove : Z)
  : AuthorizationStatusMessage :=
  {| step := p; ephemeral := true; autoRemoveMs := autoRemove |}.

Definition clearAuthorizationStatusMessages : M unit := modify (setMessages []).

Definition updateAuthorizationStatusMessage (phase : Phase) : M unit :=
  clearAuthorizationStatusMessages ;;;
  (match phase with
   | approvedPhase => modify (setInProgress true)
   | _ => ret tt
   end) ;;;
  modify (fun w =>
    setMessages (authorizationStatusMessages w
                 ++ [createAuthorizationStatusMessage phase 60000]) w).

Definition clearAuthorizationOnToolCompletion : M unit :=
  fun w =>
    if isToolExecutionInProgress w
    then (clearAuthorizationStatusMessages ;;; modify (setInProgress false)) w
    else (Ok tt, w).

(** [getAuthorizationState()]; [shop] is the status the checkout tool
    reports through [getShopAuthState], [None] when it reports none or the
    tool module cannot be loaded. *)
Definition getAuthorizationState (shop : option Status) : M AuthorizationState :=
  fun w =>
    let w' :=
      if bool_decide (shop = Some approved)
         && bool_decide (status (authorizationState w) = requested)
      then setAuthorizationState (withStatus approved (authorizationState w)) w
      else w in
    (Ok (authorizationState w'), w').

Definition resetAuthorizationState : M unit :=
  modify (setAuthorizationState {| status := idle; message := None |}).

Definition notifyShopAuthReset : M unit :=
  modify (setAuthorizationState {| status := idle; message := None |}).

Definition setStatus (s : Status) : M unit :=
  modify (fun w => setAuthorizationState (withStatus s (authorizationState w)) w).

(** The [userID] callback: context credential, then cart-scoped user field,
    then generic user field. *)
Definition userID (params : json) (config : option json) : option json :=
  let userId :=
    optGet (optGet (optGet (optGet config "configurable") "_credentials") "user") "sub" in
  let fromCart := optGet (optGet (Some params) "cartData") "userId" in
  let userId := if negb (truthyO userId) && truthyO fromCart then fromCart else userId in
  let fromParams := optGet (Some params) "userId" in
  let userId := if negb (truthyO userId) && truthyO fromParams then fromParams else userId in
  userId.

(** [/[^a-zA-Z0-9\s+\-_.,:#]/g] removes every character outside this set. *)
Definition allowedChar (c : ascii) : bool :=
  JS.isAsciiLetter c || JS.isDigit c || JS.isWhiteSpace c
  || JS.existsChar (Ascii.eqb c) "+-_.,:#".

Definition clean (s : string) : string := JS.filterChars allowedChar s.

(** The text of the binding message; [None] is a thrown [TypeError]. *)
Definition bindingMessageText (params : json) : option string :=
  match params with
  | JNull => None
  | _ =>
      if truthyO (get params "product") && truthyO (get params "qty") then
        Some ("Do you want to buy " +:+ toStrO (get params "qty") +:+ " "
              +:+ toStrO (get params "product"))
      else if truthyO (get params "cartSummary") then
        let cartInfo := get params "cartSummary" in
        let tried : option string :=
          parsed ← match cartInfo with
                   | Some (JStr s) => Json.parse s
                   | other => other
                   end;
          match parsed with
          | JNull => None
          | _ =>
              if truthyO (get parsed "totalValue") && truthyO (get parsed "items") then
                let itemCount :=
                  match get parsed "items" with
                  | Some (JArr l) => JS.ofZ (Z.of_nat (length l))
                  | _ => "multiple"
                  end in
                Some ("Do you want to checkout cart with " +:+ itemCount
                      +:+ " items for " +:+ toStrO (get parsed "totalValue"))
              else if truthyO (get parsed "summary") then
                match get parsed "summary" with
                | Some (JStr s) => Some ("Do you want to checkout cart: " +:+ clean s)
                | _ => None
                end
              else Some "Do you want to checkout your cart"
          end in
        match tried with
        | Some m => Some m
        | None =>
            match cartInfo with
            | Some (JStr s) => Some ("Do you want to checkout cart: " +:+ clean s)
            | _ => None
            end
        end
      else Some "Do you want to proceed with this purchase"
  end.

Definition typeError : JsError :=
  {| kind := PlainError; name := "TypeError"; errMessage := "TypeError" |}.

(** The [bindingMessage] callback. *)
Definition bindingMessage (params : json) : M string :=
  match bindingMessageText params with
  | None => raise typeError
  | Some m =>
      modify (setAuthorizationState {| status := requested; message := Some m |}) ;;;
      ret m
  end.

(** The [onAuthorizationRequest] callback; [poll] is the polling promise. *)
Definition onAuthorizationRequest (poll : Outcome (option CIBATokenResponse)) : M unit :=
  updateAuthorizationStatusMessage sent ;;;
  setStatus pending ;;;
  tryCatch
    (res <- await poll ;;
     match res with
     | Some _ => setStatus approved ;;; updateAuthorizationStatusMessage approvedPhase
     | None => setStatus denied ;;; clearAuthorizationStatusMessages
     end)
    (fun error =>
       setStatus denied ;;; clearAuthorizationStatusMessages ;;; raise error).

Definition deniedByUser : string := "The user has denied the request".

(** The [onUnauthorized] callback. *)
Definition onUnauthorized (e : JsError) : M string :=
  clearAuthorizationStatusMessages ;;;
  match kind e with
  | AccessDeniedInterrupt =>
      modify (setAuthorizationState {| status := denied; message := Some deniedByUser |}) ;;;
      ret deniedByUser
  | PlainError =>
      modify (setAuthorizationState {| status := denied; message := Some (errMessage e) |}) ;;;
      ret (errMessage e)
  end.

(** The protected action itself: entering it is logged, its outcome is
    given. *)
Definition originalTool (outcome : Result json) : M json :=
  fun w => (outcome, logInvocation w).

(** [wrappedTool.invoke] *)
Definition wrappedTool (outcome : Result json) : M json :=
  tryCatch
    (r <- originalTool outcome ;;
     clearAuthorizationOnToolCompletion ;;;
     ret r)
    (fun error => clearAuthorizationOnToolCompletion ;;; raise error).

(* ------------------------------------------------------------------ *)
(** *** lib/ciba-langchain.ts *)

Definition setCibaStatus (s : Status) : M unit :=
  modify (fun w => setCibaState (withStatus s (cibaAuthorizationState w)) w).

Definition extractUserId (params : json) (config : option json) : option json :=
  userID params config.

Definition createBindingMessage (params : json) : M string :=
  match bindingMessageText params with
  | None => raise typeError
  | Some m => ret m
  end.

Definition userIdRequired : string := "User ID required for CIBA authorization".

(** [withCIBAAuthorization(toolFunction)(params, config)] *)
Definition withCIBAAuthorization (toolFunction : M json) (p : Provider)
    (params : json) (config : option json) : M json :=
  if negb (truthyO (extractUserId params config)) then raise (mkError userIdRequired)
  else
    bindingMessage <- createBindingMessage params ;;
    modify (setCibaState {| status := requested; message := Some bindingMessage |}) ;;;
    setCibaStatus pending ;;;
    tryCatch
      (res <- await (performCIBAAuthorizationWithEnv p) ;;
       match res with
       | Some _ => setCibaStatus approved ;;; toolFunction
       | None =>
           setCibaStatus denied ;;;
           raise {| kind := PlainError; name := "AccessDenied"; errMessage := deniedByUser |}
       end)
      (fun error =>
         setCibaStatus denied ;;;
         match kind error with
         | AccessDeniedInterrupt => raise error
         | PlainError => raise (mkError ("CIBA authorization failed: " +:+ errMessage error))
         end).

(** The options of [withAsyncUserConfirmation]; every callback is optional. *)
Record Options := {
  optUserID : option (json -> option json -> option json);
  optBindingMessage : option (json -> M string);
  optOnAuthorizationRequest : option (Outcome (option CIBATokenResponse) -> M unit);
  optOnUnauthorized : option (JsError -> M string)
}.

(** [withAsyncUserConfirmation(options)(toolFunction)(params, config)] *)
Definition withAsyncUserConfirmation (options : Options) (toolFunction : M json)
    (p : Provider) (params : json) (config : option json) : M json :=
  let userId :=
    match optUserID options with
    | Some f => f params config
    | None => extractUserId params config
    end in
  if negb (truthyO userId) then raise (mkError userIdRequired)
  else
    bindingMessage <- match optBindingMessage options with
                      | Some f => f params
                      | None => createBindingMessage params
                      end ;;
    modify (setCibaState {| status := requested; message := Some bindingMessage |}) ;;;
    setCibaStatus pending ;;;
    tryCatch
      (let pollPromise := performCIBAAuthorizationWithEnv p in
       match optOnAuthorizationRequest options with
       | Some f => f pollPromise
       | None => ret tt
       end ;;;
       res <- await pollPromise ;;
       match res with
       | Some _ => setCibaStatus approved ;;; toolFunction
       | None =>
           setCibaStatus denied ;;;
           let error :=
             {| kind := PlainError; name := "AccessDenied"; errMessage := deniedByUser |} in
           match optOnUnauthorized options with
           | Some f => errorMessage <- f error ;; raise (mkError errorMessage)
           | None => raise error
           end
       end)
      (fun error =>
         setCibaStatus denied ;;;
         match optOnUnauthorized options, kind error with
         | Some f, PlainError => errorMessage <- f error ;; raise (mkError errorMessage)
         | _, _ => raise error
         end).

(** Modelled from the spec: how the authorization goes that the Auth0 SDK
    (not under src/) runs for the wrapper of lib/auth0-ai-langchain.ts; the
    spec has the wrapper call initiate and then await poll, and either can
    fail: the initiation fails with an error, or the request is issued and
    [poll] is its polling promise. *)
Inductive SdkAuthorization :=
| SdkInitiationFails (e : JsError)
| SdkRequested (poll : Outcome (option CIBATokenResponse)).

(** Modelled from the spec: the error MissingUserId of the SDK's driver
    (not under src/), raised when no user id resolves. *)
Definition missingUserId : JsError :=
  {| kind := PlainError; name := "MissingUserId"; errMessage := "MissingUserId" |}.

(** Modelled from the spec: the error AuthorizationDenied of the SDK's
    driver (not under src/), which carries the denial reason. *)
Definition authorizationDenied (reason : string) : JsError :=
  {| kind := PlainError; name := "AuthorizationDenied"; errMessage := reason |}.

(** Modelled from the spec: the denial the SDK's driver (not under src/)
    reports to the unauthorized callback when the polling yields no
    tokens, an [AccessDeniedInterrupt] as the callback of the source tests
    for. *)
Definition accessDenied : JsError :=
  {| kind := AccessDeniedInterrupt; name := "AccessDeniedInterrupt";
     errMessage := deniedByUser |}.

(** Modelled from the spec: [auth0AI.withAsyncUserConfirmation(options)(tool)],
    the driver of the Auth0 SDK, to which lib/auth0-ai-langchain.ts hands
    its callbacks and its wrapped tool; the SDK is not under src/.  It
    follows the spec's description of withBackchannelAuthorization: the
    user id is derived, and the call fails with MissingUserId when none
    resolves; the binding message is derived; the request is issued and
    (as the comment on the callback in the source says) the
    authorization-request callback is called with the polling promise; on
    approval the wrapped action is invoked; on denial or any failure the
    unauthorized callback is told and AuthorizationDenied is raised,
    carrying the reason, without invoking the action. *)
Definition sdkWithAsyncUserConfirmation
    (userIDCallback : json -> option json -> option json)
    (bindingMessageCallback : json -> M string)
    (onAuthorizationRequestCallback : Outcome (option CIBATokenResponse) -> M unit)
    (onUnauthorizedCallback : JsError -> M string)
    (invoke : M json) (auth : SdkAuthorization)
    (params : json) (config : option json) : M json :=
  if negb (truthyO (userIDCallback params config)) then raise missingUserId
  else
    bindingMessageCallback params ;;;
    let deny (e : JsError) : M json :=
      reason <- onUnauthorizedCallback e ;; raise (authorizationDenied reason) in
    match auth with
    | SdkInitiationFails e => deny e
    | SdkRequested poll =>
        refusal <- tryCatch
                     (onAuthorizationRequestCallback poll ;;;
                      res <- await poll ;;
                      ret (match res with
                           | Some _ => None
                           | None => Some accessDenied
                           end))
                     (fun e => ret (Some e)) ;;
        match refusal with
        | None => invoke
        | Some e => deny e
        end
    end.

(** [withAsyncAuthorization(originalTool)] of lib/auth0-ai-langchain.ts: its
    four callbacks and the completion-tracking tool, handed to the driver
    above. *)
Definition withAsyncAuthorization (outcome : Result json) (auth : SdkAuthorization)
    (params : json) (config : option json) : M json :=
  sdkWithAsyncUserConfirmation userID bindingMessage onAuthorizationRequest
    onUnauthorized (wrappedTool outcome) auth params config.

(** The operations a caller can apply to the coordinator's state. *)
Inductive Op :=
| OpGetAuthorizationState (shop : option Status)
| OpResetAuthorizationState
| OpNotifyShopAuthReset
| OpBindingMessage (params : json)
| OpOnAuthorizationRequest (poll : Outcome (option CIBATokenResponse))
| OpOnUnauthorized (e : JsError).

Definition runOp (op : Op) (w : World) : World :=
  match op with
  | OpGetAuthorizationState shop => snd (getAuthorizationState shop w)
  | OpResetAuthorizationState => snd (resetAuthorizationState w)
  | OpNotifyShopAuthReset => snd (notifyShopAuthReset w)
  | OpBindingMessage params => snd (bindingMessage params w)
  | OpOnAuthorizationRequest poll => snd (onAuthorizationRequest poll w)
  | OpOnUnauthorized e => snd (onUnauthorized e w)
  end.

(** One link of the chain idle, requested, pending, approved-or-denied, idle. *)
Definition chainStep (a b : Status) : bool :=
  match a, b with
  | idle, requested
  | requested, pending
  | pending, approved
  | pending, denied
  | approved, idle
  | denied, idle => true
  | _, _ => false
  end.

(** A sequence of statuses in which each one follows its predecessor by one
    link of the chain. *)
Fixpoint chainPath (from : Status) (writes : list Status) : bool :=
  match writes with
  | [] => true
  | s :: rest => chainStep from s && chainPath s rest
  end.

End Coordinator.

(* ===================================================================== *)
(** ** Remote execution gateway (lib/agents/langgraphClient.ts) *)
(* ===================================================================== *)

Module Gateway.

(** The exported maps, and a ghost count of the thread-creation requests
    issued so far. *)
Record Cache := {
  conversationThreadMap : gmap string string;
  conversationThreadTimestamps : gmap string Z;
  creations : nat
}.

Inductive SSEEvent :=
| EvDone
| EvJson (j : json)
| EvText (text : string).

Record AgentCallOptions := {
  agentId : string;
  userMessage : string;
  userId : string;
  conversationId : string
}.

Record AgentCallResult := {
  messages : list json;
  content : string
}.

(** A thrown error: whether it is a [TypeError], and its message. *)
Record GwError := {
  isTypeError : bool;
  gwMessage : string
}.

Definition plainError (m : string) : GwError :=
  {| isTypeError := false; gwMessage := m |}.

Definition typeError : GwError :=
  {| isTypeError := true; gwMessage := "TypeError" |}.

Inductive Result (A : Type) :=
| Ok (a : A)
| Raise (e : GwError).
Arguments Ok {A} a.
Arguments Raise {A} e.

(** Answer of [POST /threads]: the request or the decoding of its body
    rejects; or the status is not a success; or a body arrives. *)
Inductive CreateResponse :=
| CreateFails (e : GwError)
| CreateHttpError (status : Z) (statusText : string)
| CreateBody (thread_id id threadId : option string).

(** [a || b] on strings that may be absent. *)
Definition orElse (a b : option string) : option string :=
  match a with
  | Some s => if JS.nonEmpty s then a else b
  | None => b
  end.

Definition truthyId (a : option string) : option string :=
  match a with
  | Some s => if JS.nonEmpty s then Some s else None
  | None => None
  end.

Definition touch (conv : string) (now : Z) (c : Cache) : Cache :=
  {| conversationThreadMap := conversationThreadMap c;
     conversationThreadTimestamps := <[conv := now]> (conversationThreadTimestamps c);
     creations := creations c |}.

Definition bindThread (conv tid : string) (c : Cache) : Cache :=
  {| conversationThreadMap := <[conv := tid]> (conversationThreadMap c);
     conversationThreadTimestamps := conversationThreadTimestamps c;
     creations := creations c |}.

Definition countCreation (c : Cache) : Cache :=
  {| conversationThreadMap := conversationThreadMap c;
     conversationThreadTimestamps := conversationThreadTimestamps c;
     creations := S (creations c) |}.

(** A call of [ensureThread] between two of its suspension points. *)
Inductive EnsureTask :=
| Starting
| AwaitingCreate (resp : CreateResponse)
| Settled (r : Result string).

(** The remote service answers the n-th creation request with [remote n]. *)
Section EnsureThread.
Variable remote : nat -> CreateResponse.
Variable conversationId : string.

(** Up to the first [await]: the cache check, and on a miss the request. *)
Definition ensureThreadBegin (now : Z) (c : Cache) : EnsureTask * Cache :=
  match truthyId (conversationThreadMap c !! conversationId) with
  | Some threadId => (Settled (Ok threadId), touch conversationId now c)
  | None => (AwaitingCreate (remote (creations c)), countCreation c)
  end.

(** After the answer has arrived. *)
Definition ensureThreadResume (resp : CreateResponse) (now : Z) (c : Cache)
  : Result string * Cache :=
  match resp with
  | CreateFails e => (Raise e, c)
  | CreateHttpError status statusText =>
      (Raise (plainError ("Failed to create thread: " +:+ JS.ofZ status +:+ " " +:+ statusText)), c)
  | CreateBody a b d =>
      match truthyId (orElse (orElse a b) d) with
      | None => (Raise (plainError "LangGraph created thread but returned no id"), c)
      | Some threadId =>
          (Ok threadId, touch conversationId now (bindThread conversationId threadId c))
      end
  end.

(** One scheduling step of a call. *)
Definition ensureStep (now : Z) (t : EnsureTask) (c : Cache) : EnsureTask * Cache :=
  match t with
  | Starting => ensureThreadBegin now c
  | AwaitingCreate resp =>
      let '(r, c') := ensureThreadResume resp now c in (Settled r, c')
  | Settled r => (Settled r, c)
  end.

(** [ensureThread] run without any other call in between. *)
Definition ensureThread (now : Z) (c : Cache) : Result string * Cache :=
  match ensureThreadBegin now c with
  | (Settled r, c') => (r, c')
  | (AwaitingCreate resp, c') => ensureThreadResume resp now c'
  | (Starting, c') => (Raise typeError, c')
  end.

(** Two calls for the same conversation under a schedule: [false] lets the
    first call take its next step, [true] the second. *)
Fixpoint interleave (now : Z) (schedule : list bool) (t1 t2 : EnsureTask) (c : Cache)
  : EnsureTask * EnsureTask * Cache :=
  match schedule with
  | [] => (t1, t2, c)
  | false :: rest =>
      let '(t1', c') := ensureStep now t1 c in interleave now rest t1' t2 c'
  | true :: rest =>
      let '(t2', c') := ensureStep now t2 c in interleave now rest t1 t2' c'
  end.
End EnsureThread.

Definition isStale (now ttlMs ts : Z) : bool := ttlMs <? now - ts.

(** [evictStaleThreads(ttlMs)]: the loop visits every timestamp entry once,
    and deleting the visited entry does not disturb the iteration. *)
Definition keepsThread (ts : gmap string Z) (ttlMs now : Z) (kv : string * string) : bool :=
  match ts !! kv.1 with
  | Some t => negb (isStale now ttlMs t && JS.nonEmpty kv.2)
  | None => true
  end.

Definition evictStaleThreads (ttlMs now : Z) (c : Cache) : Cache :=
  let ts := conversationThreadTimestamps c in
  {| conversationThreadMap :=
       filter (fun kv : string * string => keepsThread ts ttlMs now kv = true)
              (conversationThreadMap c);
     conversationThreadTimestamps :=
       filter (fun kv : string * Z => isStale now ttlMs kv.2 = false) ts;
     creations := creations c |}.

(* ------------------------------------------------------------------ *)
(** *** Stream decoding *)

Definition blankLine : string := String newline (String newline EmptyString).

(** How the decoding loop goes on after an event: it continues, it returns
    (after [DONE]), or the handler threw. *)
Inductive Flow := Continue | Stop | Fail.

Section ParseSSE.
Context {S : Type}.
(** The handler returns the state it leaves and whether it returned
    normally. *)
Variable onEvent : SSEEvent -> S -> S * bool.

Definition dispatch (payload : string) (st : S) : S * Flow :=
  if String.eqb payload "[DONE]" then
    let '(st', ok) := onEvent EvDone st in (st', if ok then Stop else Fail)
  else
    let onText (st0 : S) :=
      let '(st', ok) := onEvent (EvText payload) st0 in
      (st', if ok then Continue else Fail) in
    match Json.parse payload with
    | Some j =>
        let '(st', ok) := onEvent (EvJson j) st in
        if ok then (st', Continue) else onText st'
    | None => onText st
    end.

Definition dataLines (lines : list string) : list string :=
  map (fun line => JS.trim (JS.drop 5 line))
      (filter (fun line => JS.startsWith line "data:" = true) lines).

(** The inner [while] loop over the complete blocks of the buffer. *)
Fixpoint drain (fuel : nat) (buf : string) (st : S) : S * string * Flow :=
  match fuel with
  | O => (st, buf, Continue)
  | Datatypes.S fuel' =>
      match JS.indexOf buf blankLine with
      | None => (st, buf, Continue)
      | Some idx =>
          let block := JS.trim (JS.take idx buf) in
          let buf' := JS.drop (idx + 2) buf in
          if negb (JS.nonEmpty block) then drain fuel' buf' st
          else
            match dataLines (JS.splitLines block) with
            | [] => drain fuel' buf' st
            | ls =>
                match dispatch (JS.join (String newline EmptyString) ls) st with
                | (st', Continue) => drain fuel' buf' st'
                | (st', flow) => (st', buf', flow)
                end
            end
      end
  end.

(** The outer loop over the reads of the body. *)
Fixpoint readLoop (chunks : list string) (buf : string) (st : S) : S * string * Flow :=
  match chunks with
  | [] => (st, buf, Continue)
  | value :: rest =>
      let buf1 := buf +:+ value in
      match drain (String.length buf1) buf1 st with
      | (st', buf', Continue) => readLoop rest buf' st'
      | other => other
      end
  end.

(** The flush of the remaining buffer once the body has ended. *)
Fixpoint flushLines (lines : list string) (st : S) : S * Flow :=
  match lines with
  | [] => (st, Continue)
  | l :: rest =>
      if JS.startsWith l "data:" then
        match dispatch (JS.trim (JS.drop 5 l)) st with
        | (st', Continue) => flushLines rest st'
        | other => other
        end
      else flushLines rest st
  end.

Definition flush (buf : string) (st : S) : S * Flow :=
  if JS.nonEmpty (JS.trim buf) then
    flushLines (filter (fun l => JS.nonEmpty l = true) (map JS.trim (JS.splitLines buf))) st
  else (st, Continue).

(** [parseSSE(reader, onEvent)]; [failure] is the error of a rejected read
    after the chunks, if the body does not end normally. *)
Definition parseSSE (chunks : list string) (failure : option GwError) (st : S)
  : Result S :=
  match readLoop chunks EmptyString st with
  | (st', buf, Continue) =>
      match failure with
      | Some e => Raise e
      | None =>
          match flush buf st' with
          | (st'', Fail) => Raise typeError
          | (st'', _) => Ok st''
          end
      end
  | (st', _, Stop) => Ok st'
  | (st', _, Fail) => Raise typeError
  end.
End ParseSSE.

(* ------------------------------------------------------------------ *)
(** *** [callAgentWithStream] *)

(** The two locals the stream is folded into. *)
Record Fold := {
  foldMessages : list json;
  lastContent : string
}.

Definition contentText (c : json) : string :=
  match c with
  | JStr s => s
  | other => Json.stringify other
  end.

Definition isAssistant (m : json) : bool :=
  isStr (get m "type") "ai" || isStr (get m "role") "assistant".

(** The scan from the newest message to the oldest; [msgs] is the list
    reversed.  [None] is the [TypeError] of reading a property of [null];
    [Some None] is a scan that found nothing. *)
Fixpoint scanNewest (msgs : list json) : option (option string) :=
  match msgs with
  | [] => Some None
  | JNull :: _ => None
  | m :: older =>
      if isAssistant m && truthyO (get m "content")
      then Some (contentText <$> get m "content")
      else scanNewest older
  end.

(** The callback given to [parseSSE]. *)
Definition onEvent (ev : SSEEvent) (f : Fold) : Fold * bool :=
  match ev with
  | EvDone => (f, true)
  | EvJson JNull => (f, false)
  | EvJson data =>
      match get data "messages" with
      | Some (JArr msgs) =>
          let f1 := {| foldMessages := msgs; lastContent := lastContent f |} in
          match scanNewest (rev msgs) with
          | None => (f1, false)
          | Some (Some c) => ({| foldMessages := msgs; lastContent := c |}, true)
          | Some None => (f1, true)
          end
      | _ =>
          if isStr (get data "event") "messages/partial" && truthyO (get data "partial")
          then
            ({| foldMessages := foldMessages f;
                lastContent :=
                  if JS.nonEmpty (lastContent f) then lastContent f
                  else match get data "partial" with
                       | Some p => contentText p
                       | None => EmptyString
                       end |}, true)
          else (f, true)
      end
  | EvText text => ({| foldMessages := foldMessages f; lastContent := text |}, true)
  end.

(** Answer of [POST /threads/{id}/runs/stream]. *)
Inductive RunResponse :=
| RunFails (e : GwError)
| RunHttpError (status : Z) (statusText : string) (text : string)
| RunNoBody
| RunStream (chunks : list string) (failure : option GwError).

(** What the outside world supplies to one pass through the [try] block. *)
Record AttemptEnv := {
  nowEnsure : Z;
  runResponse : RunResponse;
  nowEvict : Z;
  random : Q
}.

Definition assistantMessage (text : string) : json :=
  JObj [("role", JStr "assistant"); ("content", JStr text)].

(** The part of the [try] block that consumes the body: the decoding of the
    stream into the two locals, the second scan, and the result. *)
Definition collect (chunks : list string) (failure : option GwError)
  : Result AgentCallResult :=
  match parseSSE onEvent chunks failure
          {| foldMessages := []; lastContent := EmptyString |} with
  | Raise err => Raise err
  | Ok f =>
      let rescanned :=
        if negb (JS.nonEmpty (lastContent f))
           && negb (Nat.eqb (length (foldMessages f)) 0)
        then match scanNewest (rev (foldMessages f)) with
             | None => None
             | Some (Some c) => Some c
             | Some None => Some (lastContent f)
             end
        else Some (lastContent f) in
      match rescanned with
      | None => Raise typeError
      | Some last =>
          Ok {| messages :=
                  match foldMessages f with
                  | [] => [assistantMessage last]
                  | ms => ms
                  end;
                content := last |}
      end
  end.

(** The body of the [try] block. *)
Definition attemptBody (remote : nat -> CreateResponse) (opts : AgentCallOptions)
    (e : AttemptEnv) (c : Cache) : Result AgentCallResult * Cache :=
  match ensureThread remote (conversationId opts) (nowEnsure e) c with
  | (Raise err, c1) => (Raise err, c1)
  | (Ok threadId, c1) =>
      match runResponse e with
      | RunFails err => (Raise err, c1)
      | RunHttpError status statusText text =>
          (Raise (plainError ("LangGraph agent error: " +:+ JS.ofZ status +:+ " "
                              +:+ statusText +:+ " " +:+ text)), c1)
      | RunNoBody => (Raise (plainError "No response body reader from LangGraph"), c1)
      | RunStream chunks failure =>
          match collect chunks failure with
          | Raise err => (Raise err, c1)
          | Ok r => (Ok r, evictStaleThreads (60 * 60 * 1000) (nowEvict e) c1)
          end
      end
  end.

(** [/timeout|network|ECONNRESET|ENOTFOUND/i.test(message)] *)
Definition includesIgnoreCase (s k : string) : bool :=
  JS.includes (JS.mapChars JS.asciiLower s) (JS.mapChars JS.asciiLower k).

Definition transientPattern (m : string) : bool :=
  includesIgnoreCase m "timeout" || includesIgnoreCase m "network"
  || includesIgnoreCase m "ECONNRESET" || includesIgnoreCase m "ENOTFOUND".

Definition isTransient (err : GwError) : bool :=
  isTypeError err || transientPattern (gwMessage err).

(** [baseDelay * Math.pow(2, attempt - 1) + Math.floor(Math.random() * 100)] *)
Definition backoff (baseDelay : Z) (attempt : nat) (rnd : Q) : Z :=
  baseDelay * 2 ^ (Z.of_nat attempt - 1) + Qfloor (rnd * inject_Z 100).

Definition apology (agent : string) : string :=
  "I apologize, but I'm having trouble connecting to the " +:+ agent
  +:+ " service right now. Please try again in a moment.".

Definition fallback (agent : string) : string :=
  "I apologize, but I'm having trouble connecting to the " +:+ agent
  +:+ " service right now.".

Definition reply (text : string) : AgentCallResult :=
  {| messages := [assistantMessage text]; content := text |}.

(** A finished call: what it returned, the delays it waited, how many times
    it entered the [try] block, and the cache it left. *)
Record Run := {
  returned : AgentCallResult;
  delays : list Z;
  tries : nat;
  cache : Cache
}.

Section CallAgent.
Variable remote : nat -> CreateResponse.
Variable maxRetries : Z.
Variable retryDelay : Z.
Variable env : nat -> AttemptEnv.
Variable opts : AgentCallOptions.

(** The [while (attempt <= max)] loop. *)
Fixpoint retryLoop (fuel attempt : nat) (waited : list Z) (c : Cache) : Run :=
  match fuel with
  | O => {| returned := reply (fallback (agentId opts));
            delays := waited; tries := attempt; cache := c |}
  | S fuel' =>
      if maxRetries <? Z.of_nat attempt
      then {| returned := reply (fallback (agentId opts));
              delays := waited; tries := attempt; cache := c |}
      else
        match attemptBody remote opts (env attempt) c with
        | (Ok r, c') =>
            {| returned := r; delays := waited; tries := S attempt; cache := c' |}
        | (Raise err, c') =>
            let attempt' := S attempt in
            if negb (isTransient err) || (maxRetries <? Z.of_nat attempt')
            then {| returned := reply (apology (agentId opts));
                    delays := waited; tries := attempt'; cache := c' |}
            else retryLoop fuel' attempt'
                   (waited ++ [backoff retryDelay attempt' (random (env attempt))]) c'
        end
  end.

Definition callAgentWithStream (c : Cache) : Run :=
  retryLoop (Z.to_nat (maxRetries + 1)) 0 [] c.
End CallAgent.

(** A result that is nothing but one assistant message apologising and
    naming the agent. *)
Definition isApology (agent : string) (r : AgentCallResult) : Prop :=
  exists text,
    messages r = [assistantMessage text] /\ content r = text
    /\ JS.startsWith text "I apologize" = true
    /\ JS.includes text agent = true.

(** A result that one pass through the [try] block produced. *)
Definition fromAttempt (remote : nat -> CreateResponse) (env : nat -> AttemptEnv)
    (opts : AgentCallOptions) (r : AgentCallResult) : Prop :=
  exists k c0 c1, attemptBody remote opts (env k) c0 = (Ok r, c1).


(** The raw body of the stream-decoding example. *)
Definition exampleBody : string :=
  Json.lit "data: {'messages':[{'role':'assistant','content':'hi'}]}~~data: [DONE]~~".

Definition exampleMessage : json :=
  JObj [("role", JStr "assistant"); ("content", JStr "hi")].

Definition hiResult : AgentCallResult :=
  {| messages := [exampleMessage]; content := "hi" |}.

End Gateway.

(* ===================================================================== *)
(** ** Stream reclassifier (app/api/chat-stream/route.ts) *)
(* ===================================================================== *)

Module Reclassifier.

(** A chunk of the agent stream: binary (given by its decoded text), or a
    value; a text chunk is the value [JStr]. *)
Inductive Chunk :=
| ChunkBytes (decoded : string)
| ChunkValue (v : json).

Fixpoint skipSpaces (s : string) : string :=
  match s with
  | EmptyString => EmptyString
  | String c r => if JS.isWhiteSpace c then skipSpaces r else s
  end.

(** [s] begins with [p], letters compared without case. *)
Fixpoint startsWithIgnoreCase (s p : string) {struct p} : option string :=
  match p with
  | EmptyString => Some s
  | String a p' =>
      match s with
      | EmptyString => None
      | String b s' =>
          if Ascii.eqb (JS.asciiLower a) (JS.asciiLower b)
          then startsWithIgnoreCase s' p' else None
      end
  end.

Fixpoint startsWithRest (s p : string) {struct p} : option string :=
  match p with
  | EmptyString => Some s
  | String a p' =>
      match s with
      | EmptyString => None
      | String b s' => if Ascii.eqb a b then startsWithRest s' p' else None
      end
  end.

Definition expectChar (c : ascii) (s : string) : option string :=
  match s with
  | String b r => if Ascii.eqb b c then Some r else None
  | EmptyString => None
  end.

(** The longest prefix made of characters satisfying [f], and the rest. *)
Fixpoint span (f : ascii -> bool) (s : string) : string * string :=
  match s with
  | EmptyString => (EmptyString, EmptyString)
  | String c r =>
      if f c then let '(a, b) := span f r in (String c a, b) else (EmptyString, s)
  end.

Definition quoted (w : string) : string :=
  String dquote w +:+ String dquote EmptyString.

(** The pattern of [isPlanLike] matched at the start of [s]: the quoted word
    action in any case, a colon with optional white space around it, and a
    quoted non-empty run of letters and underscores. *)
Definition actionHere (s : string) : bool :=
  match
    r1 ← startsWithIgnoreCase s (quoted "action");
    r2 ← expectChar ":" (skipSpaces r1);
    r3 ← expectChar dquote (skipSpaces r2);
    let '(word, r4) := span (fun c => JS.isAsciiLetter c || Ascii.eqb c "_") r3 in
    if JS.nonEmpty word then expectChar dquote r4 else None
  with
  | Some _ => true
  | None => false
  end.

Fixpoint actionPattern (s : string) : bool :=
  actionHere s ||
  match s with
  | EmptyString => false
  | String _ r => actionPattern r
  end.

(** [isPlanLike(value)] *)
Definition isPlanLike (value : json) : bool :=
  match value with
  | JNull => false
  | JStr str =>
      let s := JS.trim str in
      JS.startsWith s "{" && actionPattern s
  | JObj _ | JArr _ =>
      (isString (get value "action")
       && match get value "confidence" with Some _ => true | None => false end)
      || truthyO (get value "planningRecommendation")
      || truthyO (get value "planner")
      || truthyO (get value "targetAgent")
      || truthyO (get value "recommendedAgent")
  | _ => false
  end.

(** [a || b] on values that may be [undefined]. *)
Definition orValue (a b : option json) : option json :=
  if truthyO a then a else b.

Definition presentOrNull (v : option json) : option json :=
  Some (if truthyO v then JStr "present" else JNull).

Definition metadata (kind : string) (data : option json) (now : Z) : json :=
  object [("type", Some (JStr kind)); ("data", data);
          ("timestamp", Some (JNum (JS.ofZ now)))].

(** The last element of a non-empty array; reading a property of a [null]
    element throws. *)
Inductive LastMessage :=
| NoMessages
| NullMessage
| LastMsg (m : json).

Definition lastMessage (chunk : json) : LastMessage :=
  match get chunk "messages" with
  | Some (JArr ms) =>
      match last ms with
      | None => NoMessages
      | Some JNull => NullMessage
      | Some m => LastMsg m
      end
  | _ => NoMessages
  end.

Definition routable (chunk : json) : bool :=
  truthyO (get chunk "next") && negb (isStr (get chunk "next") "__end__").

(** [extractMetadata(chunk, prevContext)]: the metadata, if any, and the
    context to carry on. *)
Definition extractMetadata (now : Z) (chunk : Chunk) (prevContext : option json)
  : option json * option json :=
  match chunk with
  | ChunkValue ((JObj _ | JArr _) as c) =>
      if truthyO (orValue (get c "plannerRecommendation") (get c "planningRecommendation"))
      then
        (Some (metadata "planner_recommendation"
                 (orValue (get c "plannerRecommendation") (get c "planningRecommendation"))
                 now),
         prevContext)
      else
        let routing : option (option json) :=
          (* [None]: the check threw; [Some None]: it did not apply *)
          if routable c then
            match lastMessage c with
            | NoMessages => Some None
            | NullMessage => None
            | LastMsg lastMsg =>
                let fromAgent := get lastMsg "agent" in
                if truthyO fromAgent && negb (isStr fromAgent "supervisor")
                   && negb (isStr fromAgent "user") && negb (isStr fromAgent "planner")
                then
                  Some (Some (metadata "agent_routing_decision"
                    (Some (object
                       [("fromAgent", fromAgent);
                        ("toAgent", get c "next");
                        ("workflowContext", get c "workflowContext");
                        ("dealData",
                          Some (if truthyO (get c "dealData")
                                then object
                                       [("applied", optGet (get c "dealData") "applied");
                                        ("pending", optGet (get c "dealData") "pending");
                                        ("type", optGet (get c "dealData") "type")]
                                else JNull));
                        ("pendingProduct",
                          Some (if truthyO (get c "pendingProduct")
                                then object
                                       [("product", optGet (get c "pendingProduct") "product");
                                        ("quantity", optGet (get c "pendingProduct") "quantity")]
                                else JNull));
                        ("cartData", presentOrNull (get c "cartData"))]))
                    now))
                else Some None
            end
          else Some None in
        match routing with
        | None => (None, prevContext)
        | Some (Some m) => (Some m, prevContext)
        | Some None =>
            if routable c
               && (truthyO (get c "supervisor") || isStr (get c "agent") "supervisor")
            then
              (Some (metadata "supervisor_decision"
                 (Some (object
                    [("targetAgent", get c "next");
                     ("workflowContext", get c "workflowContext");
                     ("dealData", presentOrNull (get c "dealData"));
                     ("pendingProduct", presentOrNull (get c "pendingProduct"));
                     ("cartData", presentOrNull (get c "cartData"))]))
                 now),
               prevContext)
            else
              let transition : option (option json) :=
                match lastMessage c with
                | NoMessages => Some None
                | NullMessage => None
                | LastMsg lastMsg =>
                    if truthyO (get lastMsg "agent") && negb (isStr (get lastMsg "agent") "user")
                    then
                      Some (Some (metadata "agent_transition"
                        (Some (object
                           [("agent", get lastMsg "agent");
                            ("role", get lastMsg "role");
                            ("timestamp", get lastMsg "timestamp")]))
                        now))
                    else Some None
                end in
              match transition with
              | None => (None, prevContext)
              | Some (Some m) => (Some m, prevContext)
              | Some None =>
                  if truthyO (get c "workflowContext")
                     && negb (strictEq (get c "workflowContext") prevContext)
                  then
                    (Some (metadata "workflow_context"
                       (Some (object
                          [("context", get c "workflowContext");
                           ("dealData", presentOrNull (get c "dealData"));
                           ("pendingProduct", presentOrNull (get c "pendingProduct"))]))
                       now),
                     get c "workflowContext")
                  else (None, prevContext)
              end
        end
  | _ => (None, prevContext)
  end.

(** The fallback pattern of [extractReadableTexts] matched at the start of
    [s]: the quoted word content, a colon with optional white space around
    it, and a quoted run of 1 to 2000 characters other than the quote, which
    is the captured group. *)
Definition contentHere (s : string) : option string :=
  r1 ← startsWithRest s (quoted "content");
  r2 ← expectChar ":" (skipSpaces r1);
  r3 ← expectChar dquote (skipSpaces r2);
  let '(body, r4) := span (fun c => negb (Ascii.eqb c dquote)) r3 in
  if JS.nonEmpty body && (String.length body <=? 2000)%nat
  then (_ ← expectChar dquote r4; Some body)
  else None.

Fixpoint contentMatch (s : string) : option string :=
  match contentHere s with
  | Some body => Some body
  | None =>
      match s with
      | EmptyString => None
      | String _ r => contentMatch r
      end
  end.

Definition textIfNotPlan (s : string) : list string :=
  if isPlanLike (JStr s) then [] else [s].

Definition stringIfNotPlan (v : option json) : list string :=
  match v with
  | Some (JStr s) => textIfNotPlan s
  | _ => []
  end.

Definition agentKeys : list string :=
  ["planner"; "supervisor"; "catalog"; "deals"; "cart_and_checkout"; "notification_agent"].

(** [extractReadableTexts(obj)]; [fuel] bounds the nesting that is followed. *)
Fixpoint extractReadableTextsFrom (fuel : nat) (obj : json) : list string :=
  match fuel with
  | O => []
  | S fuel' =>
      match obj with
      | JNull => []
      | JStr s => textIfNotPlan s
      | _ =>
          let out1 :=
            if truthyO (get obj "message") && truthyO (optGet (get obj "message") "kwargs")
            then stringIfNotPlan (optGet (optGet (get obj "message") "kwargs") "content")
            else [] in
          let out2 := stringIfNotPlan (get obj "content") in
          let out3 :=
            if truthyO (get obj "message")
            then stringIfNotPlan (optGet (get obj "message") "content")
            else [] in
          let out4 :=
            flat_map (fun k =>
                        match get obj k with
                        | Some v => if truthy v then extractReadableTextsFrom fuel' v else []
                        | None => []
                        end) agentKeys in
          let out5 :=
            match get obj "messages" with
            | Some (JArr ms) =>
                flat_map (fun m =>
                            if truthy m && truthyO (get m "message") then
                              match get m "message" with
                              | Some mm => extractReadableTextsFrom fuel' mm
                              | None => []
                              end
                            else if truthy m && isString (get m "content") then
                              stringIfNotPlan (get m "content")
                            else match m with
                                 | JStr s => if truthy m then textIfNotPlan s else []
                                 | _ => []
                                 end) ms
            | _ => []
            end in
          let out := (out1 ++ out2 ++ out3 ++ out4 ++ out5)%list in
          let out :=
            match out with
            | [] =>
                match contentMatch (Json.stringify obj) with
                | Some m => textIfNotPlan m
                | None => []
                end
            | _ => out
            end in
          match out with
          | [] => if isPlanLike obj then [] else [Json.stringify obj]
          | _ => out
          end
      end
  end.

Definition extractReadableTexts (obj : json) : list string :=
  extractReadableTextsFrom (S (depth obj)) obj.

Definition keywords : list string :=
  ["thinking"; "evaluating"; "evaluating next"; "agent task"; "task completed";
   "completed"; "processing"; "thinking..."; "done"; "evaluating next steps";
   "searching"; "checking"; "adding"; "updating"; "preparing"; "found"].

(** [\p{Emoji}] on code units below 256: [#], [*], the digits, the copyright
    and the registered signs. *)
Definition isEmoji (c : ascii) : bool :=
  let n := N_of_ascii c in
  ((n =? 35) || (n =? 42) || ((48 <=? n) && (n <=? 57)) || (n =? 169) || (n =? 174))%N.

(** [isStatusLike(text)] on a string. *)
Definition isStatusLike (text : string) : bool :=
  let t := JS.trim text in
  if negb (JS.nonEmpty text) then false
  else if (String.length t =? 0)%nat then false
  else if (200 <? String.length t)%nat then false
  else
    let lower := JS.toLowerCase t in
    if existsb (fun k => JS.includes lower k) keywords then true
    else if JS.existsChar isEmoji t && (length (JS.splitSpaces t) <=? 6)%nat then true
    else false.

(** [isEphemeralChunk(obj)] *)
Definition isEphemeralChunk (obj : json) : bool :=
  truthyO (optGet (optGet (Some obj) "progress") "ephemeral").

Definition event (type : string) (payload : json) : json :=
  JObj [("type", JStr type); ("payload", payload)].

(** The status or message event for one extracted text of [source]. *)
Definition classify (source : json) (t : string) : json :=
  if isStatusLike t || isEphemeralChunk source then
    let autoRemove := optGet (optGet (Some source) "progress") "autoRemoveMs" in
    let agent := orValue (get source "agent") (optGet (optGet (Some source) "progress") "agent") in
    event "status"
      (object [("text", Some (JStr t));
               ("ephemeral", Some (JBool true));
               ("autoRemoveMs", if truthyO autoRemove then autoRemove else None);
               ("agent", if truthyO agent then agent else None)])
  else event "message" (JObj [("content", JStr t)]).

(** The events of one line of a textual chunk. *)
Definition processLine (l : string) : list json :=
  let rawDefault :=
    if isPlanLike (JStr l) then []
    else if isStatusLike l
         then [event "status" (JObj [("text", JStr l); ("ephemeral", JBool true)])]
         else [event "raw" (JStr l)] in
  match Json.parse l with
  | Some parsed =>
      if truthy parsed && isString (get parsed "type") then [parsed]
      else if isPlanLike parsed then [event "meta" parsed]
      else map (classify parsed) (extractReadableTexts parsed)
  | None =>
      match JS.indexOf l "{", JS.indexOf l "}", JS.lastIndexOfChar l "}" with
      | Some first, Some _, Some last =>
          if (first <? last)%nat then
            match Json.parse (JS.take (last + 1 - first) (JS.drop first l)) with
            | Some subParsed =>
                if isPlanLike subParsed then [event "meta" subParsed]
                else map (fun t => event "message" (JObj [("content", JStr t)]))
                         (extractReadableTexts subParsed)
            | None => rawDefault
            end
          else rawDefault
      | _, _, _ => rawDefault
      end
  end.

Definition processText (text : string) : list json :=
  flat_map processLine (filter (fun l => JS.nonEmpty l = true) (JS.splitCrLf text)).

(** The metadata event of a chunk, if any, and the context carried on. *)
Definition emitMetadata (now : Z) (chunk : Chunk) (prev : option json)
  : list json * option json :=
  let '(meta, newContext) := extractMetadata now chunk prev in
  (match meta with
   | Some m => [event "metadata" m]
   | None => []
   end, newContext).

(** The body of the [for await] loop for one chunk. *)
Definition processChunk (now : Z) (chunk : Chunk) (prev : option json)
  : list json * option json :=
  let '(metaEvents, newContext) := emitMetadata now chunk prev in
  let rest :=
    match chunk with
    | ChunkBytes text => processText text
    | ChunkValue (JStr text) => processText text
    | ChunkValue ((JNull | JArr _ | JObj _) as c) =>
        map (classify c) (extractReadableTexts c)
    | ChunkValue other =>
        let text := Json.stringify other in
        if isStatusLike text
        then [event "status" (JObj [("text", JStr text); ("ephemeral", JBool true)])]
        else [event "message" (JObj [("content", JStr text)])]
    end in
  ((metaEvents ++ rest)%list, newContext).

(** The whole response stream over the chunks, each with the clock reading
    at the time it is handled. *)
Fixpoint responseStream (chunks : list (Z * Chunk)) (prev : option json) : list json :=
  match chunks with
  | [] => []
  | (now, chunk) :: rest =>
      let '(events, next) := processChunk now chunk prev in
      (events ++ responseStream rest next)%list
  end.

Definition eventType (e : json) : option json := get e "type".

Definition isEventOf (type : string) (e : json) : bool := isStr (eventType e) type.

(** The five shapes of a chunk that carry metadata, each as a condition on
    the chunk alone (and, for the last, on the context seen before); they
    state the priority rule separately from [extractMetadata], to compare
    the two. *)
Definition isPlannerRecommendation (c : json) : bool :=
  truthyO (get c "plannerRecommendation") || truthyO (get c "planningRecommendation").

Definition isAgentRoutingDecision (c : json) : bool :=
  routable c &&
  match lastMessage c with
  | LastMsg m =>
      truthyO (get m "agent") && negb (isStr (get m "agent") "supervisor")
      && negb (isStr (get m "agent") "user") && negb (isStr (get m "agent") "planner")
  | _ => false
  end.

Definition isSupervisorDecision (c : json) : bool :=
  routable c && (truthyO (get c "supervisor") || isStr (get c "agent") "supervisor").

Definition isAgentTransition (c : json) : bool :=
  match lastMessage c with
  | LastMsg m => truthyO (get m "agent") && negb (isStr (get m "agent") "user")
  | _ => false
  end.

Definition isWorkflowContextChange (c : json) (prev : option json) : bool :=
  truthyO (get c "workflowContext") && negb (strictEq (get c "workflowContext") prev).

(** The fixed priority among the shapes. *)
Definition priority (c : json) (prev : option json) : list (string * bool) :=
  [("planner_recommendation", isPlannerRecommendation c);
   ("agent_routing_decision", isAgentRoutingDecision c);
   ("supervisor_decision", isSupervisorDecision c);
   ("agent_transition", isAgentTransition c);
   ("workflow_context", isWorkflowContextChange c prev)].

(** The first shape in priority order that the chunk has. *)
Definition firstMatch (chunk : Chunk) (prev : option json) : option string :=
  match chunk with
  | ChunkValue ((JObj _ | JArr _) as c) =>
      fst <$> List.find (fun kb => snd kb) (priority c prev)
  | _ => None
  end.

(** Reading [lastMsg.agent] throws when the last message is [null]. *)
Definition lastMessageIsNull (chunk : Chunk) : bool :=
  match chunk with
  | ChunkValue c =>
      match lastMessage c with NullMessage => true | _ => false end
  | _ => false
  end.

(** The plan-like chunk of the example, as a text line and as an object. *)
Definition planLine : string := Json.lit "{'action':'delegate','confidence':0.9}".

Definition planObject : json :=
  JObj [("action", JStr "delegate"); ("confidence", JNum "0.9")].

End Reclassifier.

(* ===================================================================== *)
(** ** Concrete inputs used by the examples below *)
(* ===================================================================== *)

Module Samples.
Import Ciba Coordinator.

Definition completeEnv : Env :=
  {| AUTH0_ISSUER_BASE_URL := Some "https://tenant.example";
     AUTH0_CLIENT_ID := Some "client";
     AUTH0_CLIENT_SECRET := Some "secret";
     SHOP_API_AUDIENCE := None |}.

(** An identity provider where the user refuses on the first poll. *)
Definition denyingProvider : Provider :=
  {| env := completeEnv;
     initResponse := InitHttpOk "req-1" None None;
     tokenResponses := fun _ => PollError (Some "access_denied") None |}.

Definition sampleTokens : CIBATokenResponse :=
  {| access_token := Some "at"; id_token := None; token_type := Some "Bearer";
     token_expires_in := Some 3600; token_scope := None |}.

(** An identity provider where the user approves on the first poll. *)
Definition approvingProvider : Provider :=
  {| env := completeEnv;
     initResponse := InitHttpOk "req-1" None None;
     tokenResponses := fun _ => PollOk sampleTokens |}.

Definition purchase : json :=
  JObj [("product", JStr "milk"); ("qty", JNum "2"); ("userId", JStr "user-1")].

Definition idleState : AuthorizationState := {| status := idle; message := None |}.

Definition idleWorld : World :=
  {| authorizationState := idleState;
     authorizationStatusMessages := [];
     isToolExecutionInProgress := false;
     cibaAuthorizationState := idleState;
     history := [];
     invocations := [] |}.

(** The state the binding-message callback leaves. *)
Definition requestedWorld : World :=
  {| authorizationState :=
       {| status := requested; message := Some "Do you want to buy 2 milk" |};
     authorizationStatusMessages := [];
     isToolExecutionInProgress := false;
     cibaAuthorizationState := idleState;
     history := [requested];
     invocations := [] |}.

(** A cache holding one binding last touched at time 0. *)
Definition staleCache : Gateway.Cache :=
  {| Gateway.conversationThreadMap := {["conv-1" := "thread-1"]};
     Gateway.conversationThreadTimestamps := {["conv-1" := 0]};
     Gateway.creations := 1 |}.

Definition emptyCache : Gateway.Cache :=
  {| Gateway.conversationThreadMap := ∅;
     Gateway.conversationThreadTimestamps := ∅;
     Gateway.creations := 0 |}.

(** A remote service that names its threads in the order it creates them. *)
Definition twoThreads (n : nat) : Gateway.CreateResponse :=
  Gateway.CreateBody (Some (if (n =? 0)%nat then "thread-A" else "thread-B")) None None.

Definition secondThread (n : nat) : Gateway.CreateResponse :=
  Gateway.CreateBody (Some "thread-2") None None.

Definition oneHour : Z := 60 * 60 * 1000.

(** Two hours and a millisecond after time 0. *)
Definition muchLater : Z := 2 * oneHour + 1.

Definition catalogCall : Gateway.AgentCallOptions :=
  {| Gateway.agentId := "catalog"; Gateway.userMessage := "show apples";
     Gateway.userId := "user-1"; Gateway.conversationId := "conv-1" |}.

(** A remote service that answers the run with the example body. *)
Definition answeringEnv (n : nat) : Gateway.AttemptEnv :=
  {| Gateway.nowEnsure := muchLater;
     Gateway.runResponse := Gateway.RunStream [Gateway.exampleBody] None;
     Gateway.nowEvict := muchLater + 1;
     Gateway.random := 0 |}.

(** A remote service that cannot be reached. *)
Definition unreachable (n : nat) : Gateway.CreateResponse :=
  Gateway.CreateFails Gateway.typeError.

Definition unreachableEnv (n : nat) : Gateway.AttemptEnv :=
  {| Gateway.nowEnsure := 0;
     Gateway.runResponse := Gateway.RunFails Gateway.typeError;
     Gateway.nowEvict := 0;
     Gateway.random := 1 # 2 |}.



(** A chunk in which a specialised agent routes to the next one. *)
Definition routingChunk : Reclassifier.Chunk :=
  Reclassifier.ChunkValue
    (JObj [("messages",
            JArr [JObj [("agent", JStr "catalog"); ("content", JStr "Here are apples")]]);
           ("next", JStr "deals");
           ("supervisor", JBool true);
           ("workflowContext", JStr "shopping")]).

End Samples.

(* ===================================================================== *)
(** ** Client authentication of the agent endpoints
       (lib/mcp/auth.ts, lib/mcp/dual-token-auth.ts, api/mcp/agents/cart) *)
(* ===================================================================== *)

Module McpAuth.

(** The request headers and cookie the verification reads; [None] is an
    absent header. *)
Record Request := {
  x_mcp_api_key : option string;
  x_client_token : option string;
  x_user_token : option string;
  authorization : option string;
  sessionCookie : option string
}.

Record MCPAuthContext := {
  clientId : option string;
  userId : option string;
  userToken : option string;
  apiKey : option string
}.

(** Truthiness of a header value. *)
Definition given (h : option string) : bool :=
  match h with
  | Some s => JS.nonEmpty s
  | None => false
  end.

(** [extractUserIdFromRequest(req)]: every branch of the placeholder returns
    [null]. *)
Definition extractUserIdFromRequest (req : Request) : option string :=
  if match authorization req with
     | Some a => JS.startsWith a "Bearer "
     | None => false
     end
  then None
  else if given (sessionCookie req) then None
  else None.

(** [a || 'lit'] *)
Definition orLiteral (a : option string) (d : string) : string :=
  match a with
  | Some s => if JS.nonEmpty s then s else d
  | None => d
  end.

(** [verifyMCPAuth(req)] *)
Definition verifyMCPAuth (req : Request) : MCPAuthContext :=
  if given (x_mcp_api_key req)
     && (0 <? String.length (orLiteral (x_mcp_api_key req) EmptyString))%nat
  then {| clientId := Some "api-key-client"; userId := Some "default-user";
          userToken := None; apiKey := x_mcp_api_key req |}
  else if given (x_client_token req) then
    if given (x_user_token req)
    then {| clientId := Some "oauth-client"; userId := Some "oauth-user";
            userToken := x_user_token req; apiKey := None |}
    else {| clientId := Some "oauth-client"; userId := None;
            userToken := None; apiKey := None |}
  else {| clientId := Some "mcp-server";
          userId := Some (orLiteral (extractUserIdFromRequest req) "default-user");
          userToken := None; apiKey := None |}.

Definition userContextRequired : string :=
  "User context required. Provide X-User-Token header for authenticated operations.".

(** [requireUserContext(authContext)]; [Some m] is the thrown
    [MCPAuthError] with message [m]. *)
Definition requireUserContext (ctx : MCPAuthContext) : option string :=
  if negb (given (userId ctx)) || negb (given (userToken ctx))
  then Some userContextRequired
  else None.

(** The guard of the cart endpoint: for the action [checkout] the user
    context is required.  [Some m] is the 401 answer with message [m]. *)
Definition cartGuard (req : Request) (body : json) : option string :=
  if isStr (get body "action") "checkout"
  then requireUserContext (verifyMCPAuth req)
  else None.

End McpAuth.

(* ===================================================================== *)
(** ** Client-credentials token cache (lib/mcp/oauth2-client.ts) *)
(* ===================================================================== *)

Module OAuth2.

(** A number that may be [NaN]: [None]. *)
Record CachedToken := {
  access_token : string;
  expires_at : option Z
}.

(** Answer of the token endpoint: the request or the decoding rejects; or
    the status is not a success; or a body arrives, whose [expires_in] may be
    missing. *)
Inductive TokenAnswer :=
| TokenNetworkError (message : string)
| TokenHttpError (status : Z) (statusText errorText : string)
| TokenBody (access_token : option string) (expires_in : option Z).

Record Config := {
  clientId : string;
  clientSecret : string;
  tokenEndpoint : string
}.

Definition newline1 : string := String newline EmptyString.

(** [fetchAccessToken()] *)
Definition fetchAccessToken (cfg : Config) (answer : TokenAnswer)
  : Ciba.Outcome (string * option Z) :=
  match answer with
  | TokenNetworkError m => Ciba.Thrown m
  | TokenHttpError status statusText errorText =>
      Ciba.Thrown
        ("OAuth2 token request failed: " +:+ JS.ofZ status +:+ " " +:+ statusText
         +:+ newline1 +:+ "Error details: " +:+ errorText
         +:+ newline1 +:+ "Endpoint: " +:+ tokenEndpoint cfg
         +:+ newline1 +:+ "Client ID: " +:+ clientId cfg)
  | TokenBody tok e =>
      match tok with
      | Some t =>
          if JS.nonEmpty t then Ciba.Returned (t, e)
          else Ciba.Thrown "Invalid token response: missing access_token"
      | None => Ciba.Thrown "Invalid token response: missing access_token"
      end
  end.

(** The client: its cached token, and a ghost count of token requests. *)
Record Client := {
  cachedToken : option CachedToken;
  requests : nat
}.

(** [Date.now() < expires_at] *)
Definition stillValid (now : Z) (t : CachedToken) : bool :=
  match expires_at t with
  | Some e => now <? e
  | None => false
  end.

(** [getAccessToken()]; [now] is the clock at the cache check, [now'] the
    clock when a fetched token is stored. *)
Definition getAccessToken (cfg : Config) (now : Z) (answer : TokenAnswer) (now' : Z)
    (c : Client) : Ciba.Outcome string * Client :=
  match cachedToken c with
  | Some t =>
      if stillValid now t then (Ciba.Returned (access_token t), c)
      else
        match fetchAccessToken cfg answer with
        | Ciba.Thrown m =>
            (Ciba.Thrown m, {| cachedToken := cachedToken c; requests := S (requests c) |})
        | Ciba.Returned (tok, e) =>
            (Ciba.Returned tok,
             {| cachedToken :=
                  Some {| access_token := tok;
                          expires_at := (fun x => now' + (x - 30) * 1000) <$> e |};
                requests := S (requests c) |})
        end
  | None =>
      match fetchAccessToken cfg answer with
      | Ciba.Thrown m =>
          (Ciba.Thrown m, {| cachedToken := cachedToken c; requests := S (requests c) |})
      | Ciba.Returned (tok, e) =>
          (Ciba.Returned tok,
           {| cachedToken :=
                Some {| access_token := tok;
                        expires_at := (fun x => now' + (x - 30) * 1000) <$> e |};
              requests := S (requests c) |})
      end
  end.

(** [getAuthorizationHeader()] *)
Definition getAuthorizationHeader (cfg : Config) (now : Z) (answer : TokenAnswer)
    (now' : Z) (c : Client) : Ciba.Outcome string * Client :=
  match getAccessToken cfg now answer now' c with
  | (Ciba.Returned tok, c') => (Ciba.Returned ("Bearer " +:+ tok), c')
  | (Ciba.Thrown m, c') => (Ciba.Thrown m, c')
  end.

(** [clearCache()] *)
Definition clearCache (c : Client) : Client :=
  {| cachedToken := None; requests := requests c |}.

End OAuth2.

(* ===================================================================== *)
(** ** Conversation identifiers (lib/conversation-id.ts) *)
(* ===================================================================== *)

Module ConversationId.

Definition digit36 (d : N) : ascii :=
  if (d <? 10)%N then ascii_of_N (48 + d) else ascii_of_N (87 + d).

(** The digits of [n] in base 36, most significant first; [fuel] bounds
    their number. *)
Fixpoint toBase36 (fuel : nat) (n : N) : string :=
  match fuel with
  | O => EmptyString
  | S f =>
      (if (n / 36 =? 0)%N then EmptyString else toBase36 f (n / 36)%N)
      +:+ String (digit36 (n mod 36)%N) EmptyString
  end.

(** [n.toString(36)] for an integer [0 <= n < 2^53], which has at most
    eleven digits. *)
Definition toString36 (n : N) : string := toBase36 11 n.

(** The class [a-z0-9] of both patterns. *)
Definition isLowerAlnum (c : ascii) : bool :=
  let n := N_of_ascii c in
  (((97 <=? n) && (n <=? 122)) || ((48 <=? n) && (n <=? 57)))%N.

(** The value of a base-36 digit, in either case. *)
Definition digitValue (c : ascii) : option N :=
  let n := N_of_ascii c in
  if ((48 <=? n) && (n <=? 57))%N then Some (n - 48)%N
  else if ((97 <=? n) && (n <=? 122))%N then Some (n - 87)%N
  else if ((65 <=? n) && (n <=? 90))%N then Some (n - 55)%N
  else None.

(** The digits [parseInt(s, 36)] reads: it stops at the first character
    that is not a digit. *)
Fixpoint parseDigits (s : string) (acc : N) : N :=
  match s with
  | EmptyString => acc
  | String c r =>
      match digitValue c with
      | Some d => parseDigits r (acc * 36 + d)%N
      | None => acc
      end
  end.

(** [parseInt(s, 36)] on a string that begins with a digit; [None] is
    [NaN]. *)
Definition parseInt36 (s : string) : option N :=
  match s with
  | String c _ =>
      match digitValue c with
      | Some _ => Some (parseDigits s 0)
      | None => None
      end
  | EmptyString => None
  end.

(** [generateConversationId()]; [now] is [Date.now()] and [random] is the
    result of [nanoid(8)], whose module is not part of the sources. *)
Definition generateConversationId (now : N) (random : string) : string :=
  "conv_" +:+ toString36 now +:+ "_" +:+ random.

Fixpoint startsWithRest (s p : string) {struct p} : option string :=
  match p with
  | EmptyString => Some s
  | String a p' =>
      match s with
      | EmptyString => None
      | String b s' => if Ascii.eqb a b then startsWithRest s' p' else None
      end
  end.

Fixpoint span (f : ascii -> bool) (s : string) : string * string :=
  match s with
  | EmptyString => (EmptyString, EmptyString)
  | String c r =>
      if f c then let '(a, b) := span f r in (String c a, b) else (EmptyString, s)
  end.

(** The common prefix of both patterns: [conv_], then a non-empty run of
    [a-z0-9], then the underscore; the run and what follows. *)
Definition splitId (id : string) : option (string * string) :=
  match startsWithRest id "conv_" with
  | Some r =>
      let '(stamp, r') := span isLowerAlnum r in
      match stamp, r' with
      | String _ _, String c tail =>
          if Ascii.eqb c "_" then Some (stamp, tail) else None
      | _, _ => None
      end
  | None => None
  end.

(** [isValidConversationId(id)] *)
Definition isValidConversationId (id : string) : bool :=
  match splitId id with
  | Some (_, tail) =>
      (String.length tail =? 8)%nat
      && negb (JS.existsChar (fun c => negb (isLowerAlnum c)) tail)
  | None => false
  end.

(** [getConversationTimestamp(conversationId)]: the time value of the date
    returned, [None] for [null]. *)
Definition getConversationTimestamp (conversationId : string) : option N :=
  match splitId conversationId with
  | Some (stamp, _) => parseInt36 stamp
  | None => None
  end.

End ConversationId.

(* ===================================================================== *)
(** ** More concrete inputs *)
(* ===================================================================== *)

Module MoreSamples.

Definition pending : Ciba.PollResponse :=
  Ciba.PollError (Some "authorization_pending") None.

(** Pending twice, then tokens. *)
Definition approvesThird (n : nat) : Ciba.PollResponse :=
  if (n <? 3)%nat then pending else Ciba.PollOk Samples.sampleTokens.

(** Pending once, then a refusal. *)
Definition deniesSecond (n : nat) : Ciba.PollResponse :=
  if (n <? 2)%nat then pending else Ciba.PollError (Some "access_denied") None.

Definition alwaysPending (n : nat) : Ciba.PollResponse := pending.

Definition alwaysOffline (n : nat) : Ciba.PollResponse :=
  Ciba.PollNetworkError "fetch failed".

(** Pending once, then an error the provider does not explain. *)
Definition slowDown (n : nat) : Ciba.PollResponse :=
  if (n <? 2)%nat then pending
  else Ciba.PollError (Some "slow_down") (Some "polling too fast").

End MoreSamples.

(* ===================================================================== *)
(** ** Supervisor agent (lib/agents/supervisor.ts) *)
(* ===================================================================== *)

Module Supervisor.

(** The module-level thread cache, and a ghost count of the threads created
    so far. *)
Record ThreadCache := {
  threadCache : gmap string string;
  created : nat
}.

(** [clearConversationThread(conversationId?)] *)
Definition clearConversationThread (conversationId : option string) (c : ThreadCache)
  : ThreadCache :=
  match conversationId with
  | Some conv =>
      if JS.nonEmpty conv
      then {| threadCache := delete conv (threadCache c); created := created c |}
      else {| threadCache := ∅; created := created c |}
  | None => {| threadCache := ∅; created := created c |}
  end.

(** A thrown value: an [Error] with its message and stack, or anything
    else. *)
Inductive Thrown :=
| ThrownError (message : string) (stack : option string)
| ThrownOther.

(** Answer of [threads.create]: it rejects, or a thread with its id. *)
Inductive CreateThread :=
| CreateThrows (e : Thrown)
| Created (thread_id : string).

(** A part of the stream [runs.stream] produces. *)
Record StreamPart := {
  event : string;
  data : option json
}.

(** [convId || conversationId || fresh], where [fresh] is the identifier
    made from the clock and the random source. *)
Definition finalConversationId (convId conversationId : option string) (fresh : string)
  : string :=
  match Gateway.orElse convId conversationId with
  | Some s => if JS.nonEmpty s then s else fresh
  | None => fresh
  end.

(** [xs.slice(-n)] *)
Definition lastN {A} (n : nat) (xs : list A) : list A :=
  skipn (length xs - n) xs.

(** Whether the logging of one recent message throws: the message is
    [null], or what stands for its content is not a string, so that
    [content.substring] is not a function. *)
Definition logThrows (msg : json) : bool :=
  match msg with
  | JNull => true
  | _ =>
      let content :=
        Reclassifier.orValue
          (Reclassifier.orValue (optGet (get msg "message") "content") (get msg "content"))
          (Some (JStr EmptyString)) in
      negb (isString content)
  end.

(** Whether the logging of a [values] part throws before the chunk is
    yielded. *)
Definition valuesLoggingThrows (data : json) : bool :=
  match get data "messages" with
  | Some (JArr ms) => existsb logThrows (lastN 5 ms)
  | _ => false
  end.

(** The chunks one part of the stream makes the generator yield; a throw
    while the part is handled is caught and the part is skipped. *)
Definition yielded (part : StreamPart) : list json :=
  if String.eqb (event part) "values" && truthyO (data part) then
    match data part with
    | Some d => if valuesLoggingThrows d then [] else [object [("supervisor", Some d)]]
    | None => []
    end
  else if String.eqb (event part) "metadata" then [object [("metadata", data part)]]
  else if String.eqb (event part) "error" then [object [("error", data part)]]
  else [].

(** The chunk yielded when the stream fails. *)
Definition errorChunk (e : Thrown) : json :=
  object [("error",
           Some (object
                   match e with
                   | ThrownError m stack =>
                       [("message", Some (JStr m)); ("details", JStr <$> stack)]
                   | ThrownOther =>
                       [("message", Some (JStr "Streaming error")); ("details", None)]
                   end))].

(** The thread of the conversation: the cached one, or a new one. *)
Definition acquireThread (remote : nat -> CreateThread) (conv : string) (c : ThreadCache)
  : (Thrown + string) * ThreadCache :=
  match Gateway.truthyId (threadCache c !! conv) with
  | Some threadId => (inr threadId, c)
  | None =>
      match remote (created c) with
      | CreateThrows e =>
          (inl e, {| threadCache := threadCache c; created := S (created c) |})
      | Created threadId =>
          (inr threadId,
           {| threadCache := <[conv := threadId]> (threadCache c);
              created := S (created c) |})
      end
  end.

(** The chunks the generator returned by [stream] yields: [parts] are the
    parts the run produces, [failure] the error its iteration ends with, if
    it does not end normally. *)
Definition stream (remote : nat -> CreateThread) (parts : list StreamPart)
    (failure : option Thrown) (conv : string) (c : ThreadCache)
  : list json * ThreadCache :=
  match acquireThread remote conv c with
  | (inl e, c') => ([errorChunk e], c')
  | (inr _, c') =>
      ((flat_map yielded parts
        ++ match failure with
           | Some e => [errorChunk e]
           | None => []
           end)%list, c')
  end.

End Supervisor.

(* ===================================================================== *)
(** ** Provider selector (lib/ciba-provider.ts) *)
(* ===================================================================== *)

Module CibaProvider.
Import Ciba Coordinator.

Inductive Implementation := auth0 | standard.

(** [getCIBAProvider()]; the argument is the variable [IDENTITY_PROVIDER]
    of the environment. *)
Definition getCIBAProvider (IDENTITY_PROVIDER : option string) : Implementation :=
  match IDENTITY_PROVIDER with
  | None => auth0
  | Some v =>
      let provider := JS.toLowerCase v in
      if String.eqb provider "auth0" || negb (JS.nonEmpty provider) then auth0
      else standard
  end.

(** [getAuthorizationState] and [resetAuthorizationState] of
    lib/ciba-langchain.ts. *)
Definition getStandardState (shop : option Status) : M AuthorizationState :=
  fun w =>
    let w' :=
      if bool_decide (shop = Some approved)
         && bool_decide (status (cibaAuthorizationState w) = requested)
      then setCibaState (withStatus approved (cibaAuthorizationState w)) w
      else w in
    (Ok (cibaAuthorizationState w'), w').

Definition resetStandardState : M unit :=
  modify (setCibaState {| status := idle; message := None |}).

(** The selector's [getAuthorizationState], [resetAuthorizationState],
    [notifyShopAuthReset] and [withCIBAAuthorization]; for the provider
    [auth0] the last one is the wrapper of lib/auth0-ai-langchain.ts, which
    runs on the SDK's driver ([auth] is the authorization it runs), for
    [standard] it is the wrapper of lib/ciba-langchain.ts ([p] is the
    provider it talks to). *)
Definition getAuthorizationState (idp : option string) (shop : option Status)
  : M AuthorizationState :=
  match getCIBAProvider idp with
  | auth0 => Coordinator.getAuthorizationState shop
  | standard => getStandardState shop
  end.

Definition resetAuthorizationState (idp : option string) : M unit :=
  match getCIBAProvider idp with
  | auth0 => Coordinator.resetAuthorizationState
  | standard => resetStandardState
  end.

Definition notifyShopAuthReset (idp : option string) : M unit :=
  match getCIBAProvider idp with
  | auth0 => Coordinator.notifyShopAuthReset
  | standard => resetStandardState
  end.

Definition withCIBAAuthorization (idp : option string) (outcome : Result json)
    (auth : SdkAuthorization) (p : Provider) (params : json) (config : option json)
  : M json :=
  match getCIBAProvider idp with
  | auth0 => Coordinator.withAsyncAuthorization outcome auth params config
  | standard =>
      Coordinator.withCIBAAuthorization (originalTool outcome) p params config
  end.

End CibaProvider.

(* ===================================================================== *)
(** ** The event-stream helper for tests (lib/agents/langgraphClient.ts) *)
(* ===================================================================== *)

Module SseHelper.
Import Gateway.

(** [s.split(/\n\n/)] *)
Fixpoint splitBlankFrom (cur : string) (s : string) : list string :=
  match s with
  | EmptyString => [JS.reverse cur]
  | String c s' =>
      if Ascii.eqb c newline then
        match s' with
        | String d s'' =>
            if Ascii.eqb d newline
            then JS.reverse cur :: splitBlankFrom EmptyString s''
            else splitBlankFrom (String c cur) s'
        | EmptyString => splitBlankFrom (String c cur) s'
        end
      else splitBlankFrom (String c cur) s'
  end.

Definition splitBlank (s : string) : list string := splitBlankFrom EmptyString s.

(** The event of one payload. *)
Definition eventOf (payload : string) : SSEEvent :=
  if String.eqb payload "[DONE]" then EvDone
  else match Json.parse payload with
       | Some j => EvJson j
       | None => EvText payload
       end.

(** The body of the loop over the blocks: the event pushed for a block, if
    any. *)
Definition blockEvent (block : string) : option SSEEvent :=
  let block := JS.trim block in
  if negb (JS.nonEmpty block) then None
  else
    let lines :=
      filter (fun l => JS.nonEmpty l = true) (map JS.trim (JS.splitLines block)) in
    let dataLines :=
      map (fun l => JS.trim (JS.drop 5 l))
          (filter (fun l => JS.startsWith l "data:" = true) lines) in
    match dataLines with
    | [] => None
    | _ => Some (eventOf (JS.join (String newline EmptyString) dataLines))
    end.

(** [parseSSEFromString(sse)] *)
Definition parseSSEFromString (sse : string) : list SSEEvent :=
  omap blockEvent (splitBlank sse).

End SseHelper.

(* ===================================================================== *)
(** ** Framing of the event stream *)
(* ===================================================================== *)

Module Framing.
Import Gateway.

(** One event of the stream as the service writes it: the payload on a
    data line, then a blank line. *)
Definition frame (p : string) : string := "data: " +:+ p +:+ blankLine.

Definition frames (ps : list string) : string :=
  fold_right (fun p acc => frame p +:+ acc) EmptyString ps.

(** A payload on one line, with no white space around it. *)
Definition plainPayload (p : string) : bool :=
  JS.nonEmpty p
  && negb (JS.existsChar (fun c => Ascii.eqb c newline) p)
  && String.eqb (JS.trimStart p) p
  && String.eqb (JS.trimEnd p) p.

Definition noNewline (s : string) : bool :=
  negb (JS.existsChar (fun c => Ascii.eqb c newline) s).

(** The payloads handed to [dispatch] one after the other, until one of
    them ends the decoding. *)
Fixpoint dispatchAll {S : Type} (onEvent : SSEEvent -> S -> S * bool)
    (ps : list string) (st : S) : S * Flow :=
  match ps with
  | [] => (st, Continue)
  | p :: rest =>
      match dispatch onEvent p st with
      | (st', Continue) => dispatchAll onEvent rest st'
      | other => other
      end
  end.

End Framing.

(* ===================================================================== *)
(** ** Notions the properties are stated with *)
(* ===================================================================== *)

Module Notions.

(** An attempt after which the polling loop goes on: the answer is pending,
    or, before the last attempt, the error it raises is one the [catch]
    block swallows. *)
Definition goesOn (maxAttempts j : nat) (resp : Ciba.PollResponse) : Prop :=
  Ciba.tryAttempt resp = Ciba.AttemptContinue
  \/ ((j < maxAttempts)%nat
      /\ exists m, Ciba.tryAttempt resp = Ciba.AttemptThrow m
                   /\ JS.includes m Ciba.pollingErrorPrefix = false).

(** The statuses an operation writes to the authorization state, read off
    the log of writes. *)
Definition written (op : Coordinator.Op) (w : Coordinator.World)
  : list Coordinator.Status :=
  drop (length (Coordinator.history w)) (Coordinator.history (Coordinator.runOp op w)).

(** A thread cache in which every bound thread id is non-empty and a
    conversation has a binding exactly when it has a timestamp. *)
Definition wellFormed (c : Gateway.Cache) : Prop :=
  forall conv : string,
    (forall tid, Gateway.conversationThreadMap c !! conv = Some tid ->
                 JS.nonEmpty tid = true)
    /\ (is_Some (Gateway.conversationThreadMap c !! conv)
        <-> is_Some (Gateway.conversationThreadTimestamps c !! conv)).

(** An event with a string [type] member. *)
Definition typed (e : json) : Prop := isString (Reclassifier.eventType e) = true.

(** The text ends in a carriage return. *)
Fixpoint endsWithCr (a : string) : bool :=
  match a with
  | EmptyString => false
  | String c r =>
      match r with
      | EmptyString => Ascii.eqb c "013"
      | _ => endsWithCr r
      end
  end.

(** Every character is a digit. *)
Definition allDigits (s : string) : bool :=
  negb (JS.existsChar (fun c => negb (JS.isDigit c)) s).

(** A number literal that [JSON.stringify] prints the way it is written:
    an optional minus sign, an integer part without a leading zero and, if
    any, a fraction that does not end in a zero, with fifteen digits at
    most and no exponent; zero is written [0], and a number below one has a
    non-zero first decimal. *)
Definition plainNumber (l : string) : bool :=
  let unsigned :=
    match l with
    | String c r => if Ascii.eqb c "-" then r else l
    | EmptyString => l
    end in
  let '(int, rest) := Json.spanDigits unsigned in
  match int, rest with
  | EmptyString, _ => false
  | String c i, EmptyString =>
      if Ascii.eqb c "0" then String.eqb l "0"
      else (String.length int <=? 15)%nat
  | String c i, String dot frac =>
      Ascii.eqb dot "."
      && allDigits frac
      && (if Ascii.eqb c "0"
          then String.eqb int "0"
               && match frac with
                  | String f _ => negb (Ascii.eqb f "0")
                  | EmptyString => false
                  end
          else true)
      && match JS.reverse frac with
         | String z _ => negb (Ascii.eqb z "0")
         | EmptyString => false
         end
      && (String.length int + String.length frac <=? 15)%nat
  end.

(** A key that is not an integer index: objects list their integer-like
    keys first. *)
Definition plainKey (k : string) : bool :=
  negb (JS.nonEmpty k) || negb (allDigits k).

Fixpoint distinct (ks : list string) : bool :=
  match ks with
  | [] => true
  | k :: rest => negb (existsb (String.eqb k) rest) && distinct rest
  end.

(** A value that stands for one value of the program and that
    [Json.stringify] prints as [JSON.stringify] prints that value: its
    numbers are written the way they are printed, and the keys of each of
    its objects are distinct and not integer-like. *)
Fixpoint printsAsCode (v : json) : bool :=
  match v with
  | JNum l => plainNumber l
  | JArr items => forallb printsAsCode items
  | JObj fields =>
      distinct (map fst fields)
      && forallb (fun kv => plainKey (fst kv) && printsAsCode (snd kv)) fields
  | _ => true
  end.

(** The value [v] is [obj] itself, or a member or an item of it at any
    depth. *)
Inductive inside (v : json) : json -> Prop :=
| inside_here : inside v v
| inside_member (fields : list (string * json)) (k : string) (x : json) :
    Json.assocGet k fields = Some x -> inside v x -> inside v (JObj fields)
| inside_item (items : list json) (x : json) :
    In x items -> inside v x -> inside v (JArr items).

(** A text taken from [obj] that is not plan-like; or the print of a value
    inside [obj] that is not a string and is not itself plan-like. *)
Definition surfaced (obj : json) (t : string) : Prop :=
  Reclassifier.isPlanLike (JStr t) = false
  \/ exists v,
       inside v obj /\ (forall s, v <> JStr s)
       /\ Reclassifier.isPlanLike v = false /\ t = Json.stringify v.

(** Every character is a lower-case letter or a digit. *)
Definition allAlnum (s : string) : bool :=
  negb (JS.existsChar (fun c => negb (ConversationId.isLowerAlnum c)) s).

End Notions.

Import Notions.

(* ===================================================================== *)
(** * Properties *)
(* ===================================================================== *)

(* ===================================================================== *)
(** ** Polling the token endpoint *)
(* ===================================================================== *)

Section PollFacts.
Import Ciba.

(** The error raised for an expired request does not carry the marker the
    [catch] block looks for. *)
Lemma expired_message_not_marked :
  JS.includes expiredMessage pollingErrorPrefix = false.
Proof. vm_compute. reflexivity. Qed.

Lemma tryAttempt_expired (d : option string) :
  tryAttempt (PollError (Some "expired_token") d) = AttemptThrow expiredMessage.
Proof. reflexivity. Qed.

(** An expired request seen before the last attempt: the loop goes on to the
    next attempt. *)
Lemma pollFrom_expired_continues
    (provider : nat -> PollResponse) (maxAttempts fuel attempt fetched waited : nat)
    (d : option string) :
  provider attempt = PollError (Some "expired_token") d ->
  (attempt < maxAttempts)%nat ->
  pollFrom provider maxAttempts (S fuel) attempt fetched waited
  = pollFrom provider maxAttempts fuel (S attempt) (S fetched)
      (if (1 <? attempt)%nat then S waited else waited).
Proof.
  intros Hp Hlt. simpl.
  destruct (maxAttempts <? attempt)%nat eqn:Hc.
  - apply Nat.ltb_lt in Hc. lia.
  - rewrite Hp, tryAttempt_expired, expired_message_not_marked.
    destruct (attempt =? maxAttempts)%nat eqn:He.
    + apply Nat.eqb_eq in He. lia.
    + reflexivity.
Qed.

(** An expired request seen on the last attempt: the call fails with the
    message of an exhausted polling, not with the expiry. *)
Lemma pollFrom_expired_last
    (provider : nat -> PollResponse) (maxAttempts fuel fetched waited : nat)
    (d : option string) :
  provider maxAttempts = PollError (Some "expired_token") d ->
  result (pollFrom provider maxAttempts (S fuel) maxAttempts fetched waited)
  = Thrown pollingFailedMessage.
Proof.
  intros Hp. simpl.
  rewrite Nat.ltb_irrefl, Hp, tryAttempt_expired, expired_message_not_marked.
  rewrite Nat.eqb_refl. reflexivity.
Qed.

(** Claim C2, evaluated on the code.  With two attempts allowed and a token
    endpoint that answers [expired_token] each time, the polling does not
    stop at the first attempt: it waits, polls a second time, and fails with
    the message of an exhausted polling instead of the expiry; and when the
    second answer is a token response, the call returns the tokens. *)
Theorem poll_expired_token_is_retried :
  let expired := PollError (Some "expired_token") None in
  let tokens :=
    {| access_token := Some "at"; id_token := None; token_type := Some "Bearer";
       token_expires_in := Some 3600; token_scope := None |} in
  pollCIBAResult (fun _ => expired) 2
  = {| result := Thrown pollingFailedMessage; fetches := 2; waits := 1 |}
  /\ pollingFailedMessage <> expiredMessage
  /\ pollCIBAResult (fun n => if (n =? 1)%nat then expired else PollOk tokens) 2
     = {| result := Returned (Some tokens); fetches := 2; waits := 1 |}.
Proof.
  cbv zeta. split; [|split].
  - vm_compute. reflexivity.
  - discriminate.
  - vm_compute. reflexivity.
Qed.

End PollFacts.

(* ===================================================================== *)
(** ** The authorization wrapper and the status it maintains *)
(* ===================================================================== *)

Section CoordinatorFacts.
Import Ciba Coordinator Samples.

Ltac run_monad :=
  cbv [withAsyncAuthorization sdkWithAsyncUserConfirmation
       withAsyncUserConfirmation withCIBAAuthorization
       extractUserId optUserID optBindingMessage
       optOnAuthorizationRequest optOnUnauthorized
       bindingMessage createBindingMessage onAuthorizationRequest onUnauthorized
       wrappedTool originalTool updateAuthorizationStatusMessage
       clearAuthorizationStatusMessages clearAuthorizationOnToolCompletion
       getAuthorizationState resetAuthorizationState notifyShopAuthReset runOp
       setStatus setCibaStatus await bind ret raise tryCatch modify mkError
       missingUserId authorizationDenied accessDenied
       kind errMessage negb].

Ltac log_grows :=
  first [ by (exists []; rewrite app_nil_r; split; [reflexivity | constructor])
        | eexists; split; [reflexivity | repeat constructor] ].

(** Claim C1.  For the wrapper of lib/ciba-langchain.ts
    ([withCIBAAuthorization]) and for the wrapper of
    lib/auth0-ai-langchain.ts ([withAsyncAuthorization], its callbacks and
    its wrapped tool run by the driver modelled from the spec): every entry
    into the protected action happens with the status at [approved]; when
    the user id and the binding message resolve and the authorization does
    not end in tokens (the user refuses, or initiation or polling fails),
    the call raises, the status is left at [denied] and the action is not
    entered at all (for the second wrapper the error raised and the message
    stored carry the reason the unauthorized callback returns: the fixed
    text of a refusal, or the message of the failure; and no status message
    is left); when it ends in tokens the action is entered exactly once. *)
Theorem action_runs_only_after_approval :
  forall (outcome : Result json) (p : Provider) (auth : SdkAuthorization)
         (params : json) (config : option json) (w : World),
    let run1 := withCIBAAuthorization (originalTool outcome) p params config w in
    let run2 := withAsyncAuthorization outcome auth params config w in
    ((exists new, invocations run1.2 = (invocations w ++ new)%list
                  /\ Forall (fun s => s.2 = approved) new)
     /\ (exists new, invocations run2.2 = (invocations w ++ new)%list
                     /\ Forall (fun s => s.1 = approved) new))
    /\ (truthyO (userID params config) = true ->
        is_Some (bindingMessageText params) ->
        ((forall t, performCIBAAuthorizationWithEnv p <> Returned (Some t)) ->
         (exists e, run1.1 = Raise e)
         /\ status (cibaAuthorizationState run1.2) = denied
         /\ invocations run1.2 = invocations w)
        /\ ((forall t, auth <> SdkRequested (Returned (Some t))) ->
            let reason :=
              match auth with
              | SdkInitiationFails e =>
                  match kind e with
                  | AccessDeniedInterrupt => deniedByUser
                  | PlainError => errMessage e
                  end
              | SdkRequested (Thrown m) => m
              | SdkRequested (Returned _) => deniedByUser
              end in
            run2.1 = Raise (authorizationDenied reason)
            /\ authorizationState run2.2 = {| status := denied; message := Some reason |}
            /\ authorizationStatusMessages run2.2 = []
            /\ invocations run2.2 = invocations w))
    /\ (truthyO (userID params config) = true ->
        is_Some (bindingMessageText params) ->
        ((exists t, performCIBAAuthorizationWithEnv p = Returned (Some t)) ->
         invocations run1.2
         = (invocations w ++ [(status (authorizationState w), approved)])%list)
        /\ ((exists t, auth = SdkRequested (Returned (Some t))) ->
            invocations run2.2
            = (invocations w ++ [(approved, status (cibaAuthorizationState w))])%list
            /\ run2.1 = outcome)).
Proof.
  intros. subst run1 run2. run_monad.
  set (ciba := performCIBAAuthorizationWithEnv p). clearbody ciba.
  set (uid := truthyO (userID params config)). clearbody uid.
  set (msg := bindingMessageText params). clearbody msg.
  split; [| split].
  - split.
    + destruct uid, msg as [m|], ciba as [[t|]|em], outcome as [v|[[] n e]]; simpl;
        log_grows.
    + destruct uid, msg as [m|], auth as [[[] n0 e0]|[[t|]|em]], outcome as [v|[[] n e]];
        simpl; try (destruct (isToolExecutionInProgress w); simpl); log_grows.
  - intros -> [m ->]. split.
    + intros Hna. destruct ciba as [[t|]|em]; [by destruct (Hna t) | |]; simpl; eauto 10.
    + intros Hna.
      destruct auth as [[[] n0 e0]|[[t|]|em]]; [| | by destruct (Hna t) | |]; simpl;
        repeat split.
  - intros -> [m ->]. split.
    + intros [t ->]. destruct outcome as [v|[[] n e]]; simpl; reflexivity.
    + intros [t ->].
      destruct outcome as [v|[[] n e]]; simpl;
        try (destruct (isToolExecutionInProgress w); simpl); split; reflexivity.
Qed.

(** A refusal: both wrappers raise, leave [denied], and the purchase is
    never entered; an approval: the purchase is entered once, at
    [approved]. *)
Lemma action_runs_only_after_approval_witness :
  let run1 := withCIBAAuthorization (originalTool (Ok JNull)) denyingProvider purchase None
                idleWorld in
  let run2 := withAsyncAuthorization (Ok JNull) (SdkRequested (Returned None)) purchase None
                idleWorld in
  let run3 := withAsyncAuthorization (Ok JNull) (SdkRequested (Returned (Some sampleTokens)))
                purchase None idleWorld in
  truthyO (userID purchase None) = true
  /\ is_Some (bindingMessageText purchase)
  /\ (forall t, performCIBAAuthorizationWithEnv denyingProvider <> Returned (Some t))
  /\ (forall t, SdkRequested (Returned None) <> SdkRequested (Returned (Some t)))
  /\ (exists e, run1.1 = Raise e)
  /\ invocations run1.2 = []
  /\ run2.1 = Raise (authorizationDenied deniedByUser)
  /\ status (authorizationState run2.2) = denied
  /\ invocations run2.2 = []
  /\ invocations run3.2 = [(approved, idle)].
Proof.
  assert (H1 : truthyO (userID purchase None) = true) by reflexivity.
  assert (H2 : is_Some (bindingMessageText purchase)) by (vm_compute; eauto).
  assert (H3 : forall t, performCIBAAuthorizationWithEnv denyingProvider <> Returned (Some t))
    by (intros t; vm_compute; discriminate).
  assert (H4 : forall t, SdkRequested (Returned None) <> SdkRequested (Returned (Some t)))
    by (intros t; discriminate).
  destruct (action_runs_only_after_approval (Ok JNull) denyingProvider
              (SdkRequested (Returned None)) purchase None idleWorld)
    as (_ & Hdenied & _).
  destruct (action_runs_only_after_approval (Ok JNull) denyingProvider
              (SdkRequested (Returned (Some sampleTokens))) purchase None idleWorld)
    as (_ & _ & Happroved).
  destruct (Hdenied H1 H2) as (Hd1 & Hd2).
  destruct (Hd1 H3) as (He1 & _ & Hi1).
  destruct (Hd2 H4) as (Hr & Hs & _ & Hi2).
  destruct (Happroved H1 H2) as (_ & Ha).
  destruct (Ha (ex_intro _ sampleTokens eq_refl)) as (Hin & _).
  split; [exact H1 | split; [exact H2 | split; [exact H3 | split; [exact H4 |]]]].
  split; [exact He1 | split; [exact Hi1 | split; [exact Hr | split]]].
  - rewrite Hs. reflexivity.
  - split; [exact Hi2 | exact Hin].
Defined.

Lemma history_runOp (op : Op) (w : World) :
  history (runOp op w)
  = (history w
     ++ match op with
        | OpGetAuthorizationState shop =>
            if bool_decide (shop = Some approved)
               && bool_decide (status (authorizationState w) = requested)
            then [approved] else []
        | OpResetAuthorizationState | OpNotifyShopAuthReset => [idle]
        | OpBindingMessage params =>
            match bindingMessageText params with
            | Some _ => [requested]
            | None => []
            end
        | OpOnAuthorizationRequest poll =>
            [pending; match poll with
                      | Returned (Some _) => approved
                      | _ => denied
                      end]
        | OpOnUnauthorized _ => [denied]
        end)%list.
Proof.
  destruct op as [shop| | |params|poll|e]; run_monad.
  - destruct (bool_decide (shop = Some approved)
              && bool_decide (status (authorizationState w) = requested)); simpl;
      [reflexivity | rewrite app_nil_r; reflexivity].
  - reflexivity.
  - reflexivity.
  - destruct (bindingMessageText params); simpl;
      [reflexivity | rewrite app_nil_r; reflexivity].
  - destruct poll as [[t|]|em]; simpl; rewrite <- !app_assoc; reflexivity.
  - destruct e as [[] n m]; reflexivity.
Qed.

Lemma written_runOp (op : Op) (w : World) :
  history (runOp op w) = (history w ++ written op w)%list.
Proof.
  unfold written. rewrite history_runOp at 2. rewrite drop_app_length.
  apply history_runOp.
Qed.

Lemma written_table (op : Op) (w : World) :
  written op w
  = match op with
    | OpGetAuthorizationState shop =>
        if bool_decide (shop = Some approved)
           && bool_decide (status (authorizationState w) = requested)
        then [approved] else []
    | OpResetAuthorizationState | OpNotifyShopAuthReset => [idle]
    | OpBindingMessage params =>
        match bindingMessageText params with
        | Some _ => [requested]
        | None => []
        end
    | OpOnAuthorizationRequest poll =>
        [pending; match poll with
                  | Returned (Some _) => approved
                  | _ => denied
                  end]
    | OpOnUnauthorized _ => [denied]
    end.
Proof. unfold written. rewrite history_runOp, drop_app_length. reflexivity. Qed.

Lemma status_runOp (op : Op) (w : World) :
  status (authorizationState (runOp op w))
  = List.last (written op w) (status (authorizationState w)).
Proof.
  rewrite written_table.
  destruct op as [shop| | |params|poll|e]; run_monad.
  - destruct (bool_decide (shop = Some approved)
              && bool_decide (status (authorizationState w) = requested)); reflexivity.
  - reflexivity.
  - reflexivity.
  - destruct (bindingMessageText params); reflexivity.
  - destruct poll as [[t|]|em]; reflexivity.
  - destruct e as [[] n m]; reflexivity.
Qed.

(** Claim C3, as stated, fails.  With the status at [requested] and the
    checkout tool reporting [approved], the read [getAuthorizationState]
    writes [approved], a move that is not a link of the chain; the reset
    writes [idle] at [requested] as at any other status; and the
    unauthorized callback run after a refused attempt writes [denied] over
    [denied]. *)
Lemma status_chain_counterexample :
  let w' := runOp (OpGetAuthorizationState (Some approved)) requestedWorld in
  let refused :=
    runOp (OpOnUnauthorized (mkError "refused"))
      (runOp (OpOnAuthorizationRequest (Returned None))
         (runOp (OpBindingMessage purchase) idleWorld)) in
  status (authorizationState requestedWorld) = requested
  /\ status (authorizationState w') = approved
  /\ history w' = (history requestedWorld ++ [approved])%list
  /\ chainStep requested approved = false
  /\ chainPath (status (authorizationState requestedWorld)) [approved] = false
  /\ status (authorizationState (runOp OpResetAuthorizationState requestedWorld)) = idle
  /\ chainStep requested idle = false
  /\ history refused = [requested; pending; denied; denied]
  /\ chainPath (status (authorizationState idleWorld)) (history refused) = false.
Proof. cbv zeta. vm_compute. repeat split. Qed.

(** Claim C3, amended.  Every operation writes the status whatever the
    current status is: the binding-message callback writes [requested], the
    authorization-request callback [pending] and then [approved] (exactly
    when the polling promise yields tokens) or [denied], the unauthorized
    callback [denied], the reset and the shop notification [idle], and
    [getAuthorizationState] writes [approved] at [requested] when the
    checkout tool reports [approved], and nothing otherwise.  So the writes
    of an operation are links of the chain exactly when it is applied at
    the right status: the binding message at [idle], the authorization
    request at [requested], the reset at [approved] or [denied], the
    unauthorized callback at [pending], and [getAuthorizationState] when it
    writes nothing.  In particular an attempt run in order from [idle]
    (binding message, authorization request, reset) follows the chain. *)
Theorem status_chain_by_operation :
  forall (w : World),
    let s := status (authorizationState w) in
    (forall op : Op,
        history (runOp op w) = (history w ++ written op w)%list
        /\ status (authorizationState (runOp op w)) = List.last (written op w) s)
    /\ (forall shop,
          written (OpGetAuthorizationState shop) w
          = (if bool_decide (shop = Some approved) && bool_decide (s = requested)
             then [approved] else [])
          /\ (~ (shop = Some approved /\ s = requested) ->
              runOp (OpGetAuthorizationState shop) w = w))
    /\ written OpResetAuthorizationState w = [idle]
    /\ written OpNotifyShopAuthReset w = [idle]
    /\ (forall params,
          written (OpBindingMessage params) w
          = match bindingMessageText params with
            | Some _ => [requested]
            | None => []
            end)
    /\ (forall poll,
          written (OpOnAuthorizationRequest poll) w
          = [pending; match poll with
                      | Returned (Some _) => approved
                      | _ => denied
                      end])
    /\ (forall e, written (OpOnUnauthorized e) w = [denied])
    /\ (forall op : Op,
          chainPath s (written op w) = true
          <-> match op with
              | OpGetAuthorizationState shop => ~ (shop = Some approved /\ s = requested)
              | OpResetAuthorizationState | OpNotifyShopAuthReset =>
                  s = approved \/ s = denied
              | OpBindingMessage params => bindingMessageText params = None \/ s = idle
              | OpOnAuthorizationRequest _ => s = requested
              | OpOnUnauthorized _ => s = pending
              end)
    /\ (s = idle ->
        forall (params : json) (poll : Outcome (option CIBATokenResponse)),
          is_Some (bindingMessageText params) ->
          let w1 := runOp (OpBindingMessage params) w in
          let w2 := runOp (OpOnAuthorizationRequest poll) w1 in
          let w3 := runOp OpResetAuthorizationState w2 in
          exists final,
            history w3 = (history w ++ [requested; pending; final; idle])%list
            /\ status (authorizationState w1) = requested
            /\ status (authorizationState w2) = final
            /\ status (authorizationState w3) = idle
            /\ (final = approved \/ final = denied)
            /\ (final = approved <-> exists t, poll = Returned (Some t))
            /\ chainPath s [requested; pending; final; idle] = true).
Proof.
  intros w s. subst s.
  split; [intros op; split; [apply written_runOp | apply status_runOp] |].
  split.
  { intros shop. split; [apply (written_table (OpGetAuthorizationState shop)) |].
    intros Hn. run_monad.
    destruct (bool_decide (shop = Some approved)) eqn:E1; simpl; [| reflexivity].
    destruct (bool_decide (status (authorizationState w) = requested)) eqn:E2;
      simpl; [| reflexivity].
    apply bool_decide_eq_true in E1, E2. destruct Hn. split; assumption. }
  split; [apply (written_table OpResetAuthorizationState) |].
  split; [apply (written_table OpNotifyShopAuthReset) |].
  split; [intros params; apply (written_table (OpBindingMessage params)) |].
  split; [intros poll; apply (written_table (OpOnAuthorizationRequest poll)) |].
  split; [intros e; apply (written_table (OpOnUnauthorized e)) |].
  split.
  - intros op. rewrite written_table.
    destruct op as [shop| | |params|poll|e].
    + destruct (bool_decide (shop = Some approved)) eqn:E1; simpl.
      * destruct (bool_decide (status (authorizationState w) = requested)) eqn:E2; simpl.
        -- apply bool_decide_eq_true in E1, E2. rewrite E2. simpl.
           split; [discriminate | intros Hn; destruct Hn; split; [assumption | reflexivity]].
        -- apply bool_decide_eq_false in E2. split; [| reflexivity].
           intros _ [_ H]. contradiction.
      * apply bool_decide_eq_false in E1. split; [| reflexivity].
        intros _ [H _]. contradiction.
    + destruct (status (authorizationState w)); simpl;
        split; try discriminate; try (intros [H | H]; discriminate); auto.
    + destruct (status (authorizationState w)); simpl;
        split; try discriminate; try (intros [H | H]; discriminate); auto.
    + destruct (bindingMessageText params) as [m|]; [| split; auto].
      destruct (status (authorizationState w)); simpl;
        split; try discriminate; try (intros [H | H]; discriminate); auto.
    + destruct (status (authorizationState w)), poll as [[t|]|em]; simpl;
        split; try discriminate; auto.
    + destruct (status (authorizationState w)); simpl;
        split; try discriminate; auto.
  - intros Hidle params poll [m Hm]. cbv zeta.
    run_monad. rewrite Hm, Hidle. simpl.
    destruct poll as [[t|]|em]; simpl.
    + exists approved. rewrite <- !app_assoc. simpl.
      repeat split; eauto.
    + exists denied. rewrite <- !app_assoc. simpl.
      repeat split; eauto; try discriminate.
      intros [t Ht]. discriminate.
    + exists denied. rewrite <- !app_assoc. simpl.
      repeat split; eauto; try discriminate.
      intros [t Ht]. discriminate.
Qed.

(** An attempt that ends in a refusal, from the idle state; the read that
    jumps from [requested] to [approved] and the read that leaves the state
    alone; and the reset, which is on the chain at [denied] and not at
    [requested]. *)
Lemma status_chain_by_operation_witness :
  let w1 := runOp (OpBindingMessage purchase) idleWorld in
  let w2 := runOp (OpOnAuthorizationRequest (Returned None)) w1 in
  let w3 := runOp OpResetAuthorizationState w2 in
  status (authorizationState idleWorld) = idle
  /\ is_Some (bindingMessageText purchase)
  /\ ~ (Some denied = Some approved
        /\ status (authorizationState requestedWorld) = requested)
  /\ (exists final,
        history w3 = (history idleWorld ++ [requested; pending; final; idle])%list
        /\ final = denied)
  /\ written (OpGetAuthorizationState (Some approved)) requestedWorld = [approved]
  /\ runOp (OpGetAuthorizationState (Some denied)) requestedWorld = requestedWorld
  /\ chainPath (status (authorizationState w2)) (written OpResetAuthorizationState w2) = true
  /\ chainPath (status (authorizationState requestedWorld))
       (written OpResetAuthorizationState requestedWorld) = false.
Proof.
  assert (H1 : status (authorizationState idleWorld) = idle) by reflexivity.
  assert (H2 : is_Some (bindingMessageText purchase)) by (vm_compute; eauto).
  assert (H4 : ~ (Some denied = Some approved
                  /\ status (authorizationState requestedWorld) = requested))
    by (intros [E _]; discriminate E).
  destruct (status_chain_by_operation idleWorld)
    as (_ & _ & _ & _ & _ & _ & _ & _ & Hattempt).
  destruct (Hattempt H1 purchase (Returned None) H2)
    as (final & Hh & _ & _ & _ & Hf & Hiff & _).
  destruct (status_chain_by_operation requestedWorld)
    as (_ & Hread & _ & _ & _ & _ & _ & Hchain & _).
  destruct (Hread (Some approved)) as (Hjump & _).
  destruct (Hread (Some denied)) as (_ & Hsame).
  destruct (status_chain_by_operation
              (runOp (OpOnAuthorizationRequest (Returned None))
                 (runOp (OpBindingMessage purchase) idleWorld)))
    as (_ & _ & _ & _ & _ & _ & _ & Hchain2 & _).
  split; [exact H1 | split; [exact H2 | split; [exact H4 |]]].
  split.
  { exists final. split; [exact Hh |].
    destruct Hf as [Ha | Hd]; [| exact Hd].
    apply Hiff in Ha. destruct Ha as [t Ht]. discriminate Ht. }
  split; [exact Hjump | split; [exact (Hsame H4) | split]].
  - apply (Hchain2 OpResetAuthorizationState). right. reflexivity.
  - destruct (chainPath (status (authorizationState requestedWorld))
                (written OpResetAuthorizationState requestedWorld)) eqn:E; [| reflexivity].
    apply (Hchain OpResetAuthorizationState) in E. destruct E as [E | E]; discriminate E.
Defined.

End CoordinatorFacts.

(* ===================================================================== *)
(** ** The thread cache *)
(* ===================================================================== *)

Section GatewayCacheFacts.
Import Gateway Samples.

Lemma truthyId_Some (a : option string) (s : string) :
  truthyId a = Some s <-> a = Some s /\ JS.nonEmpty s = true.
Proof.
  unfold truthyId. destruct a as [t|].
  - destruct (JS.nonEmpty t) eqn:E; split.
    + intros [= <-]. auto.
    + intros [[= <-] _]. reflexivity.
    + discriminate.
    + intros [[= <-] H]. congruence.
  - split; [discriminate | intros [? _]; discriminate].
Qed.

(** A successful [ensureThread] leaves the returned id bound, and issues at
    most one creation request. *)
Lemma ensureThread_ok_bound remote conv now c tid c1 :
  ensureThread remote conv now c = (Ok tid, c1) ->
  conversationThreadMap c1 !! conv = Some tid /\ JS.nonEmpty tid = true
  /\ (creations c1 <= S (creations c))%nat.
Proof.
  unfold ensureThread, ensureThreadBegin.
  destruct (truthyId (conversationThreadMap c !! conv)) as [t|] eqn:E.
  - intros [= <- <-]. apply truthyId_Some in E as [E1 E2]. simpl. auto.
  - unfold ensureThreadResume.
    destruct (remote (creations c)) as [e|st tx|a b d]; try discriminate.
    destruct (truthyId (orElse (orElse a b) d)) as [t|] eqn:E'; [| discriminate].
    intros [= <- <-]. apply truthyId_Some in E' as [_ E2]. simpl.
    rewrite lookup_insert_eq. auto.
Qed.

(** A bound conversation is answered from the cache, whatever its age. *)
Lemma ensureThread_hit remote conv now c tid :
  conversationThreadMap c !! conv = Some tid -> JS.nonEmpty tid = true ->
  ensureThread remote conv now c = (Ok tid, touch conv now c).
Proof.
  intros H1 H2. unfold ensureThread, ensureThreadBegin.
  rewrite H1. simpl. rewrite H2. reflexivity.
Qed.

Lemma ensureThread_miss_creates remote conv now c newTid :
  truthyId (conversationThreadMap c !! conv) = None ->
  remote (creations c) = CreateBody (Some newTid) None None ->
  JS.nonEmpty newTid = true ->
  ensureThread remote conv now c
  = (Ok newTid, touch conv now (bindThread conv newTid (countCreation c))).
Proof.
  intros Hmiss Hr Hn. unfold ensureThread, ensureThreadBegin.
  rewrite Hmiss, Hr. unfold ensureThreadResume, orElse, truthyId.
  repeat (rewrite Hn; cbv beta iota). reflexivity.
Qed.

Lemma evict_removes ttl now c conv tid ts :
  conversationThreadMap c !! conv = Some tid -> JS.nonEmpty tid = true ->
  conversationThreadTimestamps c !! conv = Some ts ->
  ttl < now - ts ->
  conversationThreadMap (evictStaleThreads ttl now c) !! conv = None
  /\ conversationThreadTimestamps (evictStaleThreads ttl now c) !! conv = None.
Proof.
  intros Hm Hne Ht Hlt. unfold evictStaleThreads. simpl.
  assert (Hs : isStale now ttl ts = true) by (unfold isStale; apply Z.ltb_lt; lia).
  split.
  - apply map_lookup_filter_None. right. intros x Hx.
    rewrite Hm in Hx. injection Hx as <-.
    unfold keepsThread. simpl. rewrite Ht, Hs, Hne. discriminate.
  - apply map_lookup_filter_None. right. intros x Hx.
    rewrite Ht in Hx. injection Hx as <-. simpl. rewrite Hs. discriminate.
Qed.

Lemma evict_keeps ttl now c conv tid ts :
  conversationThreadMap c !! conv = Some tid ->
  conversationThreadTimestamps c !! conv = Some ts ->
  now - ts <= ttl ->
  conversationThreadMap (evictStaleThreads ttl now c) !! conv = Some tid
  /\ conversationThreadTimestamps (evictStaleThreads ttl now c) !! conv = Some ts.
Proof.
  intros Hm Ht Hle. unfold evictStaleThreads. simpl.
  assert (Hs : isStale now ttl ts = false) by (unfold isStale; apply Z.ltb_ge; lia).
  split.
  - apply map_lookup_filter_Some. split; [exact Hm |].
    unfold keepsThread. simpl. rewrite Ht, Hs. reflexivity.
  - apply map_lookup_filter_Some. split; [exact Ht |]. simpl. exact Hs.
Qed.

(** Claim C4, as stated, fails: a binding last touched at time 0 is reused
    two hours later, with a TTL of one hour.  [ensureThread] answers from
    the cache and refreshes the timestamp, no thread is created, and the
    sweep at the end of the same call keeps the refreshed binding. *)
Lemma stale_binding_counterexample :
  let run := callAgentWithStream secondThread 3 1000 answeringEnv catalogCall staleCache in
  conversationThreadTimestamps staleCache !! "conv-1" = Some 0
  /\ isStale muchLater oneHour 0 = true
  /\ (ensureThread secondThread "conv-1" muchLater staleCache).1 = Ok "thread-1"
  /\ creations (ensureThread secondThread "conv-1" muchLater staleCache).2
     = creations staleCache
  /\ content (returned run) = "hi"
  /\ creations (cache run) = creations staleCache
  /\ conversationThreadMap (cache run) !! "conv-1" = Some "thread-1".
Proof. vm_compute. repeat split. Qed.

(** Claim C4, amended.  [ensureThread] returns the cached id whenever the
    conversation is bound, without looking at the age of the binding, and
    creates nothing; a sweep keeps a binding whose age is within the TTL and
    removes one whose age exceeds it; after such a removal the next
    [ensureThread] for the conversation issues a creation request and binds
    the id the remote service returns. *)
Theorem thread_binding_reuse_and_eviction :
  forall (remote : nat -> CreateResponse) (conv : string) (c : Cache)
         (tid : string) (ts now ttl now' : Z) (newTid : string),
    conversationThreadMap c !! conv = Some tid ->
    JS.nonEmpty tid = true ->
    conversationThreadTimestamps c !! conv = Some ts ->
    ensureThread remote conv now c = (Ok tid, touch conv now c)
    /\ creations (touch conv now c) = creations c
    /\ (now - ts <= ttl ->
        conversationThreadMap (evictStaleThreads ttl now c) !! conv = Some tid)
    /\ (ttl < now - ts ->
        let c' := evictStaleThreads ttl now c in
        conversationThreadMap c' !! conv = None
        /\ conversationThreadTimestamps c' !! conv = None
        /\ (remote (creations c) = CreateBody (Some newTid) None None ->
            JS.nonEmpty newTid = true ->
            exists c'',
              ensureThread remote conv now' c' = (Ok newTid, c'')
              /\ creations c'' = S (creations c)
              /\ conversationThreadMap c'' !! conv = Some newTid)).
Proof.
  intros remote conv c tid ts now ttl now' newTid Hm Hne Ht.
  split; [by apply ensureThread_hit |].
  split; [reflexivity |].
  split; [intros Hle; by destruct (evict_keeps ttl now c conv tid ts Hm Ht Hle) |].
  intros Hlt c'.
  destruct (evict_removes ttl now c conv tid ts Hm Hne Ht Hlt) as [E1 E2].
  split; [exact E1 | split; [exact E2 |]].
  intros Hr Hn. eexists. split.
  - apply ensureThread_miss_creates; [| exact Hr | exact Hn].
    change (conversationThreadMap c' !! conv) with
      (conversationThreadMap (evictStaleThreads ttl now c) !! conv).
    rewrite E1. reflexivity.
  - simpl. split; [reflexivity | apply lookup_insert_eq].
Qed.

(** The stale binding is swept by a sweep that runs before the next call for
    its conversation, and that call creates a second thread; a sweep ten
    milliseconds after the last use keeps the binding. *)
Lemma thread_binding_reuse_and_eviction_witness :
  conversationThreadMap staleCache !! "conv-1" = Some "thread-1"
  /\ JS.nonEmpty "thread-1" = true
  /\ conversationThreadTimestamps staleCache !! "conv-1" = Some 0
  /\ oneHour < muchLater - 0
  /\ 10 - 0 <= oneHour
  /\ conversationThreadMap (evictStaleThreads oneHour 10 staleCache) !! "conv-1"
     = Some "thread-1"
  /\ conversationThreadMap (evictStaleThreads oneHour muchLater staleCache) !! "conv-1" = None
  /\ exists c'',
       ensureThread secondThread "conv-1" (muchLater + 5)
         (evictStaleThreads oneHour muchLater staleCache) = (Ok "thread-2", c'')
       /\ creations c'' = 2%nat.
Proof.
  assert (H1 : conversationThreadMap staleCache !! "conv-1" = Some "thread-1")
    by (vm_compute; reflexivity).
  assert (H2 : JS.nonEmpty "thread-1" = true) by reflexivity.
  assert (H3 : conversationThreadTimestamps staleCache !! "conv-1" = Some 0)
    by (vm_compute; reflexivity).
  assert (H4 : oneHour < muchLater - 0) by (vm_compute; reflexivity).
  assert (H5 : 10 - 0 <= oneHour) by (vm_compute; discriminate).
  destruct (thread_binding_reuse_and_eviction secondThread "conv-1" staleCache
              "thread-1" 0 muchLater oneHour (muchLater + 5) "thread-2" H1 H2 H3)
    as (_ & _ & _ & Hsweep).
  destruct (thread_binding_reuse_and_eviction secondThread "conv-1" staleCache
              "thread-1" 0 10 oneHour 10 "thread-2" H1 H2 H3)
    as (_ & _ & Hkeep & _).
  destruct (Hsweep H4) as (E1 & _ & Hnext).
  destruct (Hnext eq_refl eq_refl) as (c'' & Hc & Hn & _).
  split; [exact H1 | split; [exact H2 | split; [exact H3 | split; [exact H4 |]]]].
  split; [exact H5 | split; [exact (Hkeep H5) | split; [exact E1 |]]].
  exists c''. split; assumption.
Defined.

(** Claim C8, as stated, fails: two calls for the same conversation that
    both start before either has stored its binding each send a creation
    request and resolve to different thread ids. *)
Lemma concurrent_ensureThread_counterexample :
  let r := interleave twoThreads "conv-1" 0 [false; true; false; true]
             Starting Starting emptyCache in
  r.1.1 = Settled (Ok "thread-A")
  /\ r.1.2 = Settled (Ok "thread-B")
  /\ creations r.2 = 2%nat
  /\ creations emptyCache = 0%nat.
Proof. vm_compute. repeat split. Qed.

Lemma ensureThreadResume_creations (conv : string) (resp : CreateResponse) (now : Z)
    (c : Cache) :
  creations (ensureThreadResume conv resp now c).2 = creations c.
Proof.
  unfold ensureThreadResume. destruct resp as [e|st tx|a b d]; try reflexivity.
  destruct (truthyId (orElse (orElse a b) d)); reflexivity.
Qed.

(** What a call makes of the answer to its request does not depend on the
    cache it resumes in. *)
Lemma ensureThreadResume_answer (conv : string) (resp : CreateResponse) (now : Z)
    (c c' : Cache) :
  (ensureThreadResume conv resp now c).1 = (ensureThreadResume conv resp now c').1.
Proof.
  unfold ensureThreadResume. destruct resp as [e|st tx|a b d]; try reflexivity.
  destruct (truthyId (orElse (orElse a b) d)); reflexivity.
Qed.

Lemma ensureThreadResume_stores (conv : string) (a b d : option string) (tid : string)
    (now : Z) (c : Cache) :
  truthyId (orElse (orElse a b) d) = Some tid ->
  (ensureThreadResume conv (CreateBody a b d) now c).1 = Ok tid
  /\ conversationThreadMap (ensureThreadResume conv (CreateBody a b d) now c).2 !! conv
     = Some tid.
Proof.
  intros H. unfold ensureThreadResume. rewrite H. simpl.
  split; [reflexivity | apply lookup_insert_eq].
Qed.

(** Claim C8, amended.  When the second call starts after the first has
    completed with a thread id, both resolve to that id and at most one
    creation request is issued; when both calls start on an unbound
    conversation before either completes, in whichever order they then
    complete, each issues its own creation request (two requests) and each
    returns what its own request produced: when the two requests produce
    the ids [id1] and [id2], the first call returns [id1] and the second
    [id2], and the conversation is left bound to the id of the call that
    completed last. *)
Theorem sequential_ensureThread_shares_thread :
  forall (remote : nat -> CreateResponse) (conv : string) (now : Z)
         (c c1 : Cache) (tid : string),
    (ensureThread remote conv now c = (Ok tid, c1) ->
     interleave remote conv now [false; false; true; true] Starting Starting c
     = (Settled (Ok tid), Settled (Ok tid), touch conv now c1)
     /\ (creations (touch conv now c1) <= S (creations c))%nat)
    /\ (truthyId (conversationThreadMap c !! conv) = None ->
        creations
          (interleave remote conv now [false; true; false; true] Starting Starting c).2
        = S (S (creations c)))
    /\ (truthyId (conversationThreadMap c !! conv) = None ->
        forall schedule : list bool,
          schedule = [false; true; false; true] \/ schedule = [false; true; true; false] ->
          let r := interleave remote conv now schedule Starting Starting c in
          creations r.2 = S (S (creations c))
          /\ r.1.1 = Settled (ensureThreadResume conv (remote (creations c)) now c).1
          /\ r.1.2 = Settled (ensureThreadResume conv (remote (S (creations c))) now c).1
          /\ (forall (a1 b1 d1 a2 b2 d2 : option string) (id1 id2 : string),
                remote (creations c) = CreateBody a1 b1 d1 ->
                truthyId (orElse (orElse a1 b1) d1) = Some id1 ->
                remote (S (creations c)) = CreateBody a2 b2 d2 ->
                truthyId (orElse (orElse a2 b2) d2) = Some id2 ->
                r.1.1 = Settled (Ok id1)
                /\ r.1.2 = Settled (Ok id2)
                /\ conversationThreadMap r.2 !! conv
                   = Some (if List.last schedule false then id2 else id1))).
Proof.
  intros remote conv now c c1 tid. split; [| split]; cycle 2.
  { intros Hmiss schedule Hs. cbv zeta.
    set (c0 := countCreation (countCreation c)).
    set (resp1 := remote (creations c)). set (resp2 := remote (S (creations c))).
    assert (HA : interleave remote conv now [false; true; false; true] Starting Starting c
                 = (Settled (ensureThreadResume conv resp1 now c0).1,
                    Settled (ensureThreadResume conv resp2 now
                               (ensureThreadResume conv resp1 now c0).2).1,
                    (ensureThreadResume conv resp2 now
                       (ensureThreadResume conv resp1 now c0).2).2)).
    { simpl. unfold ensureThreadBegin. rewrite Hmiss. simpl. rewrite Hmiss. simpl.
      fold resp1 resp2 c0.
      destruct (ensureThreadResume conv resp1 now c0) as [r1 c2]. simpl.
      destruct (ensureThreadResume conv resp2 now c2) as [r2 c3]. reflexivity. }
    assert (HB : interleave remote conv now [false; true; true; false] Starting Starting c
                 = (Settled (ensureThreadResume conv resp1 now
                               (ensureThreadResume conv resp2 now c0).2).1,
                    Settled (ensureThreadResume conv resp2 now c0).1,
                    (ensureThreadResume conv resp1 now
                       (ensureThreadResume conv resp2 now c0).2).2)).
    { simpl. unfold ensureThreadBegin. rewrite Hmiss. simpl. rewrite Hmiss. simpl.
      fold resp1 resp2 c0.
      destruct (ensureThreadResume conv resp2 now c0) as [r2 c2]. simpl.
      destruct (ensureThreadResume conv resp1 now c2) as [r1 c3]. reflexivity. }
    destruct Hs as [-> | ->]; [rewrite HA | rewrite HB]; cbn [fst snd List.last].
    - split; [rewrite !ensureThreadResume_creations; reflexivity |].
      split; [f_equal; apply ensureThreadResume_answer |].
      split; [f_equal; apply ensureThreadResume_answer |].
      intros a1 b1 d1 a2 b2 d2 id1 id2 E1 H1 E2 H2.
      subst resp1 resp2. rewrite E1, E2.
      destruct (ensureThreadResume_stores conv a1 b1 d1 id1 now c0 H1) as (R1 & _).
      destruct (ensureThreadResume_stores conv a2 b2 d2 id2 now
                  (ensureThreadResume conv (CreateBody a1 b1 d1) now c0).2 H2)
        as (R2 & B2).
      rewrite R1, R2, B2. repeat split.
    - split; [rewrite !ensureThreadResume_creations; reflexivity |].
      split; [f_equal; apply ensureThreadResume_answer |].
      split; [f_equal; apply ensureThreadResume_answer |].
      intros a1 b1 d1 a2 b2 d2 id1 id2 E1 H1 E2 H2.
      subst resp1 resp2. rewrite E1, E2.
      destruct (ensureThreadResume_stores conv a2 b2 d2 id2 now c0 H2) as (R2 & _).
      destruct (ensureThreadResume_stores conv a1 b1 d1 id1 now
                  (ensureThreadResume conv (CreateBody a2 b2 d2) now c0).2 H1)
        as (R1 & B1).
      rewrite R1, R2, B1. repeat split. }
  - intros H. pose proof (ensureThread_ok_bound _ _ _ _ _ _ H) as (Hb & Hn & Hc).
    split; [| exact Hc].
    pose proof (ensureThread_hit remote conv now c1 tid Hb Hn) as Hhit.
    revert H Hhit. unfold ensureThread. simpl.
    destruct (ensureThreadBegin remote conv now c) as [[|resp|r] c0] eqn:E0.
    + unfold ensureThreadBegin in E0.
      destruct (truthyId (conversationThreadMap c !! conv)); discriminate.
    + simpl. intros ->.
      destruct (ensureThreadBegin remote conv now c1) as [[|resp'|r'] c2] eqn:E1;
        simpl; intros Hh.
      * unfold ensureThreadBegin in E1.
        destruct (truthyId (conversationThreadMap c1 !! conv)); discriminate.
      * unfold ensureThreadBegin in E1. rewrite Hb in E1. simpl in E1.
        rewrite Hn in E1. discriminate.
      * injection Hh as -> ->. reflexivity.
    + simpl. intros [= -> ->].
      destruct (ensureThreadBegin remote conv now c1) as [[|resp'|r'] c2] eqn:E1;
        simpl; intros Hh.
      * unfold ensureThreadBegin in E1.
        destruct (truthyId (conversationThreadMap c1 !! conv)); discriminate.
      * unfold ensureThreadBegin in E1. rewrite Hb in E1. simpl in E1.
        rewrite Hn in E1. discriminate.
      * injection Hh as -> ->. reflexivity.
  - intros Hmiss. simpl. unfold ensureThreadBegin. rewrite Hmiss. simpl.
    rewrite Hmiss. simpl.
    destruct (ensureThreadResume conv (remote (creations c)) now
                (countCreation (countCreation c))) as [r1 c2] eqn:E1.
    assert (creations c2 = S (S (creations c))) as Hc2.
    { revert E1. unfold ensureThreadResume.
      destruct (remote (creations c)) as [e|st tx|a b d].
      - intros [= _ <-]. reflexivity.
      - intros [= _ <-]. reflexivity.
      - destruct (truthyId (orElse (orElse a b) d)); intros [= _ <-]; reflexivity. }
    destruct (ensureThreadResume conv (remote (S (creations c))) now c2)
      as [r2 c3] eqn:E2.
    simpl. revert E2. unfold ensureThreadResume.
    destruct (remote (S (creations c))) as [e|st tx|a b d].
    + intros [= _ <-]. exact Hc2.
    + intros [= _ <-]. exact Hc2.
    + destruct (truthyId (orElse (orElse a b) d)); intros [= _ <-]; exact Hc2.
Qed.

(** From the empty cache: one call after the other shares the first thread;
    the two calls raced create two, the first returns the first thread and
    the second the second, and when the first call completes last the
    conversation is left bound to the first thread. *)
Lemma sequential_ensureThread_shares_thread_witness :
  let c1 := (ensureThread twoThreads "conv-1" 0 emptyCache).2 in
  let r := interleave twoThreads "conv-1" 0 [false; true; true; false]
             Starting Starting emptyCache in
  ensureThread twoThreads "conv-1" 0 emptyCache = (Ok "thread-A", c1)
  /\ truthyId (conversationThreadMap emptyCache !! "conv-1") = None
  /\ twoThreads (creations emptyCache) = CreateBody (Some "thread-A") None None
  /\ truthyId (orElse (orElse (Some "thread-A") None) None) = Some "thread-A"
  /\ twoThreads (S (creations emptyCache)) = CreateBody (Some "thread-B") None None
  /\ truthyId (orElse (orElse (Some "thread-B") None) None) = Some "thread-B"
  /\ interleave twoThreads "conv-1" 0 [false; false; true; true] Starting Starting emptyCache
     = (Settled (Ok "thread-A"), Settled (Ok "thread-A"), touch "conv-1" 0 c1)
  /\ creations
       (interleave twoThreads "conv-1" 0 [false; true; false; true]
          Starting Starting emptyCache).2 = 2%nat
  /\ r.1.1 = Settled (Ok "thread-A")
  /\ r.1.2 = Settled (Ok "thread-B")
  /\ conversationThreadMap r.2 !! "conv-1" = Some "thread-A".
Proof.
  intros c1 r.
  assert (H1 : ensureThread twoThreads "conv-1" 0 emptyCache = (Ok "thread-A", c1))
    by (vm_compute; reflexivity).
  assert (H2 : truthyId (conversationThreadMap emptyCache !! "conv-1") = None)
    by (vm_compute; reflexivity).
  assert (E1 : twoThreads (creations emptyCache) = CreateBody (Some "thread-A") None None)
    by reflexivity.
  assert (T1 : truthyId (orElse (orElse (Some "thread-A") None) None) = Some "thread-A")
    by reflexivity.
  assert (E2 : twoThreads (S (creations emptyCache)) = CreateBody (Some "thread-B") None None)
    by reflexivity.
  assert (T2 : truthyId (orElse (orElse (Some "thread-B") None) None) = Some "thread-B")
    by reflexivity.
  destruct (sequential_ensureThread_shares_thread twoThreads "conv-1" 0 emptyCache c1
              "thread-A") as (Hseq & Hrace & Hboth).
  destruct (Hseq H1) as (Hsame & _).
  destruct (Hboth H2 [false; true; true; false] (or_intror eq_refl))
    as (_ & _ & _ & Hids).
  destruct (Hids _ _ _ _ _ _ _ _ E1 T1 E2 T2) as (R1 & R2 & B).
  split; [exact H1 | split; [exact H2 | split; [exact E1 | split; [exact T1 |]]]].
  split; [exact E2 | split; [exact T2 | split; [exact Hsame | split; [exact (Hrace H2) |]]]].
  split; [exact R1 | split; [exact R2 | exact B]].
Defined.

End GatewayCacheFacts.

(* ===================================================================== *)
(** ** Retries and the fallback reply *)
(* ===================================================================== *)

Section StringFacts.

Lemma startsWith_app (k r : string) : JS.startsWith (k +:+ r) k = true.
Proof.
  induction k as [|a k IH]; simpl; [reflexivity |].
  rewrite Ascii.eqb_refl. exact IH.
Qed.

Lemma includes_here (s k : string) : JS.startsWith s k = true -> JS.includes s k = true.
Proof. intros H. destruct s; simpl in *; rewrite H; reflexivity. Qed.

Lemma includes_app_r (p s k : string) :
  JS.includes s k = true -> JS.includes (p +:+ s) k = true.
Proof.
  intros H. induction p as [|a p IH]; simpl; [exact H |].
  rewrite IH. apply orb_true_r.
Qed.

Lemma includes_middle (p k r : string) : JS.includes (p +:+ k +:+ r) k = true.
Proof. apply includes_app_r, includes_here, startsWith_app. Qed.

End StringFacts.

Section RetryFacts.
Import Gateway Samples.
Variable remote : nat -> CreateResponse.
Variable maxRetries : Z.
Variable retryDelay : Z.
Variable env : nat -> AttemptEnv.
Variable opts : AgentCallOptions.

Lemma apology_isApology : isApology (agentId opts) (reply (apology (agentId opts))).
Proof.
  exists (apology (agentId opts)). repeat split.
  unfold apology. apply includes_middle.
Qed.

Lemma fallback_isApology : isApology (agentId opts) (reply (fallback (agentId opts))).
Proof.
  exists (fallback (agentId opts)). repeat split.
  unfold fallback. apply includes_middle.
Qed.

(** The loop returns the result of a pass that succeeded, or the apology. *)
Lemma retryLoop_answers (fuel attempt : nat) (waited : list Z) (c : Cache) :
  let run := retryLoop remote maxRetries retryDelay env opts fuel attempt waited c in
  fromAttempt remote env opts (returned run) \/ isApology (agentId opts) (returned run).
Proof.
  revert attempt waited c. induction fuel as [|fuel IH]; intros attempt waited c; simpl.
  - right. apply fallback_isApology.
  - destruct (maxRetries <? Z.of_nat attempt); simpl.
    + right. apply fallback_isApology.
    + destruct (attemptBody remote opts (env attempt) c) as [[r|err] c'] eqn:E; simpl.
      * left. exists attempt, c, c'. exact E.
      * destruct (negb (isTransient err) || (maxRetries <? Z.of_nat (S attempt))); simpl.
        -- right. apply apology_isApology.
        -- apply IH.
Qed.




End RetryFacts.

Section CallFacts.
Import Gateway Samples.

(** Every pass against the unreachable service fails with a transient
    error, from any cache. *)
Lemma unreachable_fails (opts : AgentCallOptions) (k : nat) (c0 : Cache) :
  exists err c1,
    attemptBody unreachable opts (unreachableEnv k) c0 = (Raise err, c1)
    /\ isTransient err = true.
Proof.
  unfold attemptBody, ensureThread, ensureThreadBegin.
  destruct (truthyId (conversationThreadMap c0 !! conversationId opts)) as [t|]; simpl.
  - eexists _, _. split; reflexivity.
  - eexists _, _. split; reflexivity.
Qed.



Lemma jitter_bounds (rnd : Q) :
  (0 <= rnd)%Q -> (rnd < 1)%Q -> 0 <= Qfloor (rnd * inject_Z 100) < 100.
Proof.
  intros H0 H1. split.
  - rewrite <- (Qfloor_Z 0). apply Qfloor_resp_le.
    apply Qmult_le_0_compat; [exact H0 | discriminate].
  - rewrite Zlt_Qlt. eapply Qle_lt_trans; [apply Qfloor_le |].
    destruct rnd as [a b]. unfold Qlt in *. simpl in *. lia.
Qed.

(** Claim C7.  With [retryDelay = 1000], whenever the random source gives a
    value in [0, 1), the delay computed before retry 1, 2 or 3 is
    [1000 * 2^(attempt-1)] plus a jitter below 100, so it lies in
    [1000,1100), [2000,2100) or [4000,4100); and with [maxRetries = 3] a call
    whose every pass fails with a transient error waits exactly these three
    delays, in this order. *)
Theorem backoff_delays_in_range :
  (forall rnd : Q,
      (0 <= rnd)%Q -> (rnd < 1)%Q ->
      exists jitter,
        0 <= jitter < 100
        /\ backoff 1000 1 rnd = 1000 * 2 ^ (1 - 1) + jitter
        /\ backoff 1000 2 rnd = 1000 * 2 ^ (2 - 1) + jitter
        /\ backoff 1000 3 rnd = 1000 * 2 ^ (3 - 1) + jitter
        /\ 1000 <= backoff 1000 1 rnd < 1100
        /\ 2000 <= backoff 1000 2 rnd < 2100
        /\ 4000 <= backoff 1000 3 rnd < 4100)
  /\ (forall (remote : nat -> CreateResponse) (env : nat -> AttemptEnv)
             (opts : AgentCallOptions) (c : Cache),
        (forall k c0, exists err c1,
            attemptBody remote opts (env k) c0 = (Raise err, c1)
            /\ isTransient err = true) ->
        delays (callAgentWithStream remote 3 1000 env opts c)
        = [backoff 1000 1 (random (env 0%nat));
           backoff 1000 2 (random (env 1%nat));
           backoff 1000 3 (random (env 2%nat))]).
Proof.
  split.
  - intros rnd H0 H1.
    exists (Qfloor (rnd * inject_Z 100)).
    pose proof (jitter_bounds rnd H0 H1) as Hj.
    unfold backoff.
    change (Z.of_nat 1 - 1) with 0. change (Z.of_nat 2 - 1) with 1.
    change (Z.of_nat 3 - 1) with 2.
    change (1 - 1) with 0. change (2 - 1) with 1. change (3 - 1) with 2.
    change (2 ^ 0) with 1. change (2 ^ 1) with 2. change (2 ^ 2) with 4.
    repeat split; try reflexivity; lia.
  - intros remote env opts c Hall.
    unfold callAgentWithStream. change (Z.to_nat (3 + 1)) with 4%nat.
    cbn [retryLoop].
    change (3 <? Z.of_nat 0) with false. cbv iota.
    destruct (Hall 0%nat c) as (e0 & c1 & -> & ->).
    change (3 <? Z.of_nat 1) with false. cbn [negb orb].
    destruct (Hall 1%nat c1) as (e1 & c2 & -> & ->).
    change (3 <? Z.of_nat 2) with false. cbn [negb orb].
    destruct (Hall 2%nat c2) as (e2 & c3 & -> & ->).
    change (3 <? Z.of_nat 3) with false. cbn [negb orb].
    destruct (Hall 3%nat c3) as (e3 & c4 & -> & ->).
    change (3 <? Z.of_nat 4) with true. cbn [negb orb].
    reflexivity.
Qed.

(** With the random source at one half the three delays are 1050, 2050 and
    4050 milliseconds. *)
Lemma backoff_delays_in_range_witness :
  (0 <= 1 # 2)%Q /\ (1 # 2 < 1)%Q
  /\ (forall k c0, exists err c1,
        attemptBody unreachable catalogCall (unreachableEnv k) c0 = (Raise err, c1)
        /\ isTransient err = true)
  /\ (1000 <= backoff 1000 1 (1 # 2) < 1100
      /\ 2000 <= backoff 1000 2 (1 # 2) < 2100
      /\ 4000 <= backoff 1000 3 (1 # 2) < 4100)
  /\ delays (callAgentWithStream unreachable 3 1000 unreachableEnv catalogCall emptyCache)
     = [1050; 2050; 4050].
Proof.
  assert (H0 : (0 <= 1 # 2)%Q) by (unfold Qle; simpl; lia).
  assert (H1 : (1 # 2 < 1)%Q) by (unfold Qlt; simpl; lia).
  pose proof (unreachable_fails catalogCall) as H2.
  destruct backoff_delays_in_range as (Hone & Hrun).
  destruct (Hone (1 # 2) H0 H1) as (j & _ & _ & _ & _ & R1 & R2 & R3).
  split; [exact H0 | split; [exact H1 | split; [exact H2 | split]]].
  - split; [exact R1 | split; [exact R2 | exact R3]].
  - rewrite (Hrun unreachable unreachableEnv catalogCall emptyCache H2). reflexivity.
Defined.

End CallFacts.

(* ===================================================================== *)
(** ** Decoding the event stream *)
(* ===================================================================== *)

Section StreamFacts.
Import Gateway Samples.

Lemma take_all (s : string) (k : nat) :
  (String.length s <= k)%nat -> JS.take k s = s.
Proof.
  revert k. induction s as [|a s IH]; intros k Hk; destruct k; simpl in *;
    try reflexivity; try lia.
  rewrite IH; [reflexivity | lia].
Qed.

Lemma drop_all (s : string) (k : nat) :
  (String.length s <= k)%nat -> JS.drop k s = EmptyString.
Proof.
  revert k. induction s as [|a s IH]; intros k Hk; destruct k; simpl in *;
    try reflexivity; try lia.
  apply IH. lia.
Qed.

(** The example body delivered in two reads, cut at any position. *)
Lemma example_splits :
  Forall (fun k => collect [JS.take k exampleBody; JS.drop k exampleBody] None = Ok hiResult)
         (seq 0 (S (String.length exampleBody))).
Proof.
  repeat (constructor; [vm_compute; reflexivity |]). constructor.
Qed.

(** Claim C6.  The example body, delivered in one read or cut into two
    reads at any position, is decoded into the one assistant message and the
    content [hi]; a pass through the [try] block that receives it returns
    that content as soon as the thread is resolved. *)
Theorem example_body_yields_hi :
  collect [exampleBody] None = Ok hiResult
  /\ content hiResult = "hi"
  /\ (forall k : nat,
        collect [JS.take k exampleBody; JS.drop k exampleBody] None = Ok hiResult)
  /\ (forall (remote : nat -> CreateResponse) (opts : AgentCallOptions)
             (t1 t2 : Z) (rnd : Q) (c : Cache),
        let e := {| nowEnsure := t1; runResponse := RunStream [exampleBody] None;
                    nowEvict := t2; random := rnd |} in
        match ensureThread remote (conversationId opts) t1 c with
        | (Ok _, c1) =>
            attemptBody remote opts e c
            = (Ok hiResult, evictStaleThreads (60 * 60 * 1000) t2 c1)
        | (Raise err, c1) => attemptBody remote opts e c = (Raise err, c1)
        end).
Proof.
  assert (H1 : collect [exampleBody] None = Ok hiResult) by (vm_compute; reflexivity).
  split; [exact H1 | split; [reflexivity | split]].
  - intros k.
    destruct (le_lt_dec k (String.length exampleBody)) as [Hle | Hgt].
    + pose proof example_splits as HF.
      rewrite Forall_forall in HF. apply HF.
      apply list_elem_of_In, in_seq. lia.
    + rewrite take_all, drop_all by lia.
      vm_compute. reflexivity.
  - intros remote opts t1 t2 rnd c e. subst e. unfold attemptBody.
    cbn [runResponse nowEnsure nowEvict].
    destruct (ensureThread remote (conversationId opts) t1 c) as [[tid|err] c1];
      [| reflexivity].
    rewrite H1. reflexivity.
Qed.

End StreamFacts.

(* ===================================================================== *)
(** ** Reclassifying the chunks *)
(* ===================================================================== *)

Section ReclassifierFacts.
Import Reclassifier Samples.

(** Claim C9, as stated, fails: the plan-like chunk is not surfaced as a
    metadata event.  Received as an object it produces no event at all;
    received as a text line it produces one event whose type is [meta]. *)
Lemma plan_chunk_counterexample :
  (processChunk 0 (ChunkValue planObject) None).1 = []
  /\ (processChunk 0 (ChunkValue (JStr planLine)) None).1 = [event "meta" planObject]
  /\ existsb (isEventOf "metadata") (processChunk 0 (ChunkValue planObject) None).1 = false
  /\ existsb (isEventOf "metadata") (processChunk 0 (ChunkValue (JStr planLine)) None).1
     = false.
Proof. vm_compute. repeat split. Qed.

(** Claim C9, amended.  Whatever the clock and the carried context, the
    plan-like chunk received as a text line (or as the bytes of that line)
    yields exactly one event, of type [meta], whose payload is the parsed
    object; received as an object it yields no event; in neither form does
    it yield a message, a status or a raw event, and the carried context is
    unchanged. *)
Theorem plan_chunk_never_a_message :
  forall (now : Z) (prev : option json),
    processChunk now (ChunkValue (JStr planLine)) prev = ([event "meta" planObject], prev)
    /\ processChunk now (ChunkBytes planLine) prev = ([event "meta" planObject], prev)
    /\ processChunk now (ChunkValue planObject) prev = ([], prev)
    /\ Json.parse planLine = Some planObject
    /\ isPlanLike planObject = true
    /\ isEventOf "message" (event "meta" planObject) = false
    /\ isEventOf "status" (event "meta" planObject) = false
    /\ isEventOf "raw" (event "meta" planObject) = false.
Proof.
  intros now prev. repeat split.
Qed.

(** Claim C10.  For one chunk the metadata extraction emits at most one
    metadata event.  The event it emits is of the first kind, in the order
    planner recommendation, agent routing decision, supervisor decision,
    agent transition, workflow-context change, whose shape the chunk has;
    and unless the last message of the chunk is [null] (reading it throws
    and nothing is emitted), the first kind whose shape the chunk has is
    emitted. *)
Theorem metadata_first_match :
  forall (now : Z) (chunk : Chunk) (prev : option json),
    let events := (emitMetadata now chunk prev).1 in
    (length events <= 1)%nat
    /\ (forall e, e ∈ events ->
          exists m kind,
            e = event "metadata" m
            /\ (extractMetadata now chunk prev).1 = Some m
            /\ get m "type" = Some (JStr kind)
            /\ firstMatch chunk prev = Some kind)
    /\ (lastMessageIsNull chunk = false ->
        forall kind, firstMatch chunk prev = Some kind ->
          exists m, events = [event "metadata" m] /\ get m "type" = Some (JStr kind)).
Proof.
  intros now chunk prev events. subst events. unfold emitMetadata.
  destruct chunk as [bytes | v].
  { simpl. split; [lia | split]; [intros e He; inversion He | intros _ k Hk; discriminate]. }
  destruct v as [ | b | n | s | items | fields];
    try (simpl; split; [lia | split];
         [intros e He; inversion He | intros _ k Hk; discriminate]).
  unfold extractMetadata, firstMatch, lastMessageIsNull, priority.
  cbv beta iota zeta.
  set (c := JObj fields). clearbody c.
  unfold isPlannerRecommendation, isAgentRoutingDecision, isSupervisorDecision,
    isAgentTransition, isWorkflowContextChange, orValue.
  destruct (truthyO (get c "plannerRecommendation")) eqn:Ep1; simpl;
    rewrite ?Ep1; simpl.
  { split; [lia | split].
    - intros e He. apply list_elem_of_singleton in He. subst e.
      eexists _, _. repeat split.
    - intros _ k [= <-]. eexists. split; reflexivity. }
  destruct (truthyO (get c "planningRecommendation")) eqn:Ep2; simpl;
    rewrite ?Ep2; simpl.
  { split; [lia | split].
    - intros e He. apply list_elem_of_singleton in He. subst e.
      eexists _, _. repeat split.
    - intros _ k [= <-]. eexists. split; reflexivity. }
  destruct (routable c) eqn:Er; simpl;
  destruct (lastMessage c) as [ | | lastMsg] eqn:El; simpl;
  try destruct (truthyO (get lastMsg "agent")) eqn:Ea; simpl;
  try destruct (isStr (get lastMsg "agent") "supervisor") eqn:Es; simpl;
  try destruct (isStr (get lastMsg "agent") "user") eqn:Eu; simpl;
  try destruct (isStr (get lastMsg "agent") "planner") eqn:Epl; simpl;
  try destruct (truthyO (get c "supervisor")) eqn:Esup; simpl;
  try destruct (isStr (get c "agent") "supervisor") eqn:Eag; simpl;
  try destruct (truthyO (get c "workflowContext")) eqn:Ew; simpl;
  try destruct (strictEq (get c "workflowContext") prev) eqn:Eq; simpl.
  all: split; [lia | split];
    [ intros e He;
      first [ by inversion He
            | apply list_elem_of_singleton in He; subst e;
              eexists _, _; repeat split ]
    | intros Hnn k Hk;
      first [ discriminate Hnn | discriminate Hk
            | injection Hk as <-; eexists; split; reflexivity ] ].
Qed.

(** A chunk that has both the routing and the supervisor shape: only the
    routing decision is emitted. *)
Lemma metadata_first_match_witness :
  lastMessageIsNull routingChunk = false
  /\ firstMatch routingChunk None = Some "agent_routing_decision"
  /\ (exists m, (emitMetadata 0 routingChunk None).1 = [event "metadata" m]
                /\ get m "type" = Some (JStr "agent_routing_decision"))
  /\ (forall e, e ∈ (emitMetadata 0 routingChunk None).1 ->
        exists m, e = event "metadata" m
                  /\ get m "type" = Some (JStr "agent_routing_decision")).
Proof.
  assert (H1 : lastMessageIsNull routingChunk = false) by reflexivity.
  assert (H2 : firstMatch routingChunk None = Some "agent_routing_decision")
    by reflexivity.
  destruct (metadata_first_match 0 routingChunk None) as (_ & Honly & Hfirst).
  split; [exact H1 | split; [exact H2 | split]].
  - exact (Hfirst H1 _ H2).
  - intros e He. destruct (Honly e He) as (m & kind & -> & _ & Ht & Hk).
    exists m. split; [reflexivity |].
    rewrite H2 in Hk. injection Hk as <-. exact Ht.
Defined.

End ReclassifierFacts.

(* ===================================================================== *)
(** ** More on polling the token endpoint *)
(* ===================================================================== *)

Section PollMore.
Import Ciba Samples MoreSamples.
Variable provider : nat -> PollResponse.
Variable maxAttempts : nat.

(** The bookkeeping of the loop: before attempt [a] it has issued [a - 1]
    requests and waited [a - 2] times. *)
Lemma pollFrom_skips (n fuel attempt : nat) :
  (1 <= attempt)%nat ->
  (attempt + n <= S maxAttempts)%nat ->
  (forall j, (attempt <= j < attempt + n)%nat -> goesOn maxAttempts j (provider j)) ->
  pollFrom provider maxAttempts (n + fuel) attempt (attempt - 1) (attempt - 2)
  = pollFrom provider maxAttempts fuel (attempt + n) (attempt + n - 1) (attempt + n - 2).
Proof.
  revert attempt. induction n as [|n IH]; intros attempt H1 Hle Hgo.
  - simpl. rewrite !Nat.add_0_r. reflexivity.
  - cbn [Nat.add pollFrom].
    destruct (maxAttempts <? attempt)%nat eqn:Hc; [apply Nat.ltb_lt in Hc; lia |].
    assert (Hw : (if (1 <? attempt)%nat then S (attempt - 2) else (attempt - 2)%nat)
                 = (S attempt - 2)%nat).
    { destruct (1 <? attempt)%nat eqn:E;
        [apply Nat.ltb_lt in E | apply Nat.ltb_ge in E]; lia. }
    assert (Hf : S (attempt - 1) = (S attempt - 1)%nat) by lia.
    destruct (Hgo attempt) as [-> | (Hlt & m & -> & ->)]; [lia | |].
    + rewrite Hw, Hf, IH; [| lia | lia | intros j Hj; apply Hgo; lia].
      replace (S attempt + n)%nat with (attempt + S n)%nat by lia. reflexivity.
    + destruct (attempt =? maxAttempts)%nat eqn:He; [apply Nat.eqb_eq in He; lia |].
      rewrite Hw, Hf, IH; [| lia | lia | intros j Hj; apply Hgo; lia].
      replace (S attempt + n)%nat with (attempt + S n)%nat by lia. reflexivity.
Qed.

(** The run reaches attempt [k] when every earlier attempt goes on. *)
Lemma poll_reaches (k : nat) :
  (1 <= k <= maxAttempts)%nat ->
  (forall j, (1 <= j < k)%nat -> goesOn maxAttempts j (provider j)) ->
  pollCIBAResult provider maxAttempts
  = pollFrom provider maxAttempts (maxAttempts - (k - 1)) k (k - 1) (k - 2).
Proof.
  intros Hk Hgo. unfold pollCIBAResult.
  pose proof (pollFrom_skips (k - 1) (maxAttempts - (k - 1)) 1) as H.
  replace (k - 1 + (maxAttempts - (k - 1)))%nat with maxAttempts in H by lia.
  replace (1 + (k - 1))%nat with k in H by lia.
  apply H; [lia | lia | intros j Hj; apply Hgo; lia].
Qed.

Lemma pollFrom_bounds (fuel attempt : nat) :
  (1 <= attempt)%nat ->
  let run := pollFrom provider maxAttempts fuel attempt (attempt - 1) (attempt - 2) in
  (attempt - 1 <= fetches run)%nat
  /\ (fetches run <= Nat.max (attempt - 1) maxAttempts)%nat
  /\ waits run = (fetches run - 1)%nat.
Proof.
  revert attempt. induction fuel as [|fuel IH]; intros attempt H1; cbn [pollFrom].
  - simpl. lia.
  - destruct (maxAttempts <? attempt)%nat eqn:Hc.
    + simpl. lia.
    + apply Nat.ltb_ge in Hc.
      assert (Hw : (if (1 <? attempt)%nat then S (attempt - 2) else (attempt - 2)%nat)
                   = (S attempt - 2)%nat).
      { destruct (1 <? attempt)%nat eqn:E;
          [apply Nat.ltb_lt in E | apply Nat.ltb_ge in E]; lia. }
      assert (Hf : S (attempt - 1) = (S attempt - 1)%nat) by lia.
      rewrite Hw, Hf.
      destruct (tryAttempt (provider attempt)) as [r | | m].
      * simpl. lia.
      * specialize (IH (S attempt)). cbv zeta in IH. lia.
      * destruct (JS.includes m pollingErrorPrefix); [simpl; lia |].
        destruct (attempt =? maxAttempts)%nat; [simpl; lia |].
        specialize (IH (S attempt)). cbv zeta in IH. lia.
Qed.

End PollMore.

Section PollTheorems.
Import Ciba Samples MoreSamples.

Lemma poll_respects_bounds (provider : nat -> PollResponse) (maxAttempts : nat) :
  (fetches (pollCIBAResult provider maxAttempts) <= maxAttempts)%nat
  /\ waits (pollCIBAResult provider maxAttempts)
     = (fetches (pollCIBAResult provider maxAttempts) - 1)%nat.
Proof.
  pose proof (pollFrom_bounds provider maxAttempts maxAttempts 1) as H.
  cbv zeta in H. change (1 - 1)%nat with 0%nat in H. change (1 - 2)%nat with 0%nat in H.
  unfold pollCIBAResult.
  destruct H as (_ & H2 & H3); [lia |].
  split; [lia | exact H3].
Qed.

(** The polling never exceeds its ceiling: whatever the token endpoint
    answers, at most [maxAttempts] requests are issued, and the waits of
    [interval] seconds are one fewer than the requests (there is no wait
    before the first one); with a ceiling of zero nothing is requested and
    the call fails with the timeout. *)
Theorem poll_respects_ceiling :
  forall (provider : nat -> PollResponse) (maxAttempts : nat),
    let run := pollCIBAResult provider maxAttempts in
    (fetches run <= maxAttempts)%nat
    /\ waits run = (fetches run - 1)%nat
    /\ (maxAttempts = 0%nat ->
        run = {| result := Thrown timeoutMessage; fetches := 0; waits := 0 |}).
Proof.
  intros provider maxAttempts run. subst run.
  destruct (poll_respects_bounds provider maxAttempts) as (H2 & H3).
  split; [exact H2 | split; [exact H3 |]].
  intros ->. reflexivity.
Qed.

Lemma poll_respects_ceiling_witness :
  pollCIBAResult alwaysPending 0
  = {| result := Thrown timeoutMessage; fetches := 0; waits := 0 |}
  /\ (fetches (pollCIBAResult approvesThird 20) <= 20)%nat.
Proof.
  destruct (poll_respects_ceiling alwaysPending 0) as (_ & _ & H0).
  destruct (poll_respects_ceiling approvesThird 20) as (H1 & _).
  split; [exact (H0 eq_refl) | exact H1].
Defined.

(** While the provider answers [authorization_pending] the polling goes on,
    and the first other answer decides: a token response at attempt [k]
    makes the call return the tokens after exactly [k] requests and [k - 1]
    waits. *)
Theorem poll_approval_after_pending :
  forall (provider : nat -> PollResponse) (maxAttempts k : nat)
         (tokens : CIBATokenResponse),
    (1 <= k <= maxAttempts)%nat ->
    (forall j, (1 <= j < k)%nat ->
       exists d, provider j = PollError (Some "authorization_pending") d) ->
    provider k = PollOk tokens ->
    pollCIBAResult provider maxAttempts
    = {| result := Returned (Some tokens); fetches := k; waits := k - 1 |}.
Proof.
  intros provider maxAttempts k tokens Hk Hp Hok.
  rewrite (poll_reaches provider maxAttempts k Hk).
  - destruct (maxAttempts - (k - 1))%nat as [|fuel] eqn:Hf; [lia |].
    cbn [pollFrom].
    destruct (maxAttempts <? k)%nat eqn:Hc; [apply Nat.ltb_lt in Hc; lia |].
    rewrite Hok. cbn [tryAttempt].
    f_equal; destruct (1 <? k)%nat eqn:E;
      [apply Nat.ltb_lt in E | apply Nat.ltb_ge in E | apply Nat.ltb_lt in E
       | apply Nat.ltb_ge in E]; lia.
  - intros j Hj. destruct (Hp j Hj) as [d ->]. left. reflexivity.
Qed.

Lemma poll_approval_after_pending_witness :
  (1 <= 3 <= 20)%nat
  /\ (forall j, (1 <= j < 3)%nat ->
        exists d, approvesThird j = PollError (Some "authorization_pending") d)
  /\ approvesThird 3 = PollOk sampleTokens
  /\ pollCIBAResult approvesThird 20
     = {| result := Returned (Some sampleTokens); fetches := 3; waits := 2 |}.
Proof.
  assert (H1 : (1 <= 3 <= 20)%nat) by lia.
  assert (H2 : forall j, (1 <= j < 3)%nat ->
                 exists d, approvesThird j = PollError (Some "authorization_pending") d).
  { intros j Hj. exists None. unfold approvesThird.
    destruct (j <? 3)%nat eqn:E; [reflexivity | apply Nat.ltb_ge in E; lia]. }
  assert (H3 : approvesThird 3 = PollOk sampleTokens) by reflexivity.
  split; [exact H1 | split; [exact H2 | split; [exact H3 |]]].
  exact (poll_approval_after_pending approvesThird 20 3 sampleTokens H1 H2 H3).
Defined.

(** A refusal is a result, not a failure: [access_denied] at attempt [k],
    after pending answers, makes the call return [null] at once, with no
    further request. *)
Theorem poll_denial_returns_null :
  forall (provider : nat -> PollResponse) (maxAttempts k : nat) (d : option string),
    (1 <= k <= maxAttempts)%nat ->
    (forall j, (1 <= j < k)%nat ->
       exists d', provider j = PollError (Some "authorization_pending") d') ->
    provider k = PollError (Some "access_denied") d ->
    pollCIBAResult provider maxAttempts
    = {| result := Returned None; fetches := k; waits := k - 1 |}.
Proof.
  intros provider maxAttempts k d Hk Hp Hden.
  rewrite (poll_reaches provider maxAttempts k Hk).
  - destruct (maxAttempts - (k - 1))%nat as [|fuel] eqn:Hf; [lia |].
    cbn [pollFrom].
    destruct (maxAttempts <? k)%nat eqn:Hc; [apply Nat.ltb_lt in Hc; lia |].
    rewrite Hden.
    change (tryAttempt (PollError (Some "access_denied") d)) with (AttemptReturn None).
    cbv iota.
    f_equal; destruct (1 <? k)%nat eqn:E;
      [apply Nat.ltb_lt in E | apply Nat.ltb_ge in E | apply Nat.ltb_lt in E
       | apply Nat.ltb_ge in E]; lia.
  - intros j Hj. destruct (Hp j Hj) as [d' ->]. left. reflexivity.
Qed.

Lemma poll_denial_returns_null_witness :
  (1 <= 2 <= 20)%nat
  /\ (forall j, (1 <= j < 2)%nat ->
        exists d, deniesSecond j = PollError (Some "authorization_pending") d)
  /\ deniesSecond 2 = PollError (Some "access_denied") None
  /\ pollCIBAResult deniesSecond 20
     = {| result := Returned None; fetches := 2; waits := 1 |}.
Proof.
  assert (H1 : (1 <= 2 <= 20)%nat) by lia.
  assert (H2 : forall j, (1 <= j < 2)%nat ->
                 exists d, deniesSecond j = PollError (Some "authorization_pending") d).
  { intros j Hj. exists None. unfold deniesSecond.
    destruct (j <? 2)%nat eqn:E; [reflexivity | apply Nat.ltb_ge in E; lia]. }
  assert (H3 : deniesSecond 2 = PollError (Some "access_denied") None) by reflexivity.
  split; [exact H1 | split; [exact H2 | split; [exact H3 |]]].
  exact (poll_denial_returns_null deniesSecond 20 2 None H1 H2 H3).
Defined.

(** When every attempt up to the ceiling is answered
    [authorization_pending], the call fails with the timeout error after
    exactly [maxAttempts] requests. *)
Theorem poll_timeout_when_always_pending :
  forall (provider : nat -> PollResponse) (maxAttempts : nat),
    (1 <= maxAttempts)%nat ->
    (forall j, (1 <= j <= maxAttempts)%nat ->
       exists d, provider j = PollError (Some "authorization_pending") d) ->
    pollCIBAResult provider maxAttempts
    = {| result := Thrown timeoutMessage;
         fetches := maxAttempts; waits := maxAttempts - 1 |}.
Proof.
  intros provider maxAttempts Hm Hp. unfold pollCIBAResult.
  pose proof (pollFrom_skips provider maxAttempts maxAttempts 0 1) as H.
  replace (maxAttempts + 0)%nat with maxAttempts in H by lia.
  change (1 - 1)%nat with 0%nat in H. change (1 - 2)%nat with 0%nat in H.
  rewrite H.
  - cbn [pollFrom]. f_equal; lia.
  - lia.
  - lia.
  - intros j Hj. destruct (Hp j) as [d ->]; [lia |]. left. reflexivity.
Qed.

Lemma poll_timeout_when_always_pending_witness :
  (1 <= 4)%nat
  /\ (forall j, (1 <= j <= 4)%nat ->
        exists d, alwaysPending j = PollError (Some "authorization_pending") d)
  /\ pollCIBAResult alwaysPending 4
     = {| result := Thrown timeoutMessage; fetches := 4; waits := 3 |}.
Proof.
  assert (H1 : (1 <= 4)%nat) by lia.
  assert (H2 : forall j, (1 <= j <= 4)%nat ->
                 exists d, alwaysPending j = PollError (Some "authorization_pending") d)
    by (intros j _; exists None; reflexivity).
  split; [exact H1 | split; [exact H2 |]].
  exact (poll_timeout_when_always_pending alwaysPending 4 H1 H2).
Defined.

(** A rejected request (a network failure, whose message does not carry the
    polling-error marker) is swallowed on every attempt but the last: tokens
    at a later attempt [k] are returned as if nothing had failed, and when
    every attempt is rejected the call fails, after [maxAttempts] requests,
    with the error of an exhausted polling. *)
Theorem poll_network_failures :
  forall (provider : nat -> PollResponse) (maxAttempts : nat),
    (1 <= maxAttempts)%nat ->
    (forall (k : nat) (tokens : CIBATokenResponse),
        (1 <= k <= maxAttempts)%nat ->
        (forall j, (1 <= j < k)%nat ->
           exists m, provider j = PollNetworkError m
                     /\ JS.includes m pollingErrorPrefix = false) ->
        provider k = PollOk tokens ->
        pollCIBAResult provider maxAttempts
        = {| result := Returned (Some tokens); fetches := k; waits := k - 1 |})
    /\ ((forall j, (1 <= j <= maxAttempts)%nat ->
           exists m, provider j = PollNetworkError m
                     /\ JS.includes m pollingErrorPrefix = false) ->
        pollCIBAResult provider maxAttempts
        = {| result := Thrown pollingFailedMessage;
             fetches := maxAttempts; waits := maxAttempts - 1 |}).
Proof.
  intros provider maxAttempts Hm. split.
  - intros k tokens Hk Hn Hok.
    rewrite (poll_reaches provider maxAttempts k Hk).
    + destruct (maxAttempts - (k - 1))%nat as [|fuel] eqn:Hf; [lia |].
      cbn [pollFrom].
      destruct (maxAttempts <? k)%nat eqn:Hc; [apply Nat.ltb_lt in Hc; lia |].
      rewrite Hok. cbn [tryAttempt].
      f_equal; destruct (1 <? k)%nat eqn:E;
        [apply Nat.ltb_lt in E | apply Nat.ltb_ge in E | apply Nat.ltb_lt in E
         | apply Nat.ltb_ge in E]; lia.
    + intros j Hj. destruct (Hn j Hj) as (m & -> & Hnm). right.
      split; [lia |]. exists m. split; [reflexivity | exact Hnm].
  - intros Hn.
    rewrite (poll_reaches provider maxAttempts maxAttempts).
    + destruct (maxAttempts - (maxAttempts - 1))%nat as [|fuel] eqn:Hf; [lia |].
      cbn [pollFrom]. rewrite Nat.ltb_irrefl.
      destruct (Hn maxAttempts) as (m & -> & Hnm); [lia |].
      cbn [tryAttempt]. rewrite Hnm, Nat.eqb_refl.
      f_equal; destruct (1 <? maxAttempts)%nat eqn:E;
        [apply Nat.ltb_lt in E | apply Nat.ltb_ge in E | apply Nat.ltb_lt in E
         | apply Nat.ltb_ge in E]; lia.
    + lia.
    + intros j Hj. destruct (Hn j) as (m & -> & Hnm); [lia |]. right.
      split; [lia |]. exists m. split; [reflexivity | exact Hnm].
Qed.

Lemma poll_network_failures_witness :
  (1 <= 3)%nat
  /\ (forall j, (1 <= j <= 3)%nat ->
        exists m, alwaysOffline j = PollNetworkError m
                  /\ JS.includes m pollingErrorPrefix = false)
  /\ pollCIBAResult alwaysOffline 3
     = {| result := Thrown pollingFailedMessage; fetches := 3; waits := 2 |}.
Proof.
  assert (H1 : (1 <= 3)%nat) by lia.
  assert (H2 : forall j, (1 <= j <= 3)%nat ->
                 exists m, alwaysOffline j = PollNetworkError m
                           /\ JS.includes m pollingErrorPrefix = false)
    by (intros j _; exists "fetch failed"; split; reflexivity).
  destruct (poll_network_failures alwaysOffline 3 H1) as (_ & Hall).
  split; [exact H1 | split; [exact H2 | exact (Hall H2)]].
Defined.

Lemma pollingErrorMessage_marked (e d : option string) :
  JS.includes (pollingErrorMessage e d) pollingErrorPrefix = true.
Proof. unfold pollingErrorMessage. apply includes_here, startsWith_app. Qed.

(** An error code other than [authorization_pending], [access_denied] and
    [expired_token] (or a missing one) stops the polling at that attempt:
    the call fails with the polling error that carries the code, and no
    later request is issued. *)
Theorem poll_other_error_stops :
  forall (provider : nat -> PollResponse) (maxAttempts k : nat)
         (e d : option string),
    (1 <= k <= maxAttempts)%nat ->
    (forall j, (1 <= j < k)%nat ->
       exists d', provider j = PollError (Some "authorization_pending") d') ->
    provider k = PollError e d ->
    e <> Some "authorization_pending" ->
    e <> Some "access_denied" ->
    e <> Some "expired_token" ->
    pollCIBAResult provider maxAttempts
    = {| result := Thrown (pollingErrorMessage e d); fetches := k; waits := k - 1 |}
    /\ JS.startsWith (pollingErrorMessage e d) "CIBA polling error: " = true.
Proof.
  intros provider maxAttempts k e d Hk Hp He N1 N2 N3. split.
  - rewrite (poll_reaches provider maxAttempts k Hk).
    + destruct (maxAttempts - (k - 1))%nat as [|fuel] eqn:Hf; [lia |].
      cbn [pollFrom].
      destruct (maxAttempts <? k)%nat eqn:Hc; [apply Nat.ltb_lt in Hc; lia |].
      rewrite He. unfold tryAttempt.
      rewrite !bool_decide_eq_false_2 by assumption.
      rewrite pollingErrorMessage_marked.
      f_equal; destruct (1 <? k)%nat eqn:E;
        [apply Nat.ltb_lt in E | apply Nat.ltb_ge in E | apply Nat.ltb_lt in E
         | apply Nat.ltb_ge in E]; lia.
    + intros j Hj. destruct (Hp j Hj) as [d' ->]. left. reflexivity.
  - unfold pollingErrorMessage, pollingErrorPrefix.
    apply (startsWith_app "CIBA polling error: ").
Qed.

Lemma poll_other_error_stops_witness :
  (1 <= 2 <= 20)%nat
  /\ (forall j, (1 <= j < 2)%nat ->
        exists d, slowDown j = PollError (Some "authorization_pending") d)
  /\ slowDown 2 = PollError (Some "slow_down") (Some "polling too fast")
  /\ pollCIBAResult slowDown 20
     = {| result := Thrown "CIBA polling error: slow_down - polling too fast";
          fetches := 2; waits := 1 |}.
Proof.
  assert (H1 : (1 <= 2 <= 20)%nat) by lia.
  assert (H2 : forall j, (1 <= j < 2)%nat ->
                 exists d, slowDown j = PollError (Some "authorization_pending") d).
  { intros j Hj. exists None. unfold slowDown.
    destruct (j <? 2)%nat eqn:E; [reflexivity | apply Nat.ltb_ge in E; lia]. }
  assert (H3 : slowDown 2 = PollError (Some "slow_down") (Some "polling too fast"))
    by reflexivity.
  destruct (poll_other_error_stops slowDown 20 2 (Some "slow_down")
              (Some "polling too fast") H1 H2 H3) as (Hr & _);
    [discriminate | discriminate | discriminate |].
  split; [exact H1 | split; [exact H2 | split; [exact H3 | exact Hr]]].
Defined.

Lemma ceilDiv_bounds (a b : nat) :
  (1 <= a)%nat -> (1 <= b)%nat ->
  (1 <= ceilDiv a b)%nat
  /\ ((ceilDiv a b - 1) * b < a)%nat
  /\ (a <= ceilDiv a b * b)%nat.
Proof.
  intros Ha Hb. unfold ceilDiv.
  pose proof (Nat.div_mod_eq (a + b - 1) b) as Hd.
  pose proof (Nat.mod_upper_bound (a + b - 1) b) as Hm.
  assert (Hq : (1 <= (a + b - 1) / b)%nat).
  { apply Nat.div_le_lower_bound; lia. }
  split; [exact Hq |]. nia.
Qed.

Lemma orDefault_positive (x : option nat) (d : nat) :
  (1 <= d)%nat -> (1 <= orDefault x d)%nat.
Proof. intros Hd. destruct x as [[|n]|]; simpl; lia. Qed.

(** The polling budget of a complete authorization.  A failed initiation is
    reported without any polling, under the prefix of the initiation error.
    Otherwise the lifetime and the interval are at least one second (300 and
    5 when the provider gives none), the ceiling is the lifetime divided by
    the interval, rounded up, and the time spent waiting between polls is
    strictly less than the lifetime of the request. *)
Theorem authorization_polling_budget :
  forall (init : InitResponse) (provider : nat -> PollResponse),
    match initiateCIBARequest init with
    | Thrown m =>
        performCIBAAuthorization init provider = Thrown m
        /\ JS.startsWith m "Failed to initiate CIBA: " = true
    | Returned req =>
        let ceiling := ceilDiv (expires_in req) (interval req) in
        let run := pollCIBAResult provider ceiling in
        performCIBAAuthorization init provider = result run
        /\ (1 <= expires_in req)%nat /\ (1 <= interval req)%nat
        /\ (1 <= ceiling)%nat
        /\ ((ceiling - 1) * interval req < expires_in req <= ceiling * interval req)%nat
        /\ (fetches run <= ceiling)%nat
        /\ (waits run * interval req < expires_in req)%nat
    end
    /\ (forall id, initiateCIBARequest (InitHttpOk id None None)
                   = Returned {| auth_req_id := id; expires_in := 300; interval := 5 |})
    /\ ceilDiv 300 5 = 60%nat.
Proof.
  intros init provider. split; [| split; [reflexivity | reflexivity]].
  unfold performCIBAAuthorization.
  destruct init as [m | status body | id e i]; cbn [initiateCIBARequest].
  - split; [reflexivity | apply (startsWith_app "Failed to initiate CIBA: ")].
  - split; [reflexivity | apply (startsWith_app "Failed to initiate CIBA: ")].
  - cbn [expires_in interval].
    pose proof (orDefault_positive e 300) as He.
    pose proof (orDefault_positive i 5) as Hi.
    destruct (ceilDiv_bounds (orDefault e 300) (orDefault i 5)) as (C1 & C2 & C3);
      [lia | lia |].
    destruct (poll_respects_bounds provider (ceilDiv (orDefault e 300) (orDefault i 5)))
      as (B1 & B2).
    cbv zeta. repeat split; try lia.
    rewrite B2. nia.
Qed.

End PollTheorems.

(* ===================================================================== *)
(** ** More on the authorization coordinator *)
(* ===================================================================== *)

Section CoordinatorMore.
Import Ciba Coordinator Samples MoreSamples.

Ltac run_wrappers :=
  cbv [withAsyncUserConfirmation withCIBAAuthorization
       extractUserId optUserID optBindingMessage
       optOnAuthorizationRequest optOnUnauthorized
       bindingMessage createBindingMessage onAuthorizationRequest onUnauthorized
       wrappedTool originalTool updateAuthorizationStatusMessage
       clearAuthorizationStatusMessages clearAuthorizationOnToolCompletion
       setStatus setCibaStatus await bind ret raise tryCatch modify mkError
       kind errMessage negb].

(** When neither the context credential, nor the cart-scoped user field, nor
    the generic user field of the parameters is truthy, the [userID]
    callback of lib/auth0-ai-langchain.ts yields a falsy id, and the two
    wrappers of lib/ciba-langchain.ts raise the user-id error before
    anything else happens: no status is written and the protected action is
    not entered.  For [withAsyncUserConfirmation] this holds when it has no
    [userID] option or when that option yields a falsy id too. *)
Theorem missing_user_id_is_rejected :
  forall (tool : M json) (options : Options) (p : Provider)
         (params : json) (config : option json) (w : World),
    truthyO (optGet (optGet (optGet (optGet config "configurable") "_credentials")
                       "user") "sub") = false ->
    truthyO (optGet (optGet (Some params) "cartData") "userId") = false ->
    truthyO (optGet (Some params) "userId") = false ->
    truthyO (userID params config) = false
    /\ withCIBAAuthorization tool p params config w
       = (Raise (mkError "User ID required for CIBA authorization"), w)
    /\ (match optUserID options with
        | Some f => truthyO (f params config) = false
        | None => True
        end ->
        withAsyncUserConfirmation options tool p params config w
        = (Raise (mkError "User ID required for CIBA authorization"), w)).
Proof.
  intros tool options p params config w H1 H2 H3.
  assert (Hu : truthyO (userID params config) = false).
  { unfold userID. cbv zeta. rewrite H1, H2. cbn [negb andb]. rewrite H1, H3.
    rewrite andb_false_r. exact H1. }
  split; [exact Hu | split].
  - unfold withCIBAAuthorization, extractUserId. rewrite Hu. reflexivity.
  - intros Ho. unfold withAsyncUserConfirmation, extractUserId.
    destruct (optUserID options) as [f|]; [rewrite Ho | rewrite Hu]; reflexivity.
Qed.

Lemma missing_user_id_is_rejected_witness :
  let params := JObj [("product", JStr "apples"); ("qty", JNum "2")] in
  let options :=
    {| optUserID := None; optBindingMessage := None;
       optOnAuthorizationRequest := None; optOnUnauthorized := None |} in
  withCIBAAuthorization (originalTool (Ok JNull)) approvingProvider params None idleWorld
  = (Raise (mkError "User ID required for CIBA authorization"), idleWorld)
  /\ withAsyncUserConfirmation options (originalTool (Ok JNull)) approvingProvider params
       None idleWorld
     = (Raise (mkError "User ID required for CIBA authorization"), idleWorld).
Proof.
  destruct (missing_user_id_is_rejected (originalTool (Ok JNull))
              {| optUserID := None; optBindingMessage := None;
                 optOnAuthorizationRequest := None; optOnUnauthorized := None |}
              approvingProvider (JObj [("product", JStr "apples"); ("qty", JNum "2")])
              None idleWorld eq_refl eq_refl eq_refl) as (_ & H1 & H2).
  split; [exact H1 | exact (H2 I)].
Defined.

(** When the action approved by the user then fails with a plain error,
    the wrappers of lib/ciba-langchain.ts report the authorization as
    denied.  [withCIBAAuthorization] raises the message of the action
    behind the prefix of a failed authorization; [withAsyncUserConfirmation]
    without callbacks raises the error of the action itself, and with an
    [onUnauthorized] callback alone it hands the error to the callback and
    raises an error that carries the message the callback returns.  In each
    case the status is left at [denied] before the callback runs and the
    action was entered once, at [approved]. *)
Theorem failed_action_reads_as_denied :
  forall (e : JsError) (p : Provider) (params : json) (config : option json)
         (w : World) (t : CIBATokenResponse),
    truthyO (extractUserId params config) = true ->
    is_Some (bindingMessageText params) ->
    performCIBAAuthorizationWithEnv p = Returned (Some t) ->
    kind e = PlainError ->
    let callbacks (f : option (JsError -> M string)) :=
      {| optUserID := None; optBindingMessage := None;
         optOnAuthorizationRequest := None; optOnUnauthorized := f |} in
    let run1 := withCIBAAuthorization (originalTool (Raise e)) p params config w in
    let run2 :=
      withAsyncUserConfirmation (callbacks None) (originalTool (Raise e)) p params config w in
    (run1.1 = Raise (mkError ("CIBA authorization failed: " +:+ errMessage e))
     /\ status (cibaAuthorizationState run1.2) = denied
     /\ invocations run1.2
        = (invocations w ++ [(status (authorizationState w), approved)])%list)
    /\ (run2.1 = Raise e
        /\ status (cibaAuthorizationState run2.2) = denied
        /\ invocations run2.2
           = (invocations w ++ [(status (authorizationState w), approved)])%list)
    /\ (forall f : JsError -> M string,
          withAsyncUserConfirmation (callbacks (Some f)) (originalTool (Raise e)) p
            params config w
          = (errorMessage <- f e ;; raise (mkError errorMessage)) run2.2).
Proof.
  intros e p params config w t Hu [m Hm] Hp Hk. cbv zeta.
  run_wrappers. unfold extractUserId in Hu. rewrite Hu, Hm, Hp. simpl.
  destruct e as [k n em]. simpl in Hk. subst k. simpl.
  repeat split.
Qed.

Lemma failed_action_reads_as_denied_witness :
  let e := mkError "payment declined" in
  let run1 :=
    withCIBAAuthorization (originalTool (Raise e)) approvingProvider purchase None idleWorld in
  truthyO (extractUserId purchase None) = true
  /\ is_Some (bindingMessageText purchase)
  /\ performCIBAAuthorizationWithEnv approvingProvider = Returned (Some sampleTokens)
  /\ run1.1 = Raise (mkError "CIBA authorization failed: payment declined")
  /\ status (cibaAuthorizationState run1.2) = denied.
Proof.
  assert (H1 : truthyO (extractUserId purchase None) = true) by reflexivity.
  assert (H2 : is_Some (bindingMessageText purchase)) by (vm_compute; eauto).
  assert (H3 : performCIBAAuthorizationWithEnv approvingProvider = Returned (Some sampleTokens))
    by (vm_compute; reflexivity).
  destruct (failed_action_reads_as_denied (mkError "payment declined") approvingProvider
              purchase None idleWorld sampleTokens H1 H2 H3 eq_refl)
    as ((Hr & Hs & _) & _).
  split; [exact H1 | split; [exact H2 | split; [exact H3 | split; [exact Hr | exact Hs]]]].
Defined.

(** The status messages of lib/auth0-ai-langchain.ts over an attempt.  The
    authorization-request callback leaves exactly one message, that of the
    approval, and raises the completion flag when the polling promise
    yields tokens, and leaves no message and the flag untouched otherwise;
    the unauthorized callback leaves no message; the wrapped tool hands on
    the outcome of the action, and when the flag is raised it removes the
    messages and lowers the flag, and otherwise touches neither.  So after
    an approved request followed by the wrapped tool no message remains and
    the flag is lowered, whatever the action did. *)
Theorem status_messages_cleared_at_the_end :
  forall (poll : Outcome (option CIBATokenResponse)) (e : JsError)
         (outcome : Result json) (w : World),
    let w1 := (onAuthorizationRequest poll w).2 in
    let done := wrappedTool outcome w in
    (authorizationStatusMessages w1
     = match poll with
       | Returned (Some _) => [createAuthorizationStatusMessage approvedPhase 60000]
       | _ => []
       end
     /\ isToolExecutionInProgress w1
        = match poll with
          | Returned (Some _) => true
          | _ => isToolExecutionInProgress w
          end)
    /\ authorizationStatusMessages (onUnauthorized e w).2 = []
    /\ isToolExecutionInProgress (onUnauthorized e w).2 = isToolExecutionInProgress w
    /\ done.1 = outcome
    /\ isToolExecutionInProgress done.2 = false
    /\ (isToolExecutionInProgress w = true -> authorizationStatusMessages done.2 = [])
    /\ (isToolExecutionInProgress w = false ->
        authorizationStatusMessages done.2 = authorizationStatusMessages w)
    /\ ((exists t, poll = Returned (Some t)) ->
        (wrappedTool outcome w1).1 = outcome
        /\ authorizationStatusMessages (wrappedTool outcome w1).2 = []
        /\ isToolExecutionInProgress (wrappedTool outcome w1).2 = false).
Proof.
  intros poll e outcome w. cbv zeta. run_wrappers.
  repeat split.
  - destruct poll as [[t|]|em]; reflexivity.
  - destruct poll as [[t|]|em]; reflexivity.
  - destruct e as [[] n em]; reflexivity.
  - destruct e as [[] n em]; reflexivity.
  - destruct outcome as [v|err]; simpl; destruct (isToolExecutionInProgress w); reflexivity.
  - destruct outcome as [v|err]; simpl;
      destruct (isToolExecutionInProgress w) eqn:E; simpl; auto.
  - intros H. destruct outcome as [v|err]; simpl; rewrite H; reflexivity.
  - intros H. destruct outcome as [v|err]; simpl; rewrite H; reflexivity.
  - destruct H as [t ->]. destruct outcome as [v|err]; reflexivity.
  - destruct H as [t ->]. destruct outcome as [v|err]; reflexivity.
  - destruct H as [t ->]. destruct outcome as [v|err]; reflexivity.
Qed.

Lemma status_messages_cleared_at_the_end_witness :
  let w1 := (onAuthorizationRequest (Returned (Some sampleTokens)) idleWorld).2 in
  (exists t, Returned (Some sampleTokens) = Returned (Some t))
  /\ isToolExecutionInProgress idleWorld = false
  /\ authorizationStatusMessages w1 = [createAuthorizationStatusMessage approvedPhase 60000]
  /\ authorizationStatusMessages (wrappedTool (Ok JNull) w1).2 = []
  /\ isToolExecutionInProgress (wrappedTool (Ok JNull) w1).2 = false
  /\ authorizationStatusMessages (wrappedTool (Ok JNull) idleWorld).2
     = authorizationStatusMessages idleWorld.
Proof.
  assert (H1 : exists t, Returned (Some sampleTokens) = Returned (Some t))
    by (exists sampleTokens; reflexivity).
  assert (H2 : isToolExecutionInProgress idleWorld = false) by reflexivity.
  destruct (status_messages_cleared_at_the_end (Returned (Some sampleTokens))
              (mkError "refused") (Ok JNull) idleWorld)
    as ((Hm & _) & _ & _ & _ & _ & _ & Hkeep & Hend).
  destruct (Hend H1) as (_ & Hnone & Hflag).
  split; [exact H1 | split; [exact H2 | split; [exact Hm | split; [exact Hnone |]]]].
  split; [exact Hflag | exact (Hkeep H2)].
Defined.






End CoordinatorMore.

(* ===================================================================== *)
(** ** More on the thread cache *)
(* ===================================================================== *)

Section GatewayMore.
Import Gateway Samples.

Lemma ensureThread_cases remote conv now c :
  (exists tid, conversationThreadMap c !! conv = Some tid /\ JS.nonEmpty tid = true
               /\ ensureThread remote conv now c = (Ok tid, touch conv now c))
  \/ (exists tid, JS.nonEmpty tid = true
                  /\ ensureThread remote conv now c
                     = (Ok tid, touch conv now (bindThread conv tid (countCreation c))))
  \/ (exists e, ensureThread remote conv now c = (Raise e, countCreation c)).
Proof.
  unfold ensureThread, ensureThreadBegin.
  destruct (truthyId (conversationThreadMap c !! conv)) as [t|] eqn:E.
  - left. apply truthyId_Some in E as [E1 E2]. exists t. auto.
  - right. unfold ensureThreadResume.
    destruct (remote (creations c)) as [e|st tx|a b d]; [right; eauto | right; eauto |].
    destruct (truthyId (orElse (orElse a b) d)) as [t|] eqn:E'; [| right; eauto].
    left. apply truthyId_Some in E' as [_ E2]. exists t. auto.
Qed.

Lemma wellFormed_ensureThread remote conv now c :
  wellFormed c -> wellFormed (ensureThread remote conv now c).2.
Proof.
  intros Hwf.
  destruct (ensureThread_cases remote conv now c)
    as [(tid & Hm & Hne & ->) | [(tid & Hne & ->) | (e & ->)]]; simpl.
  - intros k. destruct (Hwf k) as [H1 H2]. split; simpl; [exact H1 |].
    destruct (decide (k = conv)) as [-> | Hk].
    + rewrite lookup_insert_eq, Hm. split; eauto.
    + rewrite lookup_insert_ne by congruence. exact H2.
  - intros k. destruct (Hwf k) as [H1 H2]. simpl.
    destruct (decide (k = conv)) as [-> | Hk].
    + rewrite !lookup_insert_eq. split; [intros ? [= <-]; exact Hne | split; eauto].
    + rewrite !lookup_insert_ne by congruence. split; [exact H1 | exact H2].
  - exact Hwf.
Qed.

Lemma wellFormed_evict ttl now c :
  wellFormed c -> wellFormed (evictStaleThreads ttl now c).
Proof.
  intros Hwf k. destruct (Hwf k) as [H1 H2]. unfold evictStaleThreads. simpl. split.
  - intros tid Hk. apply map_lookup_filter_Some in Hk as [Hk _]. eauto.
  - split.
    + intros [tid Hk]. apply map_lookup_filter_Some in Hk as [Hk Hkeep].
      destruct (proj1 H2 (ex_intro _ tid Hk)) as [t Ht].
      exists t. apply map_lookup_filter_Some. split; [exact Ht |]. simpl.
      unfold keepsThread in Hkeep. simpl in Hkeep. rewrite Ht, (H1 tid Hk) in Hkeep.
      rewrite andb_true_r in Hkeep. apply negb_true_iff in Hkeep. exact Hkeep.
    + intros [t Ht]. apply map_lookup_filter_Some in Ht as [Ht Hfresh]. simpl in Hfresh.
      destruct (proj2 H2 (ex_intro _ t Ht)) as [tid Hk].
      exists tid. apply map_lookup_filter_Some. split; [exact Hk |].
      unfold keepsThread. simpl. rewrite Ht, Hfresh. reflexivity.
Qed.

Lemma wellFormed_attemptBody remote opts e c :
  wellFormed c -> wellFormed (attemptBody remote opts e c).2.
Proof.
  intros Hwf. unfold attemptBody.
  pose proof (wellFormed_ensureThread remote (conversationId opts) (nowEnsure e) c Hwf) as H.
  destruct (ensureThread remote (conversationId opts) (nowEnsure e) c) as [[tid|err] c1];
    simpl in H |- *; [| exact H].
  destruct (runResponse e) as [err|st tx body| |chunks failure]; simpl; try exact H.
  destruct (collect chunks failure) as [r|err]; simpl; [| exact H].
  apply wellFormed_evict, H.
Qed.

Lemma wellFormed_retryLoop remote maxRetries retryDelay env opts fuel attempt waited c :
  wellFormed c ->
  wellFormed (cache (retryLoop remote maxRetries retryDelay env opts fuel attempt waited c)).
Proof.
  revert attempt waited c. induction fuel as [|fuel IH]; intros attempt waited c Hwf; simpl.
  - exact Hwf.
  - destruct (maxRetries <? Z.of_nat attempt); simpl; [exact Hwf |].
    pose proof (wellFormed_attemptBody remote opts (env attempt) c Hwf) as H.
    destruct (attemptBody remote opts (env attempt) c) as [[r|err] c']; simpl in H |- *;
      [exact H |].
    destruct (negb (isTransient err) || (maxRetries <? Z.of_nat (S attempt))); simpl;
      [exact H | apply IH, H].
Qed.

Lemma staleCache_wellFormed : wellFormed staleCache.
Proof.
  intros k. simpl. destruct (decide (k = "conv-1")) as [-> | Hk].
  - rewrite !lookup_singleton_eq. split; [intros ? [= <-]; reflexivity | split; eauto].
  - rewrite !lookup_singleton_ne by congruence. split; [discriminate |].
    split; intros [? ?]; discriminate.
Qed.

(** The thread cache stays well formed (every bound thread id is non-empty,
    and a conversation has a binding exactly when it has a timestamp): the
    empty cache is, and [ensureThread], the sweep and a whole call of
    [callAgentWithStream] keep it so, whatever the remote service answers. *)
Theorem thread_cache_stays_well_formed :
  wellFormed emptyCache
  /\ forall (c : Cache), wellFormed c ->
       (forall remote conv now, wellFormed (ensureThread remote conv now c).2)
       /\ (forall ttl now, wellFormed (evictStaleThreads ttl now c))
       /\ (forall remote maxRetries retryDelay env opts,
             wellFormed (cache (callAgentWithStream remote maxRetries retryDelay env opts c))).
Proof.
  split.
  - intros k. simpl. rewrite !lookup_empty. split; [discriminate |].
    split; intros [? ?]; discriminate.
  - intros c Hwf. split; [| split].
    + intros. apply wellFormed_ensureThread, Hwf.
    + intros. apply wellFormed_evict, Hwf.
    + intros. apply wellFormed_retryLoop, Hwf.
Qed.

Lemma thread_cache_stays_well_formed_witness :
  wellFormed staleCache
  /\ wellFormed (cache (callAgentWithStream secondThread 3 1000 answeringEnv catalogCall
                          staleCache)).
Proof.
  pose proof staleCache_wellFormed as H.
  destruct thread_cache_stays_well_formed as (_ & Hkeep).
  destruct (Hkeep staleCache H) as (_ & _ & Hcall).
  split; [exact H | apply Hcall].
Defined.

(** After a sweep of a well-formed cache every remaining binding was there
    before and has a timestamp no older than the TTL; no creation request is
    issued; and a second sweep at the same time changes nothing. *)
Theorem sweep_leaves_recent_bindings :
  forall (ttl now : Z) (c : Cache),
    wellFormed c ->
    let c' := evictStaleThreads ttl now c in
    (forall conv tid,
        conversationThreadMap c' !! conv = Some tid ->
        conversationThreadMap c !! conv = Some tid
        /\ exists ts, conversationThreadTimestamps c' !! conv = Some ts
                      /\ conversationThreadTimestamps c !! conv = Some ts
                      /\ now - ts <= ttl)
    /\ creations c' = creations c
    /\ evictStaleThreads ttl now c' = c'.
Proof.
  intros ttl now c Hwf. cbv zeta. split; [| split].
  - intros conv tid Hk.
    pose proof (wellFormed_evict ttl now c Hwf conv) as [_ H2].
    destruct (proj1 H2 (ex_intro _ tid Hk)) as [ts Hts].
    unfold evictStaleThreads in Hk, Hts. simpl in Hk, Hts.
    apply map_lookup_filter_Some in Hk as [Hk _].
    apply map_lookup_filter_Some in Hts as [Hts Hfresh]. simpl in Hfresh.
    split; [exact Hk |]. exists ts. split; [| split; [exact Hts |]].
    + apply map_lookup_filter_Some. split; [exact Hts | exact Hfresh].
    + unfold isStale in Hfresh. apply Z.ltb_ge in Hfresh. exact Hfresh.
  - reflexivity.
  - unfold evictStaleThreads at 1. 
    set (c' := evictStaleThreads ttl now c).
    assert (E1 : filter (fun kv : string * string =>
                           keepsThread (conversationThreadTimestamps c') ttl now kv = true)
                        (conversationThreadMap c') = conversationThreadMap c').
    { apply map_eq. intros k.
      destruct (conversationThreadMap c' !! k) as [v|] eqn:Ek.
      - apply map_lookup_filter_Some. split; [exact Ek |].
        unfold keepsThread. cbn [fst snd].
        destruct (conversationThreadTimestamps c' !! k) as [t|] eqn:Et; [| reflexivity].
        subst c'. unfold evictStaleThreads in Et. simpl in Et.
        apply map_lookup_filter_Some in Et as [_ Hfresh]. simpl in Hfresh.
        rewrite Hfresh. reflexivity.
      - apply map_lookup_filter_None. left. exact Ek. }
    assert (E2 : filter (fun kv : string * Z => isStale now ttl kv.2 = false)
                        (conversationThreadTimestamps c') = conversationThreadTimestamps c').
    { apply map_eq. intros k.
      destruct (conversationThreadTimestamps c' !! k) as [t|] eqn:Et.
      - apply map_lookup_filter_Some. split; [exact Et |].
        subst c'. unfold evictStaleThreads in Et. simpl in Et.
        apply map_lookup_filter_Some in Et as [_ Hfresh]. exact Hfresh.
      - apply map_lookup_filter_None. left. exact Et. }
    rewrite E1, E2. destruct c'; reflexivity.
Qed.

Lemma sweep_leaves_recent_bindings_witness :
  let c' := evictStaleThreads oneHour oneHour staleCache in
  wellFormed staleCache
  /\ conversationThreadMap c' !! "conv-1" = Some "thread-1"
  /\ (exists ts, conversationThreadTimestamps c' !! "conv-1" = Some ts
                 /\ oneHour - ts <= oneHour)
  /\ evictStaleThreads oneHour oneHour c' = c'.
Proof.
  pose proof staleCache_wellFormed as H.
  assert (Hk : conversationThreadMap (evictStaleThreads oneHour oneHour staleCache)
               !! "conv-1" = Some "thread-1") by (vm_compute; reflexivity).
  destruct (sweep_leaves_recent_bindings oneHour oneHour staleCache H) as (Hin & _ & Hi).
  destruct (Hin "conv-1" "thread-1" Hk) as (_ & ts & Hts & _ & Hle).
  split; [exact H | split; [exact Hk | split; [| exact Hi]]].
  exists ts. split; [exact Hts | exact Hle].
Defined.

(** A call of [ensureThread] for one conversation leaves the binding and
    the timestamp of every other conversation as they are; and a call that
    fails issued one creation request and changed neither map. *)
Theorem ensureThread_touches_one_conversation :
  forall (remote : nat -> CreateResponse) (conv : string) (now : Z) (c : Cache),
    let run := ensureThread remote conv now c in
    (forall other, other <> conv ->
        conversationThreadMap run.2 !! other = conversationThreadMap c !! other
        /\ conversationThreadTimestamps run.2 !! other
           = conversationThreadTimestamps c !! other)
    /\ (forall e, run.1 = Raise e ->
          conversationThreadMap run.2 = conversationThreadMap c
          /\ conversationThreadTimestamps run.2 = conversationThreadTimestamps c
          /\ creations run.2 = S (creations c)
          /\ truthyId (conversationThreadMap c !! conv) = None).
Proof.
  intros remote conv now c. cbv zeta.
  destruct (ensureThread_cases remote conv now c)
    as [(tid & Hm & Hne & E) | [(tid & Hne & E) | (e & E)]].
  - rewrite E. simpl. split; [| discriminate].
    intros other Ho. rewrite lookup_insert_ne by congruence. auto.
  - rewrite E. simpl. split; [| discriminate].
    intros other Ho. rewrite !lookup_insert_ne by congruence. auto.
  - rewrite E. simpl. split; [auto |].
    intros e' _. repeat split.
    revert E. unfold ensureThread, ensureThreadBegin.
    destruct (truthyId (conversationThreadMap c !! conv)); [discriminate | reflexivity].
Qed.

Lemma ensureThread_touches_one_conversation_witness :
  let run := ensureThread unreachable "conv-2" 5 staleCache in
  "conv-1" <> "conv-2"
  /\ run.1 = Raise typeError
  /\ conversationThreadMap run.2 !! "conv-1" = conversationThreadMap staleCache !! "conv-1"
  /\ conversationThreadMap run.2 = conversationThreadMap staleCache.
Proof.
  assert (Hne : "conv-1" <> "conv-2") by discriminate.
  assert (Hr : (ensureThread unreachable "conv-2" 5 staleCache).1 = Raise typeError)
    by (vm_compute; reflexivity).
  destruct (ensureThread_touches_one_conversation unreachable "conv-2" 5 staleCache)
    as (Hother & Hfail).
  destruct (Hother "conv-1" Hne) as (Hm & _).
  destruct (Hfail typeError Hr) as (Hmap & _).
  split; [exact Hne | split; [exact Hr | split; [exact Hm | exact Hmap]]].
Defined.

End GatewayMore.

(* ===================================================================== *)
(** ** More on the stream decoding and the retries *)
(* ===================================================================== *)

Section GatewayStreamMore.
Import Gateway Samples.

Lemma readLoop_stops {S : Type} (onEvent : SSEEvent -> S -> S * bool)
    (pre rest : list string) (buf : string) (st st' : S) (buf' : string) (flow : Flow) :
  readLoop onEvent pre buf st = (st', buf', flow) ->
  flow <> Continue ->
  readLoop onEvent (pre ++ rest)%list buf st = (st', buf', flow).
Proof.
  revert buf st. induction pre as [|value pre IH]; intros buf st; simpl.
  - intros [= <- <- <-] H. congruence.
  - destruct (drain onEvent (String.length (buf +:+ value)) (buf +:+ value) st)
      as [[st1 buf1] [| |]]; auto.
Qed.

(** Once the decoder has met the end marker while reading the first reads of
    a body, the result is settled: whatever the body carries afterwards,
    and even if a later read is rejected, [parseSSE] returns the state
    reached at the marker, and what was left in the buffer is never
    flushed. *)
Theorem done_marker_ends_the_stream :
  forall (S : Type) (onEvent : SSEEvent -> S -> S * bool)
         (pre rest : list string) (failure : option GwError)
         (st st' : S) (left : string),
    readLoop onEvent pre EmptyString st = (st', left, Stop) ->
    parseSSE onEvent (pre ++ rest)%list failure st = Ok st'.
Proof.
  intros S onEvent pre rest failure st st' left H.
  unfold parseSSE. rewrite (readLoop_stops onEvent pre rest _ _ _ _ _ H); [reflexivity |].
  discriminate.
Qed.

Lemma done_marker_ends_the_stream_witness :
  let start := {| foldMessages := []; lastContent := EmptyString |} in
  let reached := {| foldMessages := [exampleMessage]; lastContent := "hi" |} in
  readLoop onEvent [exampleBody] EmptyString start = (reached, EmptyString, Stop)
  /\ parseSSE onEvent [exampleBody; "data: late"; blankLine] (Some typeError) start
     = Ok reached.
Proof.
  assert (H : readLoop onEvent [exampleBody] EmptyString
                {| foldMessages := []; lastContent := EmptyString |}
              = ({| foldMessages := [exampleMessage]; lastContent := "hi" |},
                 EmptyString, Stop))
    by (vm_compute; reflexivity).
  split; [exact H |].
  exact (done_marker_ends_the_stream Fold onEvent [exampleBody] ["data: late"; blankLine]
           (Some typeError) _ _ _ H).
Defined.

Lemma collect_has_message chunks failure r :
  collect chunks failure = Ok r -> messages r <> [].
Proof.
  unfold collect.
  destruct (parseSSE onEvent chunks failure _) as [f|err]; [| discriminate].
  match goal with |- context [match ?x with Some _ => _ | None => _ end] =>
    destruct x as [last|] end; [| discriminate].
  intros [= <-]. simpl. destruct (foldMessages f); discriminate.
Qed.

Lemma attemptBody_has_message remote opts e c r c1 :
  attemptBody remote opts e c = (Ok r, c1) -> messages r <> [].
Proof.
  unfold attemptBody.
  destruct (ensureThread remote (conversationId opts) (nowEnsure e) c) as [[tid|err] c0];
    [| discriminate].
  destruct (runResponse e) as [err|st tx body| |chunks failure]; try discriminate.
  destruct (collect chunks failure) as [r0|err] eqn:E; [| discriminate].
  intros [= <- _]. eapply collect_has_message, E.
Qed.

Lemma attemptBody_creations remote opts e c r c' :
  attemptBody remote opts e c = (r, c') -> (creations c' <= S (creations c))%nat.
Proof.
  unfold attemptBody.
  destruct (ensureThread remote (conversationId opts) (nowEnsure e) c)
    as [[tid|err] c0] eqn:E.
  - apply ensureThread_ok_bound in E as (_ & _ & Hle).
    destruct (runResponse e) as [err|st tx body| |chunks failure];
      try (intros [= _ <-]; exact Hle).
    destruct (collect chunks failure); intros [= _ <-]; exact Hle.
  - intros [= _ <-].
    revert E. unfold ensureThread, ensureThreadBegin.
    destruct (truthyId (conversationThreadMap c !! conversationId opts));
      [discriminate |].
    unfold ensureThreadResume.
    destruct (remote (creations c)) as [e0|st tx|a b d];
      try (intros [= _ <-]; simpl; lia).
    destruct (truthyId (orElse (orElse a b) d)); intros [= _ <-]; simpl; lia.
Qed.

Lemma retryLoop_budget remote maxRetries retryDelay env opts fuel attempt waited c :
  maxRetries + 1 <= Z.of_nat (fuel + attempt) ->
  let run := retryLoop remote maxRetries retryDelay env opts fuel attempt waited c in
  (attempt <= tries run <= attempt + fuel)%nat
  /\ ((Z.of_nat attempt <= maxRetries
       /\ (length (delays run) + S attempt = length waited + tries run)%nat)
      \/ (maxRetries < Z.of_nat attempt
          /\ tries run = attempt /\ delays run = waited /\ cache run = c))
  /\ (creations (cache run) + attempt <= creations c + tries run)%nat.
Proof.
  revert attempt waited c. induction fuel as [|fuel IH]; intros attempt waited c Hf; simpl.
  - simpl in Hf. split; [lia |]. split; [| lia]. right. repeat split; lia.
  - destruct (maxRetries <? Z.of_nat attempt) eqn:Hc; simpl.
    + apply Z.ltb_lt in Hc. split; [lia |]. split; [| lia]. right. repeat split; lia.
    + apply Z.ltb_ge in Hc.
      destruct (attemptBody remote opts (env attempt) c) as [[r|err] c'] eqn:E; simpl;
        pose proof (attemptBody_creations _ _ _ _ _ _ E) as Hcr.
      * split; [lia |]. split; [| lia]. left. split; lia.
      * destruct (negb (isTransient err)); simpl.
        -- split; [lia |]. split; [| lia]. left. split; lia.
        -- destruct (maxRetries <? Z.of_nat (S attempt)) eqn:Hc'; simpl.
           ++ split; [lia |]. split; [| lia]. left. split; lia.
           ++ apply Z.ltb_ge in Hc'.
              destruct (IH (S attempt)
                          (waited ++ [backoff retryDelay (S attempt) (random (env attempt))])%list
                          c') as (H1 & H2 & H3); [lia |].
              split; [lia |]. split; [| lia]. left. split; [lia |].
              destruct H2 as [(_ & H2) | (H2 & _)]; [| lia].
              rewrite length_app in H2. simpl in H2. lia.
Qed.

(** The budget of a call: with a non-negative [maxRetries] the [try] block
    is entered at least once and at most [maxRetries + 1] times, exactly one
    wait precedes every pass after the first, and at most one thread is
    created per pass; with a negative [maxRetries] no pass is made, nothing
    is requested and the fallback apology is returned.  In every case the
    result carries at least one message. *)
Theorem call_budget :
  forall (remote : nat -> CreateResponse) (maxRetries retryDelay : Z)
         (env : nat -> AttemptEnv) (opts : AgentCallOptions) (c : Cache),
    let run := callAgentWithStream remote maxRetries retryDelay env opts c in
    messages (returned run) <> []
    /\ (0 <= maxRetries ->
        1 <= Z.of_nat (tries run) <= maxRetries + 1
        /\ length (delays run) = (tries run - 1)%nat
        /\ (creations (cache run) <= creations c + tries run)%nat)
    /\ (maxRetries < 0 ->
        returned run = reply (fallback (agentId opts))
        /\ tries run = 0%nat /\ delays run = [] /\ cache run = c).
Proof.
  intros remote maxRetries retryDelay env opts c. cbv zeta.
  unfold callAgentWithStream. split; [| split].
  - destruct (retryLoop_answers remote maxRetries retryDelay env opts
                (Z.to_nat (maxRetries + 1)) 0 [] c) as [(k & c0 & c1 & H) | (t & H & _)].
    + eapply attemptBody_has_message, H.
    + rewrite H. discriminate.
  - intros Hm.
    destruct (retryLoop_budget remote maxRetries retryDelay env opts
                (Z.to_nat (maxRetries + 1)) 0 [] c) as (H1 & H2 & H3); [lia |].
    destruct H2 as [(_ & H2) | (H2 & _)]; [| simpl in H2; lia].
    simpl in H2. repeat split; lia.
  - intros Hm.
    replace (Z.to_nat (maxRetries + 1)) with 0%nat by lia. simpl. auto.
Qed.

Lemma call_budget_witness :
  let run := callAgentWithStream unreachable 3 1000 unreachableEnv catalogCall emptyCache in
  0 <= 3
  /\ 1 <= Z.of_nat (tries run) <= 3 + 1
  /\ length (delays run) = (tries run - 1)%nat
  /\ returned (callAgentWithStream unreachable (-1) 1000 unreachableEnv catalogCall emptyCache)
     = reply (fallback "catalog").
Proof.
  assert (H0 : 0 <= 3) by lia.
  assert (H1 : -1 < 0) by lia.
  destruct (call_budget unreachable 3 1000 unreachableEnv catalogCall emptyCache)
    as (_ & Hpos & _).
  destruct (call_budget unreachable (-1) 1000 unreachableEnv catalogCall emptyCache)
    as (_ & _ & Hneg).
  destruct (Hpos H0) as (Ht & Hd & _).
  destruct (Hneg H1) as (Hr & _).
  split; [exact H0 | split; [exact Ht | split; [exact Hd | exact Hr]]].
Defined.

End GatewayStreamMore.

Section FramingFacts.
Import Gateway Framing.
Context {S : Type}.
Variable onEvent : SSEEvent -> S -> S * bool.

Lemma noNewline_cons (c : ascii) (s : string) :
  noNewline (String c s) = negb (Ascii.eqb c newline) && noNewline s.
Proof. unfold noNewline. simpl. rewrite negb_orb. reflexivity. Qed.

Lemma indexOf_blankLine (s rest : string) :
  noNewline s = true ->
  JS.indexOf (s +:+ blankLine +:+ rest) blankLine = Some (String.length s).
Proof.
  induction s as [|c s IH]; intros H.
  - reflexivity.
  - rewrite noNewline_cons in H. apply andb_true_iff in H as [Hc Hs].
    apply negb_true_iff in Hc.
    change (String c s +:+ blankLine +:+ rest) with (String c (s +:+ blankLine +:+ rest)).
    cbn [JS.indexOf].
    assert (Hsw : JS.startsWith (String c (s +:+ blankLine +:+ rest)) blankLine = false).
    { unfold blankLine at 2. cbn [JS.startsWith]. rewrite Ascii.eqb_sym, Hc. reflexivity. }
    rewrite Hsw, (IH Hs). reflexivity.
Qed.

Lemma js_take_app (s r : string) : JS.take (String.length s) (s +:+ r) = s.
Proof. induction s as [|c s IH]; simpl; [destruct r; reflexivity | rewrite IH; reflexivity]. Qed.

Lemma js_drop_app (s r : string) : JS.drop (String.length s) (s +:+ r) = r.
Proof. induction s as [|c s IH]; simpl; [reflexivity | exact IH]. Qed.

Lemma revOnto_app (s t acc : string) :
  JS.revOnto (s +:+ t) acc = JS.revOnto t (JS.revOnto s acc).
Proof. revert acc. induction s as [|c s IH]; intros acc; simpl; [reflexivity | apply IH]. Qed.

Lemma string_app_assoc (a b c : string) : (a +:+ b) +:+ c = a +:+ (b +:+ c).
Proof.
  induction a as [|x a IH]; [reflexivity |].
  change (String x ((a +:+ b) +:+ c) = String x (a +:+ (b +:+ c))). rewrite IH. reflexivity.
Qed.

Lemma string_app_nil_r (a : string) : a +:+ EmptyString = a.
Proof.
  induction a as [|x a IH]; [reflexivity |].
  change (String x (a +:+ EmptyString) = String x a). rewrite IH. reflexivity.
Qed.

Lemma string_length_app (a b : string) :
  String.length (a +:+ b) = (String.length a + String.length b)%nat.
Proof.
  induction a as [|x a IH]; [reflexivity |].
  change (Datatypes.S (String.length (a +:+ b))
          = Datatypes.S (String.length a + String.length b)).
  rewrite IH. reflexivity.
Qed.

Lemma revOnto_acc (s acc : string) : JS.revOnto s acc = JS.revOnto s EmptyString +:+ acc.
Proof.
  revert acc. induction s as [|c s IH]; intros acc; simpl; [reflexivity |].
  rewrite IH, (IH (String c EmptyString)).
  rewrite string_app_assoc. reflexivity.
Qed.

Lemma reverse_app (s t : string) : JS.reverse (s +:+ t) = JS.reverse t +:+ JS.reverse s.
Proof. unfold JS.reverse. rewrite revOnto_app, revOnto_acc. reflexivity. Qed.

Lemma reverse_involutive (s : string) : JS.reverse (JS.reverse s) = s.
Proof.
  induction s as [|c s IH]; [reflexivity |].
  change (String c s) with (String c EmptyString +:+ s) at 1.
  rewrite reverse_app, reverse_app, IH. reflexivity.
Qed.

Lemma trimStart_app (x y : string) :
  JS.trimStart x <> EmptyString -> JS.trimStart (x +:+ y) = JS.trimStart x +:+ y.
Proof.
  induction x as [|c x IH]; intros H; [exfalso; apply H; reflexivity |].
  simpl in *. destruct (JS.isWhiteSpace c); [apply IH, H | reflexivity].
Qed.

Lemma trimEnd_app (a p : string) :
  JS.trimEnd p = p -> p <> EmptyString -> JS.trimEnd (a +:+ p) = a +:+ p.
Proof.
  intros Hp Hne. unfold JS.trimEnd in *. rewrite reverse_app.
  assert (Hn : JS.trimStart (JS.reverse p) <> EmptyString).
  { intros E. rewrite E in Hp. apply Hne. symmetry. exact Hp. }
  rewrite trimStart_app by exact Hn.
  rewrite reverse_app, reverse_involutive, Hp. reflexivity.
Qed.

Lemma splitLinesFrom_plain (cur s : string) :
  noNewline s = true -> JS.splitLinesFrom cur s = [JS.reverse cur +:+ s].
Proof.
  revert cur. induction s as [|c s IH]; intros cur H.
  - simpl. rewrite string_app_nil_r. reflexivity.
  - rewrite noNewline_cons in H. apply andb_true_iff in H as [Hc Hs].
    apply negb_true_iff in Hc. cbn [JS.splitLinesFrom].
    change "010"%char with newline. rewrite Hc, (IH _ Hs).
    unfold JS.reverse. simpl. rewrite revOnto_acc, string_app_assoc. reflexivity.
Qed.

Lemma plainPayload_facts (p : string) :
  plainPayload p = true ->
  p <> EmptyString /\ noNewline p = true /\ JS.trimStart p = p /\ JS.trimEnd p = p.
Proof.
  unfold plainPayload. intros H.
  apply andb_true_iff in H as [H H4]. apply andb_true_iff in H as [H H3].
  apply andb_true_iff in H as [H1 H2].
  apply String.eqb_eq in H3, H4. repeat split; try assumption.
  intros ->. discriminate.
Qed.

(** The block of one frame is decoded into its payload. *)
Lemma frame_block (p : string) :
  plainPayload p = true ->
  let block := JS.trim ("data: " +:+ p) in
  block = "data: " +:+ p
  /\ dataLines (JS.splitLines block) = [p].
Proof.
  intros H. destruct (plainPayload_facts p H) as (Hne & Hnl & Hts & Hte). cbv zeta.
  assert (Hb : JS.trim ("data: " +:+ p) = "data: " +:+ p).
  { unfold JS.trim. change (JS.trimStart ("data: " +:+ p)) with ("data: " +:+ p).
    apply trimEnd_app; assumption. }
  split; [exact Hb |]. rewrite Hb.
  unfold JS.splitLines. rewrite splitLinesFrom_plain.
  - change (JS.reverse EmptyString +:+ ("data: " +:+ p)) with ("data: " +:+ p).
    unfold dataLines.
    change (filter (fun line => JS.startsWith line "data:" = true) ["data: " +:+ p])
      with ["data: " +:+ p].
    cbn [map]. change (JS.drop 5 ("data: " +:+ p)) with (" " +:+ p).
    unfold JS.trim. change (JS.trimStart (" " +:+ p)) with (JS.trimStart p).
    rewrite Hts, Hte. reflexivity.
  - change ("data: " +:+ p) with (String "d" (String "a" (String "t" (String "a"
      (String ":" (String " " p)))))).
    rewrite !noNewline_cons. rewrite Hnl. reflexivity.
Qed.

Lemma frames_length (ps : list string) : (length ps <= String.length (frames ps))%nat.
Proof.
  induction ps as [|p ps IH]; simpl; [lia |].
  rewrite string_length_app. unfold frame. rewrite !string_length_app. simpl. lia.
Qed.

(** The inner loop over a buffer made of frames dispatches the payloads in
    order and leaves the buffer empty, unless a payload ends the decoding. *)
Lemma drain_frames (ps : list string) (fuel : nat) (st : S) :
  Forall (fun p => plainPayload p = true) ps ->
  (length ps <= fuel)%nat ->
  exists buf,
    drain onEvent fuel (frames ps) st
    = (let '(st', flow) := dispatchAll onEvent ps st in (st', buf, flow))
    /\ ((dispatchAll onEvent ps st).2 = Continue -> buf = EmptyString).
Proof.
  revert fuel st. induction ps as [|p ps IH]; intros fuel st Hall Hfuel.
  - exists EmptyString. destruct fuel; simpl; auto.
  - inversion Hall as [|? ? Hp Hps]; subst.
    destruct fuel as [|fuel]; [simpl in Hfuel; lia |].
    destruct (plainPayload_facts p Hp) as (Hne & Hnl & Hts & Hte).
    destruct (frame_block p Hp) as (Hb & Hd).
    assert (Hidx : JS.indexOf (frames (p :: ps)) blankLine
                   = Some (String.length ("data: " +:+ p))).
    { cbn [frames fold_right]. unfold frame.
      rewrite !string_app_assoc. rewrite <- (string_app_assoc "data: " p).
      apply indexOf_blankLine.
      change ("data: " +:+ p) with (String "d" (String "a" (String "t" (String "a"
        (String ":" (String " " p)))))).
      rewrite !noNewline_cons, Hnl. reflexivity. }
    assert (Hframes : frames (p :: ps) = ("data: " +:+ p) +:+ blankLine +:+ frames ps).
    { cbn [frames fold_right]. unfold frame. rewrite !string_app_assoc. reflexivity. }
    cbn [drain]. rewrite Hidx. rewrite Hframes.
    rewrite js_take_app.
    assert (Hdrop : JS.drop (String.length ("data: " +:+ p) + 2)
                      (("data: " +:+ p) +:+ blankLine +:+ frames ps) = frames ps).
    { rewrite <- string_app_assoc.
      replace (String.length ("data: " +:+ p) + 2)%nat
        with (String.length (("data: " +:+ p) +:+ blankLine)).
      - apply js_drop_app.
      - rewrite string_length_app. reflexivity. }
    rewrite Hdrop, Hd, Hb.
    change (JS.nonEmpty ("data: " +:+ p)) with true. cbn [negb JS.join dispatchAll].
    destruct (dispatch onEvent p st) as [st' [| |]].
    + apply IH; [exact Hps | simpl in Hfuel; lia].
    + exists (frames ps). split; [reflexivity | discriminate].
    + exists (frames ps). split; [reflexivity | discriminate].
Qed.

Lemma dispatchAll_app (ps qs : list string) (st : S) :
  dispatchAll onEvent (ps ++ qs)%list st
  = match dispatchAll onEvent ps st with
    | (st', Continue) => dispatchAll onEvent qs st'
    | other => other
    end.
Proof.
  revert st. induction ps as [|p ps IH]; intros st; simpl.
  - destruct (dispatchAll onEvent qs st); reflexivity.
  - destruct (dispatch onEvent p st) as [st' [| |]]; auto.
Qed.

(** The outer loop over reads that each deliver whole frames. *)
Lemma readLoop_frames (reads : list (list string)) (st : S) :
  Forall (Forall (fun p => plainPayload p = true)) reads ->
  exists buf,
    readLoop onEvent (map frames reads) EmptyString st
    = (let '(st', flow) := dispatchAll onEvent (concat reads) st in (st', buf, flow))
    /\ ((dispatchAll onEvent (concat reads) st).2 = Continue -> buf = EmptyString).
Proof.
  revert st. induction reads as [|ps reads IH]; intros st Hall.
  - exists EmptyString. split; reflexivity.
  - inversion Hall as [|? ? Hps Hrest]; subst.
    cbn [map readLoop concat].
    change (EmptyString +:+ frames ps) with (frames ps).
    destruct (drain_frames ps (String.length (frames ps)) st Hps (frames_length ps))
      as (buf & Hd & Hbuf).
    rewrite Hd, dispatchAll_app.
    destruct (dispatchAll onEvent ps st) as [st' [| |]] eqn:E; cbn [fst snd] in *.
    + rewrite (Hbuf eq_refl). apply IH, Hrest.
    + exists buf. split; [reflexivity | discriminate].
    + exists buf. split; [reflexivity | discriminate].
Qed.

(** A body made of frames is decoded frame by frame.  When every payload is
    plain (one non-empty line with no white space around it) and each read
    delivers whole frames, [parseSSE] hands the payloads to [dispatch] in
    their order: it returns the state reached at the end marker or after
    the last payload, and raises when the handler fails on a payload. *)
Theorem frames_are_decoded_in_order :
  forall (reads : list (list string)) (st : S),
    Forall (Forall (fun p => plainPayload p = true)) reads ->
    parseSSE onEvent (map frames reads) None st
    = match dispatchAll onEvent (concat reads) st with
      | (st', Fail) => Raise typeError
      | (st', _) => Ok st'
      end.
Proof.
  intros reads st Hall. unfold parseSSE.
  destruct (readLoop_frames reads st Hall) as (buf & -> & Hbuf).
  destruct (dispatchAll onEvent (concat reads) st) as [st' [| |]]; try reflexivity.
  rewrite (Hbuf eq_refl). reflexivity.
Qed.

End FramingFacts.

Section FramingExample.
Import Gateway Framing Samples.

Lemma frames_are_decoded_in_order_witness :
  let reads := [[Json.lit "{'messages':[{'role':'assistant','content':'hi'}]}"];
                ["not json"; "[DONE]"; "late"]] in
  let start := {| foldMessages := []; lastContent := EmptyString |} in
  Forall (Forall (fun p => plainPayload p = true)) reads
  /\ parseSSE onEvent (map frames reads) None start
     = Ok {| foldMessages := [exampleMessage]; lastContent := "not json" |}.
Proof.
  assert (H : Forall (Forall (fun p => plainPayload p = true))
                [[Json.lit "{'messages':[{'role':'assistant','content':'hi'}]}"];
                 ["not json"; "[DONE]"; "late"]])
    by (repeat constructor).
  split; [exact H |].
  rewrite (frames_are_decoded_in_order onEvent _ _ H). vm_compute. reflexivity.
Defined.

End FramingExample.

Section SseHelperFacts.
Import Gateway Framing SseHelper.

Lemma splitBlankFrom_frame (s rest cur : string) :
  noNewline s = true ->
  splitBlankFrom cur (s +:+ blankLine +:+ rest)
  = (JS.reverse cur +:+ s) :: splitBlank rest.
Proof.
  revert cur. induction s as [|c s IH]; intros cur H.
  - change (EmptyString +:+ blankLine +:+ rest)
      with (String newline (String newline rest)).
    cbn [splitBlankFrom]. rewrite !Ascii.eqb_refl, string_app_nil_r. reflexivity.
  - rewrite noNewline_cons in H. apply andb_true_iff in H as [Hc Hs].
    apply negb_true_iff in Hc.
    change (String c s +:+ blankLine +:+ rest) with (String c (s +:+ blankLine +:+ rest)).
    cbn [splitBlankFrom]. rewrite Hc, (IH _ Hs).
    unfold JS.reverse. cbn [JS.revOnto].
    rewrite (revOnto_acc cur (String c EmptyString)), string_app_assoc. reflexivity.
Qed.

Lemma blockEvent_frame (p : string) :
  plainPayload p = true -> blockEvent ("data: " +:+ p) = Some (eventOf p).
Proof.
  intros H. destruct (plainPayload_facts p H) as (Hne & Hnl & Hts & Hte).
  destruct (frame_block p H) as (Hb & _).
  unfold blockEvent. cbv zeta. rewrite Hb.
  change (JS.nonEmpty ("data: " +:+ p)) with true. cbn [negb].
  unfold JS.splitLines. rewrite splitLinesFrom_plain.
  - change (JS.reverse EmptyString +:+ ("data: " +:+ p)) with ("data: " +:+ p).
    cbn [map]. rewrite Hb.
    change (filter (fun l => JS.nonEmpty l = true) ["data: " +:+ p]) with ["data: " +:+ p].
    change (filter (fun l => JS.startsWith l "data:" = true) ["data: " +:+ p])
      with ["data: " +:+ p].
    cbn [map]. change (JS.drop 5 ("data: " +:+ p)) with (" " +:+ p).
    unfold JS.trim at 1. change (JS.trimStart (" " +:+ p)) with (JS.trimStart p).
    rewrite Hts, Hte. reflexivity.
  - change ("data: " +:+ p) with (String "d" (String "a" (String "t" (String "a"
      (String ":" (String " " p)))))).
    rewrite !noNewline_cons, Hnl. reflexivity.
Qed.

(** The helper for tests and the stream decoder agree on framed bodies: for
    plain payloads, each written on a data line followed by a blank line,
    [parseSSEFromString] lists one event per payload, in order (the end
    marker as [done], a payload that is JSON as its value, any other as
    text), and unlike the decoder it goes on after the end marker; the
    event of a payload is the one [dispatch] hands to the handler first. *)
Theorem helper_lists_the_framed_payloads :
  forall (ps : list string),
    Forall (fun p => plainPayload p = true) ps ->
    parseSSEFromString (frames ps) = map eventOf ps
    /\ forall (S : Type) (onEvent : SSEEvent -> S -> S * bool) (p : string) (st : S),
         (onEvent (eventOf p) st).2 = true ->
         dispatch onEvent p st
         = ((onEvent (eventOf p) st).1,
            if String.eqb p "[DONE]" then Stop else Continue).
Proof.
  intros ps Hall. split.
  - unfold parseSSEFromString.
    induction Hall as [|p ps Hp Hps IH]; [reflexivity |].
    destruct (plainPayload_facts p Hp) as (Hne & Hnl & Hts & Hte).
    assert (Hframes : frames (p :: ps) = ("data: " +:+ p) +:+ blankLine +:+ frames ps).
    { cbn [frames fold_right]. unfold frame. rewrite !string_app_assoc. reflexivity. }
    rewrite Hframes. unfold splitBlank at 1. rewrite splitBlankFrom_frame.
    + change (JS.reverse EmptyString +:+ ("data: " +:+ p)) with ("data: " +:+ p).
      cbn [omap list_omap]. rewrite (blockEvent_frame p Hp). cbn [map].
      f_equal. exact IH.
    + change ("data: " +:+ p) with (String "d" (String "a" (String "t" (String "a"
        (String ":" (String " " p)))))).
      rewrite !noNewline_cons, Hnl. reflexivity.
  - intros S onEvent p st Hok. unfold dispatch, eventOf in *.
    destruct (String.eqb p "[DONE]").
    + destruct (onEvent EvDone st) as [st' ok]. simpl in Hok. subst ok. reflexivity.
    + destruct (Json.parse p) as [j|].
      * destruct (onEvent (EvJson j) st) as [st' ok]. simpl in Hok. subst ok. reflexivity.
      * destruct (onEvent (EvText p) st) as [st' ok]. simpl in Hok. subst ok. reflexivity.
Qed.

Lemma helper_lists_the_framed_payloads_witness :
  let ps := [Json.lit "{'messages':[]}"; "[DONE]"; "late"] in
  Forall (fun p => plainPayload p = true) ps
  /\ parseSSEFromString (frames ps)
     = [EvJson (JObj [("messages", JArr [])]); EvDone; EvText "late"].
Proof.
  assert (H : Forall (fun p => plainPayload p = true)
                [Json.lit "{'messages':[]}"; "[DONE]"; "late"]) by (repeat constructor).
  split; [exact H |].
  rewrite (proj1 (helper_lists_the_framed_payloads _ H)). vm_compute. reflexivity.
Defined.

End SseHelperFacts.

(* ===================================================================== *)
(** ** More on the stream reclassifier *)
(* ===================================================================== *)

Section ReclassifierMore.
Import Reclassifier Samples.

Lemma typed_event (t : string) (p : json) : typed (event t p).
Proof. reflexivity. Qed.

Lemma Forall_typed_map {A} (f : A -> json) (l : list A) :
  (forall a, typed (f a)) -> Forall typed (map f l).
Proof. intros H. induction l; simpl; constructor; auto. Qed.

Lemma classify_typed (source : json) (t : string) : typed (classify source t).
Proof. unfold classify. destruct (isStatusLike t || isEphemeralChunk source); reflexivity. Qed.

Lemma processLine_typed (l : string) : Forall typed (processLine l).
Proof.
  assert (Hraw : Forall typed
            (if isPlanLike (JStr l) then []
             else if isStatusLike l
                  then [event "status" (JObj [("text", JStr l); ("ephemeral", JBool true)])]
                  else [event "raw" (JStr l)])).
  { destruct (isPlanLike (JStr l)); [constructor |].
    destruct (isStatusLike l); repeat constructor. }
  unfold processLine. cbv zeta.
  destruct (Json.parse l) as [parsed|].
  - destruct (truthy parsed && isString (get parsed "type")) eqn:E.
    + apply andb_true_iff in E as [_ E]. repeat constructor. exact E.
    + destruct (isPlanLike parsed); [repeat constructor |].
      apply Forall_typed_map. apply classify_typed.
  - destruct (JS.indexOf l "{") as [first|]; [| exact Hraw].
    destruct (JS.indexOf l "}"); [| exact Hraw].
    destruct (JS.lastIndexOfChar l "}") as [last|]; [| exact Hraw].
    destruct (first <? last)%nat; [| exact Hraw].
    destruct (Json.parse _) as [sub|]; [| exact Hraw].
    destruct (isPlanLike sub); [repeat constructor |].
    apply Forall_typed_map. reflexivity.
Qed.

Lemma processText_typed (text : string) : Forall typed (processText text).
Proof.
  unfold processText.
  induction (filter (fun l => JS.nonEmpty l = true) (JS.splitCrLf text)) as [|l ls IH];
    simpl; [constructor |].
  apply Forall_app. split; [apply processLine_typed | exact IH].
Qed.

Lemma processChunk_typed now chunk prev : Forall typed (processChunk now chunk prev).1.
Proof.
  unfold processChunk, emitMetadata.
  destruct (extractMetadata now chunk prev) as [meta ctx]. simpl.
  apply Forall_app. split.
  - destruct meta; repeat constructor.
  - destruct chunk as [text | v]; [apply processText_typed |].
    destruct v; try (apply Forall_typed_map; apply classify_typed);
      try apply processText_typed;
      match goal with |- context [isStatusLike ?x] => destruct (isStatusLike x) end;
      repeat constructor.
Qed.

(** Every event the response stream emits is an object with a string
    [type] member, whatever the chunks are: bytes, text, objects, arrays,
    numbers or null. *)
Theorem every_event_has_a_type :
  forall (chunks : list (Z * Chunk)) (prev : option json) (e : json),
    In e (responseStream chunks prev) ->
    exists t, get e "type" = Some (JStr t).
Proof.
  intros chunks prev e Hin.
  assert (H : Forall typed (responseStream chunks prev)).
  { clear. revert prev. induction chunks as [|[now chunk] rest IH]; intros prev; simpl;
      [constructor |].
    pose proof (processChunk_typed now chunk prev) as Hc.
    destruct (processChunk now chunk prev) as [events next]. simpl in Hc.
    apply Forall_app. split; [exact Hc | apply IH]. }
  rewrite Forall_forall in H. specialize (H e).
  assert (He : typed e).
  { apply H. apply list_elem_of_In. exact Hin. }
  unfold typed, eventType, isString in He.
  destruct (get e "type") as [[]|]; try discriminate. eauto.
Qed.

Lemma every_event_has_a_type_witness :
  let events := responseStream [(5, routingChunk); (6, ChunkBytes planLine)] None in
  In (event "meta" planObject) events
  /\ exists t, get (event "meta" planObject) "type" = Some (JStr t).
Proof.
  assert (H : In (event "meta" planObject)
                (responseStream [(5, routingChunk); (6, ChunkBytes planLine)] None))
    by (vm_compute; repeat (first [left; reflexivity | right])).
  split; [exact H |].
  exact (every_event_has_a_type [(5, routingChunk); (6, ChunkBytes planLine)] None _ H).
Defined.

(** A change of workflow context is reported once.  For a chunk that has
    none of the four shapes of higher priority and whose workflow context is
    a non-empty string other than the context carried so far, a
    [workflow_context] metadata event is emitted and the context is carried
    on; the same chunk handled again right after emits no metadata. *)
Theorem workflow_context_is_reported_once :
  forall (now1 now2 : Z) (c : json) (s : string) (prev : option json),
    get c "workflowContext" = Some (JStr s) ->
    s <> EmptyString ->
    prev <> Some (JStr s) ->
    isPlannerRecommendation c = false ->
    isAgentRoutingDecision c = false ->
    isSupervisorDecision c = false ->
    isAgentTransition c = false ->
    lastMessageIsNull (ChunkValue c) = false ->
    let first := emitMetadata now1 (ChunkValue c) prev in
    let second := emitMetadata now2 (ChunkValue c) first.2 in
    (exists m, first.1 = [event "metadata" m]
               /\ get m "type" = Some (JStr "workflow_context")
               /\ optGet (get m "data") "context" = Some (JStr s))
    /\ first.2 = Some (JStr s)
    /\ second = ([], Some (JStr s)).
Proof.
  intros now1 now2 c s prev Hw Hs Hprev H1 H2 H3 H4 H5.
  assert (Hneq : strictEq (Some (JStr s)) prev = false).
  { destruct prev as [[]|]; simpl; try reflexivity.
    apply String.eqb_neq. congruence. }
  assert (Heq : strictEq (Some (JStr s)) (Some (JStr s)) = true)
    by (simpl; apply String.eqb_refl).
  assert (Ht : truthyO (Some (JStr s)) = true) by (destruct s; [congruence | reflexivity]).
  assert (Hstep : forall now p,
            extractMetadata now (ChunkValue c) p
            = if negb (strictEq (Some (JStr s)) p)
              then (Some (metadata "workflow_context"
                            (Some (object
                               [("context", Some (JStr s));
                                ("dealData", presentOrNull (get c "dealData"));
                                ("pendingProduct", presentOrNull (get c "pendingProduct"))]))
                            now), Some (JStr s))
              else (None, p)).
  { intros now p. destruct c as [| | | |items|fields]; try (simpl in Hw; discriminate Hw).
    unfold extractMetadata.
    unfold isPlannerRecommendation in H1. unfold orValue.
    apply orb_false_iff in H1 as [H1a H1b]. rewrite H1a, H1b.
    unfold isAgentRoutingDecision in H2. unfold isSupervisorDecision in H3.
    unfold isAgentTransition in H4. unfold lastMessageIsNull in H5.
    rewrite Hw, Ht. cbn [andb].
    destruct (routable (JObj fields)) eqn:Er; cbn [andb] in H2, H3 |- *.
    - destruct (lastMessage (JObj fields)) as [| |m] eqn:El; try discriminate.
      + rewrite H3. reflexivity.
      + rewrite H2, H3, H4. reflexivity.
    - destruct (lastMessage (JObj fields)) as [| |m] eqn:El; try discriminate.
      + reflexivity.
      + rewrite H4. reflexivity. }
  cbv zeta. unfold emitMetadata. rewrite !Hstep, Hneq. cbn [negb fst snd].
  rewrite ?Hstep, Heq. cbn [negb]. split; [| split; reflexivity].
  eexists. split; [reflexivity |]. split; reflexivity.
Qed.

Lemma workflow_context_is_reported_once_witness :
  let c := JObj [("workflowContext", JStr "checkout")] in
  let first := emitMetadata 1 (ChunkValue c) (Some (JStr "browsing")) in
  first.2 = Some (JStr "checkout")
  /\ emitMetadata 2 (ChunkValue c) first.2 = ([], Some (JStr "checkout")).
Proof.
  destruct (workflow_context_is_reported_once 1 2
              (JObj [("workflowContext", JStr "checkout")]) "checkout"
              (Some (JStr "browsing")) eq_refl ltac:(discriminate) ltac:(discriminate)
              eq_refl eq_refl eq_refl eq_refl eq_refl) as (_ & Hc & Hs).
  split; [exact Hc | exact Hs].
Defined.

Lemma splitCrLfFrom_line (a b cur : string) :
  endsWithCr a = false ->
  JS.splitCrLfFrom cur (a +:+ String "010" b)
  = (JS.splitCrLfFrom cur a ++ JS.splitCrLf b)%list.
Proof.
  revert cur. induction a as [|c a IH]; intros cur Hn; [reflexivity |].
  change (String c a +:+ String "010" b) with (String c (a +:+ String "010" b)).
  cbn [JS.splitCrLfFrom].
  destruct a as [|d a'].
  - simpl in Hn. rewrite Hn. destruct (Ascii.eqb c "010"); reflexivity.
  - assert (Hn' : endsWithCr (String d a') = false) by exact Hn.
    destruct (Ascii.eqb c "010"); [rewrite IH by exact Hn'; reflexivity |].
    destruct (Ascii.eqb c "013"); [| apply IH; exact Hn'].
    change (String d a' +:+ String "010" b) with (String d (a' +:+ String "010" b)).
    cbv beta iota.
    destruct (Ascii.eqb d "010") eqn:Ed; [| apply (IH (String c cur)); exact Hn'].
    specialize (IH EmptyString Hn').
    change (String d a' +:+ String "010" b) with (String d (a' +:+ String "010" b)) in IH.
    cbn [JS.splitCrLfFrom] in IH. rewrite Ed in IH.
    injection IH as IH. rewrite IH. reflexivity.
Qed.

(** The events of a text are those of its lines, so cutting a textual chunk
    at a line end changes nothing: when [a] does not end in a carriage
    return, the stream over the single chunk [a], line feed, [b] emits the
    same events as the stream over the two chunks [a] and [b]. *)
Theorem chunking_at_line_ends_is_invisible :
  forall (a b : string) (now now1 now2 : Z) (rest : list (Z * Chunk))
         (prev : option json),
    endsWithCr a = false ->
    responseStream ((now, ChunkBytes (a +:+ String "010" b)) :: rest) prev
    = responseStream ((now1, ChunkBytes a) :: (now2, ChunkBytes b) :: rest) prev
    /\ processText (a +:+ String "010" b) = (processText a ++ processText b)%list.
Proof.
  intros a b now now1 now2 rest prev Hn.
  assert (H : processText (a +:+ String "010" b) = (processText a ++ processText b)%list).
  { unfold processText, JS.splitCrLf.
    rewrite (splitCrLfFrom_line a b EmptyString Hn).
    rewrite filter_app, flat_map_app. reflexivity. }
  split; [| exact H].
  cbn [responseStream processChunk emitMetadata extractMetadata app].
  rewrite H, <- app_assoc. reflexivity.
Qed.

Lemma chunking_at_line_ends_is_invisible_witness :
  endsWithCr "Searching the catalog" = false
  /\ responseStream [(1, ChunkBytes ("Searching the catalog" +:+ String "010" planLine))] None
     = responseStream [(2, ChunkBytes "Searching the catalog"); (3, ChunkBytes planLine)] None.
Proof.
  split; [reflexivity |].
  exact (proj1 (chunking_at_line_ends_is_invisible "Searching the catalog" planLine
                  1 2 3 [] None eq_refl)).
Defined.

End ReclassifierMore.

Section ReadableTextsFacts.
Import Reclassifier.

Lemma inside_trans (v x obj : json) : inside v x -> inside x obj -> inside v obj.
Proof.
  intros Hv Hx. induction Hx as [|fields k y Hk Hy IH|items y Hin Hy IH].
  - exact Hv.
  - exact (inside_member v fields k y Hk IH).
  - exact (inside_item v items y Hin IH).
Qed.

Lemma inside_get (o : json) (k : string) (x : json) : get o k = Some x -> inside x o.
Proof.
  destruct o as [| | | | |fields]; simpl; try discriminate.
  intros H. exact (inside_member x fields k x H (inside_here x)).
Qed.

Lemma assocGet_In (k : string) (fields : list (string * json)) (x : json) :
  Json.assocGet k fields = Some x -> exists k', In (k', x) fields.
Proof.
  induction fields as [|[k' v] rest IH]; simpl; [discriminate |].
  destruct (String.eqb k k').
  - intros [= ->]. exists k'. left. reflexivity.
  - intros H. destruct (IH H) as (k'' & Hin). exists k''. right. exact Hin.
Qed.

Lemma inside_printsAsCode (v obj : json) :
  inside v obj -> printsAsCode obj = true -> printsAsCode v = true.
Proof.
  intros Hin. induction Hin as [|fields k x Hk Hx IH|items x Hi Hx IH]; intros Hp.
  - exact Hp.
  - apply IH. simpl in Hp. apply andb_true_iff in Hp. destruct Hp as [_ Hp].
    destruct (assocGet_In k fields x Hk) as (k' & Hin).
    rewrite forallb_forall in Hp. specialize (Hp _ Hin). simpl in Hp.
    apply andb_true_iff in Hp. exact (proj2 Hp).
  - apply IH. simpl in Hp. rewrite forallb_forall in Hp. exact (Hp _ Hi).
Qed.

Lemma surfaced_inside (x obj : json) (l : list string) :
  inside x obj -> Forall (surfaced x) l -> Forall (surfaced obj) l.
Proof.
  intros Hx Hl. eapply Forall_impl; [exact Hl |].
  intros t [H | (v & Hv & Hs & Hp & Ht)]; [left; exact H |].
  right. exists v. split; [exact (inside_trans v x obj Hv Hx) | auto].
Qed.

Lemma textIfNotPlan_surfaced (o : json) (s : string) : Forall (surfaced o) (textIfNotPlan s).
Proof.
  unfold textIfNotPlan. destruct (isPlanLike (JStr s)) eqn:E; [constructor |].
  constructor; [left; exact E | constructor].
Qed.

Lemma stringIfNotPlan_surfaced (o : json) (v : option json) :
  Forall (surfaced o) (stringIfNotPlan v).
Proof.
  destruct v as [[]|]; simpl; try constructor. apply textIfNotPlan_surfaced.
Qed.

Lemma Forall_flat_map_in {A B} (P : B -> Prop) (f : A -> list B) (l : list A) :
  (forall a, In a l -> Forall P (f a)) -> Forall P (flat_map f l).
Proof.
  induction l as [|a l IH]; intros H; simpl; [constructor |].
  apply Forall_app. split; [apply H; left; reflexivity |].
  apply IH. intros b Hb. apply H. right. exact Hb.
Qed.

Lemma extractReadableTextsFrom_surfaced (fuel : nat) (obj : json) :
  Forall (surfaced obj) (extractReadableTextsFrom fuel obj).
Proof.
  revert obj. induction fuel as [|fuel IH]; intros obj; [constructor |].
  assert (Hgen : forall o : json,
            (forall s, o <> JStr s) ->
            Forall (surfaced o)
              (let out1 :=
                 if truthyO (get o "message") && truthyO (optGet (get o "message") "kwargs")
                 then stringIfNotPlan (optGet (optGet (get o "message") "kwargs") "content")
                 else [] in
               let out2 := stringIfNotPlan (get o "content") in
               let out3 :=
                 if truthyO (get o "message")
                 then stringIfNotPlan (optGet (get o "message") "content")
                 else [] in
               let out4 :=
                 flat_map (fun k =>
                             match get o k with
                             | Some v => if truthy v then extractReadableTextsFrom fuel v else []
                             | None => []
                             end) agentKeys in
               let out5 :=
                 match get o "messages" with
                 | Some (JArr ms) =>
                     flat_map (fun m =>
                                 if truthy m && truthyO (get m "message") then
                                   match get m "message" with
                                   | Some mm => extractReadableTextsFrom fuel mm
                                   | None => []
                                   end
                                 else if truthy m && isString (get m "content") then
                                   stringIfNotPlan (get m "content")
                                 else match m with
                                      | JStr s => if truthy m then textIfNotPlan s else []
                                      | _ => []
                                      end) ms
                 | _ => []
                 end in
               let out := (out1 ++ out2 ++ out3 ++ out4 ++ out5)%list in
               let out :=
                 match out with
                 | [] =>
                     match contentMatch (Json.stringify o) with
                     | Some m => textIfNotPlan m
                     | None => []
                     end
                 | _ => out
                 end in
               match out with
               | [] => if isPlanLike o then [] else [Json.stringify o]
               | _ => out
               end)).
  { intros o Hnot. cbv zeta.
    match goal with
    | |- Forall (surfaced o)
           match (match ?all with [] => ?fb | _ => _ end) with [] => ?last | _ => _ end =>
        assert (Hall : Forall (surfaced o) all);
        [| assert (Hfb : Forall (surfaced o) fb);
           [| assert (Hlast : Forall (surfaced o) last) ] ]
    end.
    - apply Forall_app; split; [| apply Forall_app; split;
        [| apply Forall_app; split; [| apply Forall_app; split]]].
      + destruct (truthyO (get o "message") && truthyO (optGet (get o "message") "kwargs"));
          [apply stringIfNotPlan_surfaced | constructor].
      + apply stringIfNotPlan_surfaced.
      + destruct (truthyO (get o "message")); [apply stringIfNotPlan_surfaced | constructor].
      + apply Forall_flat_map_in. intros k _.
        destruct (get o k) as [v|] eqn:Ek; [| constructor].
        destruct (truthy v); [| constructor].
        apply (surfaced_inside v o); [exact (inside_get o k v Ek) | apply IH].
      + destruct (get o "messages") as [[| | | |ms|]|] eqn:Ems; try constructor.
        apply Forall_flat_map_in. intros m Hm.
        destruct (truthy m && truthyO (get m "message")).
        * destruct (get m "message") as [mm|] eqn:Emm; [| constructor].
          apply (surfaced_inside mm o); [| apply IH].
          apply (inside_trans mm m o); [exact (inside_get m "message" mm Emm) |].
          apply (inside_trans m (JArr ms) o); [| exact (inside_get o "messages" _ Ems)].
          exact (inside_item m ms m Hm (inside_here m)).
        * destruct (truthy m && isString (get m "content"));
            [apply stringIfNotPlan_surfaced |].
          destruct m; try constructor.
          destruct (truthy _); [apply textIfNotPlan_surfaced | constructor].
    - destruct (contentMatch (Json.stringify o)); [apply textIfNotPlan_surfaced | constructor].
    - destruct (isPlanLike o) eqn:E; [constructor |].
      constructor; [| constructor].
      right. exists o. split; [apply inside_here | auto].
    - match goal with
      | |- Forall (surfaced o)
             match (match ?all with [] => ?fb | _ => _ end) with [] => ?last | _ => _ end =>
          destruct all; [destruct fb; assumption | assumption]
      end. }
  destruct obj; cbn [extractReadableTextsFrom];
    try (apply Hgen; intros s; discriminate);
    [constructor | apply textIfNotPlan_surfaced].
Qed.

(** What [extractReadableTexts] returns for a chunk, for chunks that are
    printed as the program prints them.  Each text is a string that is not
    plan-like; or it is the print of a value found in the chunk (the chunk
    itself, or a member or an item of it at some depth) that is not a
    string and is not plan-like itself, which is the last resort when
    nothing readable is found in that value.  A plan that lies deeper
    inside such a value is printed with it. *)
Theorem extracted_texts_are_not_plans :
  forall (obj : json) (t : string),
    printsAsCode obj = true ->
    In t (extractReadableTexts obj) ->
    isPlanLike (JStr t) = false
    \/ exists v,
         inside v obj /\ printsAsCode v = true /\ (forall s, v <> JStr s)
         /\ isPlanLike v = false /\ t = Json.stringify v.
Proof.
  intros obj t Hp Hin.
  pose proof (extractReadableTextsFrom_surfaced (S (depth obj)) obj) as H.
  rewrite Forall_forall in H.
  destruct (H t (proj2 (list_elem_of_In _ _) Hin)) as [Hs | (v & Hv & Hn & Hpl & Ht)];
    [left; exact Hs |].
  right. exists v. split; [exact Hv |].
  split; [exact (inside_printsAsCode v obj Hv Hp) | auto].
Qed.

Lemma extracted_texts_are_not_plans_witness :
  let chunk := JObj [("content", JStr "Here are apples"); ("total", JNum "12.5")] in
  let nested :=
    JObj [("supervisor",
           JObj [("action", JStr "route"); ("confidence", JNum "1")])] in
  printsAsCode chunk = true
  /\ printsAsCode nested = true
  /\ In "Here are apples" (extractReadableTexts chunk)
  /\ In (Json.stringify nested) (extractReadableTexts nested)
  /\ (isPlanLike (JStr "Here are apples") = false
      \/ exists v,
           inside v chunk /\ printsAsCode v = true /\ (forall s, v <> JStr s)
           /\ isPlanLike v = false /\ "Here are apples" = Json.stringify v)
  /\ (isPlanLike (JStr (Json.stringify nested)) = false
      \/ exists v,
           inside v nested /\ printsAsCode v = true /\ (forall s, v <> JStr s)
           /\ isPlanLike v = false /\ Json.stringify nested = Json.stringify v).
Proof.
  intros chunk nested.
  assert (P1 : printsAsCode chunk = true) by (vm_compute; reflexivity).
  assert (P2 : printsAsCode nested = true) by (vm_compute; reflexivity).
  assert (H1 : In "Here are apples" (extractReadableTexts chunk))
    by (vm_compute; left; reflexivity).
  assert (H2 : In (Json.stringify nested) (extractReadableTexts nested))
    by (vm_compute; left; reflexivity).
  split; [exact P1 | split; [exact P2 | split; [exact H1 | split; [exact H2 |]]]].
  split; [exact (extracted_texts_are_not_plans _ _ P1 H1)
         | exact (extracted_texts_are_not_plans _ _ P2 H2)].
Defined.

End ReadableTextsFacts.

(* ===================================================================== *)
(** ** MCP authentication and the token cache *)
(* ===================================================================== *)

Section McpAuthFacts.
Import McpAuth.

(** A checkout on the cart endpoint passes the user-context guard exactly
    when the request carries no API key, a client token and a user token:
    a request authenticated by an API key, or by nothing at all, is always
    answered with the user-context error, whatever else it carries; and
    every other action passes the guard. *)
Theorem checkout_needs_the_user_token :
  forall (req : Request) (body : json),
    (isStr (get body "action") "checkout" = true ->
     (cartGuard req body = None
      <-> given (x_mcp_api_key req) = false
          /\ given (x_client_token req) = true
          /\ given (x_user_token req) = true)
     /\ (cartGuard req body <> None -> cartGuard req body = Some userContextRequired))
    /\ (isStr (get body "action") "checkout" = false -> cartGuard req body = None).
Proof.
  intros req body. unfold cartGuard. split.
  - intros ->. unfold requireUserContext, verifyMCPAuth.
    assert (Hlen : forall k, given k = true ->
                     (0 <? String.length (orLiteral k EmptyString))%nat = true).
    { intros [[|a s]|]; simpl; try discriminate. reflexivity. }
    destruct (given (x_mcp_api_key req)) eqn:Ek.
    + rewrite (Hlen _ Ek). simpl. split; [| reflexivity].
      split; [discriminate | intros (H & _); discriminate].
    + cbn [andb].
      destruct (given (x_client_token req)) eqn:Ec.
      * destruct (given (x_user_token req)) eqn:Eu; simpl.
        -- rewrite Eu. simpl. split; [| congruence]. split; auto.
        -- split; [| reflexivity]. split; [discriminate | intros (_ & _ & H); discriminate].
      * simpl. rewrite orb_true_r. split; [| reflexivity].
        split; [discriminate | intros (_ & H & _); discriminate].
  - intros ->. reflexivity.
Qed.

Lemma checkout_needs_the_user_token_witness :
  let body := JObj [("action", JStr "checkout")] in
  let withKey := {| x_mcp_api_key := Some "secret"; x_client_token := Some "client";
                    x_user_token := Some "user"; authorization := None;
                    sessionCookie := None |} in
  let dual := {| x_mcp_api_key := None; x_client_token := Some "client";
                 x_user_token := Some "user"; authorization := None;
                 sessionCookie := None |} in
  isStr (get body "action") "checkout" = true
  /\ cartGuard withKey body = Some userContextRequired
  /\ cartGuard dual body = None.
Proof.
  assert (H : isStr (get (JObj [("action", JStr "checkout")]) "action") "checkout" = true)
    by reflexivity.
  split; [exact H |]. split.
  - apply (proj1 (checkout_needs_the_user_token _ _) H). discriminate.
  - apply (proj1 (checkout_needs_the_user_token _ _) H). repeat split.
Defined.

End McpAuthFacts.

Section OAuth2Facts.
Import OAuth2.

(** The reuse window of a fetched token.  When the cache cannot serve the
    call (no token cached, or the cached one is no longer valid) and the
    endpoint answers with a token and a lifetime of [e] seconds, one request
    is issued and the token is returned; from then on every call made before
    [now' + (e - 30) * 1000] returns that token without any request, and
    every call made at or after that time issues a new request. *)
Theorem fetched_token_reuse_window :
  forall (cfg : Config) (now now' e : Z) (tok : string) (answer : TokenAnswer) (c : Client),
    match cachedToken c with Some t => stillValid now t = false | None => True end ->
    fetchAccessToken cfg answer = Ciba.Returned (tok, Some e) ->
    let run := getAccessToken cfg now answer now' c in
    run.1 = Ciba.Returned tok
    /\ requests run.2 = S (requests c)
    /\ forall (t t' : Z) (answer' : TokenAnswer),
         (t < now' + (e - 30) * 1000 ->
          getAccessToken cfg t answer' t' run.2 = (Ciba.Returned tok, run.2))
         /\ (now' + (e - 30) * 1000 <= t ->
             requests (getAccessToken cfg t answer' t' run.2).2 = S (requests run.2)).
Proof.
  intros cfg now now' e tok answer c Hmiss Hfetch. cbv zeta.
  assert (E : getAccessToken cfg now answer now' c
              = (Ciba.Returned tok,
                 {| cachedToken := Some {| access_token := tok;
                                           expires_at := Some (now' + (e - 30) * 1000) |};
                    requests := S (requests c) |})).
  { unfold getAccessToken. destruct (cachedToken c) as [old|].
    - rewrite Hmiss, Hfetch. reflexivity.
    - rewrite Hfetch. reflexivity. }
  rewrite E. simpl. split; [reflexivity | split; [reflexivity |]].
  intros t t' answer'. unfold getAccessToken, stillValid. simpl. split.
  - intros Hlt. apply Z.ltb_lt in Hlt. rewrite Hlt. reflexivity.
  - intros Hge. apply Z.ltb_ge in Hge. rewrite Hge.
    destruct (fetchAccessToken cfg answer') as [[tok2 e2]|m]; reflexivity.
Qed.

Lemma fetched_token_reuse_window_witness :
  let cfg := {| clientId := "shop"; clientSecret := "s3cret";
                tokenEndpoint := "https://idp.example/token" |} in
  let fresh := {| cachedToken := None; requests := 0 |} in
  let run := getAccessToken cfg 1000 (TokenBody (Some "tok-1") (Some 3600)) 1000 fresh in
  run.1 = Ciba.Returned "tok-1"
  /\ requests run.2 = 1%nat
  /\ getAccessToken cfg 3570999 (TokenNetworkError "offline") 3570999 run.2
     = (Ciba.Returned "tok-1", run.2)
  /\ requests (getAccessToken cfg 3571000 (TokenNetworkError "offline") 3571000 run.2).2
     = 2%nat.
Proof.
  destruct (fetched_token_reuse_window
              {| clientId := "shop"; clientSecret := "s3cret";
                 tokenEndpoint := "https://idp.example/token" |}
              1000 1000 3600 "tok-1" (TokenBody (Some "tok-1") (Some 3600))
              {| cachedToken := None; requests := 0 |} I eq_refl) as (H1 & H2 & H3).
  destruct (H3 3570999 3570999 (TokenNetworkError "offline")) as (Hin & _).
  destruct (H3 3571000 3571000 (TokenNetworkError "offline")) as (_ & Hout).
  split; [exact H1 | split; [exact H2 | split]].
  - apply Hin. reflexivity.
  - rewrite Hout by (vm_compute; discriminate). rewrite H2. reflexivity.
Defined.

(** A refresh that fails leaves the cache as it was: the error is raised,
    the token cached before (or none) is still the cached one, so the call
    that follows asks the endpoint again; and a token answer without a
    lifetime is returned but can never be served from the cache. *)
Theorem failed_refresh_keeps_the_cache :
  forall (cfg : Config) (now now' : Z) (answer : TokenAnswer) (c : Client),
    match cachedToken c with Some t => stillValid now t = false | None => True end ->
    let run := getAccessToken cfg now answer now' c in
    requests run.2 = S (requests c)
    /\ (forall m, fetchAccessToken cfg answer = Ciba.Thrown m ->
          run.1 = Ciba.Thrown m /\ cachedToken run.2 = cachedToken c)
    /\ (forall tok, fetchAccessToken cfg answer = Ciba.Returned (tok, None) ->
          run.1 = Ciba.Returned tok
          /\ forall t t' answer',
               requests (getAccessToken cfg t answer' t' run.2).2 = S (requests run.2)).
Proof.
  intros cfg now now' answer c Hmiss. cbv zeta.
  assert (E : getAccessToken cfg now answer now' c
              = match fetchAccessToken cfg answer with
                | Ciba.Thrown m =>
                    (Ciba.Thrown m,
                     {| cachedToken := cachedToken c; requests := S (requests c) |})
                | Ciba.Returned (tok, e) =>
                    (Ciba.Returned tok,
                     {| cachedToken :=
                          Some {| access_token := tok;
                                  expires_at := (fun x => now' + (x - 30) * 1000) <$> e |};
                        requests := S (requests c) |})
                end).
  { unfold getAccessToken. destruct (cachedToken c) as [old|]; [rewrite Hmiss |]; reflexivity. }
  rewrite E. split; [| split].
  - destruct (fetchAccessToken cfg answer) as [[tok e]|m]; reflexivity.
  - intros m ->. split; reflexivity.
  - intros tok ->. split; [reflexivity |].
    intros t t' answer'. unfold getAccessToken, stillValid. simpl.
    destruct (fetchAccessToken cfg answer') as [[tok2 e2]|m]; reflexivity.
Qed.

Lemma failed_refresh_keeps_the_cache_witness :
  let cfg := {| clientId := "shop"; clientSecret := "s3cret";
                tokenEndpoint := "https://idp.example/token" |} in
  let old := {| cachedToken := Some {| access_token := "tok-0"; expires_at := Some 500 |};
                requests := 1 |} in
  let run := getAccessToken cfg 1000 (TokenHttpError 503 "Service Unavailable" "down") 1000 old in
  stillValid 1000 {| access_token := "tok-0"; expires_at := Some 500 |} = false
  /\ requests run.2 = 2%nat
  /\ cachedToken run.2 = cachedToken old.
Proof.
  assert (H : stillValid 1000 {| access_token := "tok-0"; expires_at := Some 500 |} = false)
    by reflexivity.
  destruct (failed_refresh_keeps_the_cache
              {| clientId := "shop"; clientSecret := "s3cret";
                 tokenEndpoint := "https://idp.example/token" |}
              1000 1000 (TokenHttpError 503 "Service Unavailable" "down")
              {| cachedToken := Some {| access_token := "tok-0"; expires_at := Some 500 |};
                 requests := 1 |} H) as (H1 & H2 & _).
  split; [exact H | split; [exact H1 |]].
  exact (proj2 (H2 _ eq_refl)).
Defined.

End OAuth2Facts.

(* ===================================================================== *)
(** ** Conversation identifiers *)
(* ===================================================================== *)

Section ConversationIdFacts.
Import ConversationId.
Local Open Scope N_scope.

Lemma digit36_facts (d : N) :
  d < 36 -> digitValue (digit36 d) = Some d /\ isLowerAlnum (digit36 d) = true.
Proof.
  intros Hd.
  assert (H : forall k : nat, (k < 36)%nat ->
                digitValue (digit36 (N.of_nat k)) = Some (N.of_nat k)
                /\ isLowerAlnum (digit36 (N.of_nat k)) = true).
  { intros k Hk. do 36 (destruct k as [|k]; [vm_compute; split; reflexivity |]). lia. }
  rewrite <- (N2Nat.id d). apply H. lia.
Qed.

Lemma allAlnum_cons (c : ascii) (s : string) :
  allAlnum (String c s) = isLowerAlnum c && allAlnum s.
Proof. unfold allAlnum. simpl. rewrite negb_orb, negb_involutive. reflexivity. Qed.

Lemma allAlnum_app (s1 s2 : string) :
  allAlnum (s1 +:+ s2) = allAlnum s1 && allAlnum s2.
Proof.
  induction s1 as [|c s1 IH]; [reflexivity |].
  change (String c s1 +:+ s2) with (String c (s1 +:+ s2)).
  rewrite !allAlnum_cons, IH, andb_assoc. reflexivity.
Qed.

Lemma alnum_is_digit (c : ascii) :
  isLowerAlnum c = true -> exists d, digitValue c = Some d.
Proof.
  unfold isLowerAlnum, digitValue. cbv zeta.
  destruct ((48 <=? N_of_ascii c) && (N_of_ascii c <=? 57))%bool; [eauto |].
  destruct ((97 <=? N_of_ascii c) && (N_of_ascii c <=? 122))%bool; [eauto |].
  discriminate.
Qed.

Lemma parseDigits_app (s1 s2 : string) (acc : N) :
  allAlnum s1 = true ->
  parseDigits (s1 +:+ s2) acc = parseDigits s2 (parseDigits s1 acc).
Proof.
  revert acc. induction s1 as [|c s1 IH]; intros acc H; [reflexivity |].
  rewrite allAlnum_cons in H. apply andb_true_iff in H as [Hc Hs].
  change (String c s1 +:+ s2) with (String c (s1 +:+ s2)). simpl.
  destruct (alnum_is_digit c Hc) as [d ->]. apply IH, Hs.
Qed.

Lemma toBase36_alnum (fuel : nat) (n : N) : allAlnum (toBase36 fuel n) = true.
Proof.
  revert n. induction fuel as [|f IH]; intros n; [reflexivity |].
  cbn [toBase36]. rewrite allAlnum_app, allAlnum_cons.
  destruct (digit36_facts (n mod 36)) as [_ ->]; [apply N.mod_lt; lia |].
  destruct (n / 36 =? 0); [reflexivity | rewrite IH; reflexivity].
Qed.

Lemma toBase36_value (fuel : nat) (n : N) :
  n < 36 ^ N.of_nat fuel -> parseDigits (toBase36 fuel n) 0 = n.
Proof.
  revert n. induction fuel as [|f IH]; intros n Hn.
  - simpl in Hn. simpl. lia.
  - cbn [toBase36].
    destruct (digit36_facts (n mod 36)) as [Hd _]; [apply N.mod_lt; lia |].
    pose proof (N.div_mod n 36) as Hdm.
    destruct (n / 36 =? 0) eqn:E.
    + apply N.eqb_eq in E. simpl. rewrite Hd. lia.
    + rewrite parseDigits_app by apply toBase36_alnum.
      rewrite IH.
      * simpl. rewrite Hd. lia.
      * rewrite Nnat.Nat2N.inj_succ, N.pow_succ_r' in Hn.
        apply N.Div0.div_lt_upper_bound; lia.
Qed.

Lemma toBase36_nonempty (fuel : nat) (n : N) :
  exists c r, toBase36 (S fuel) n = String c r.
Proof.
  cbn [toBase36].
  destruct (if n / 36 =? 0 then EmptyString else toBase36 fuel (n / 36)) as [|c r];
    simpl; eauto.
Qed.

Lemma span_alnum (s r : string) :
  allAlnum s = true -> span isLowerAlnum (s +:+ String "_" r) = (s, String "_" r).
Proof.
  induction s as [|c s IH]; intros H; [reflexivity |].
  rewrite allAlnum_cons in H. apply andb_true_iff in H as [Hc Hs].
  change (String c s +:+ String "_" r) with (String c (s +:+ String "_" r)).
  simpl. rewrite Hc, (IH Hs). reflexivity.
Qed.

Lemma splitId_generated (now : N) (random : string) :
  splitId (generateConversationId now random) = Some (toString36 now, random).
Proof.
  unfold splitId, generateConversationId. 
  change (startsWithRest ("conv_" +:+ toString36 now +:+ "_" +:+ random) "conv_")
    with (Some (toString36 now +:+ String "_" random)).
  cbv beta iota. rewrite span_alnum by apply toBase36_alnum.
  destruct (toBase36_nonempty 10 now) as (c & r & E).
  unfold toString36. rewrite E. reflexivity.
Qed.

(** An identifier generated at time [now] (a valid date) carries its time:
    [getConversationTimestamp] gives back [now], whatever the random part
    is; and the identifier passes [isValidConversationId] exactly when the
    random part is eight characters, each a lower-case letter or a digit. *)
Theorem generated_id_round_trip :
  forall (now : N) (random : string),
    now <= 8640000000000000 ->
    getConversationTimestamp (generateConversationId now random) = Some now
    /\ isValidConversationId (generateConversationId now random)
       = (String.length random =? 8)%nat
         && negb (JS.existsChar (fun c => negb (isLowerAlnum c)) random).
Proof.
  intros now random Hn. unfold getConversationTimestamp, isValidConversationId.
  rewrite splitId_generated. split; [| reflexivity].
  unfold parseInt36, toString36.
  destruct (toBase36_nonempty 10 now) as (c & r & E).
  pose proof (toBase36_alnum 11 now) as Ha.
  pose proof (toBase36_value 11 now) as Hv.
  rewrite E in Ha, Hv |- *. rewrite allAlnum_cons in Ha.
  apply andb_true_iff in Ha as [Hc _].
  destruct (alnum_is_digit c Hc) as [d Hd]. rewrite Hd. f_equal.
  apply Hv. change (36 ^ N.of_nat 11) with 131621703842267136. lia.
Qed.

Lemma generated_id_round_trip_witness :
  1700000000000 <= 8640000000000000
  /\ generateConversationId 1700000000000 "a1b2c3d4" = "conv_loyw3v28_a1b2c3d4"
  /\ getConversationTimestamp "conv_loyw3v28_a1b2c3d4" = Some 1700000000000
  /\ isValidConversationId (generateConversationId 1700000000000 "A1b2-3d4") = false.
Proof.
  assert (H : 1700000000000 <= 8640000000000000) by (vm_compute; discriminate).
  destruct (generated_id_round_trip 1700000000000 "a1b2c3d4" H) as (Ht & _).
  destruct (generated_id_round_trip 1700000000000 "A1b2-3d4" H) as (_ & Hv).
  split; [exact H | split; [vm_compute; reflexivity | split; [exact Ht |]]].
  rewrite Hv. reflexivity.
Defined.

End ConversationIdFacts.

(* ===================================================================== *)
(** ** The supervisor agent and the provider selector *)
(* ===================================================================== *)

Section SupervisorFacts.
Import Supervisor Reclassifier.

Lemma single_key_no_metadata (k : string) (v : option json) (now : Z) (prev : option json) :
  k = "supervisor" \/ k = "metadata" \/ k = "error" ->
  extractMetadata now (ChunkValue (object [(k, v)])) prev = (None, prev).
Proof.
  intros Hk. unfold object.
  destruct v as [d|]; simpl definedFields; [| reflexivity].
  destruct Hk as [-> | [-> | ->]];
    unfold extractMetadata, orValue, routable, lastMessage; simpl; reflexivity.
Qed.

Lemma yielded_shape (part : StreamPart) (c : json) :
  In c (yielded part) ->
  exists k v, (k = "supervisor" \/ k = "metadata" \/ k = "error") /\ c = object [(k, v)].
Proof.
  unfold yielded.
  destruct (String.eqb (Supervisor.event part) "values" && truthyO (Supervisor.data part)).
  - destruct (Supervisor.data part) as [d|]; [| intros []].
    destruct (valuesLoggingThrows d); [intros [] |].
    intros [<- | []]. exists "supervisor", (Some d). auto.
  - destruct (String.eqb (Supervisor.event part) "metadata").
    + intros [<- | []]. exists "metadata", (Supervisor.data part). auto.
    + destruct (String.eqb (Supervisor.event part) "error"); [| intros []].
      intros [<- | []]. exists "error", (Supervisor.data part). auto.
Qed.

Lemma stream_shape remote parts failure conv c chunk :
  In chunk (stream remote parts failure conv c).1 ->
  exists k v, (k = "supervisor" \/ k = "metadata" \/ k = "error") /\ chunk = object [(k, v)].
Proof.
  unfold stream.
  destruct (acquireThread remote conv c) as [[e|tid] c']; simpl.
  - intros [<- | []]. unfold errorChunk. eauto 10.
  - rewrite in_app_iff, in_flat_map. intros [(part & _ & Hy) | Hf].
    + eapply yielded_shape, Hy.
    + destruct failure as [e|]; [| destruct Hf].
      destruct Hf as [<- | []]. unfold errorChunk. eauto 10.
Qed.

(** The route never finds metadata in what the supervisor agent yields.
    Every chunk of the generator is an object with the single member
    supervisor, metadata or error, and the metadata extraction of the route
    reads the members of the chunk itself: for each such chunk it returns
    no metadata and leaves the context unchanged, so the response stream
    fed by the agent holds only status and message events. *)
Theorem supervisor_chunks_carry_no_metadata :
  forall (remote : nat -> CreateThread) (parts : list StreamPart)
         (failure : option Thrown) (conv : string) (c : ThreadCache)
         (clock : json -> Z) (prev : option json),
    let chunks := (stream remote parts failure conv c).1 in
    (forall chunk now ctx, In chunk chunks ->
        emitMetadata now (ChunkValue chunk) ctx = ([], ctx))
    /\ (forall e,
          In e (responseStream (map (fun ch => (clock ch, ChunkValue ch)) chunks) prev) ->
          isEventOf "status" e = true \/ isEventOf "message" e = true).
Proof.
  intros remote parts failure conv c clock prev. cbv zeta.
  assert (Hmeta : forall chunk now ctx,
            In chunk (stream remote parts failure conv c).1 ->
            emitMetadata now (ChunkValue chunk) ctx = ([], ctx)).
  { intros chunk now ctx Hin.
    destruct (stream_shape _ _ _ _ _ _ Hin) as (k & v & Hk & ->).
    unfold emitMetadata. rewrite single_key_no_metadata by exact Hk. reflexivity. }
  split; [exact Hmeta |].
  assert (Hshape : forall chunk, In chunk (stream remote parts failure conv c).1 ->
            exists fs, chunk = JObj fs).
  { intros chunk Hin. destruct (stream_shape _ _ _ _ _ _ Hin) as (k & v & _ & ->).
    unfold object. eauto. }
  revert prev Hmeta Hshape.
  induction (stream remote parts failure conv c).1 as [|ch chunks IH];
    intros prev Hmeta Hshape e; simpl; [intros [] |].
  unfold processChunk. rewrite Hmeta by (left; reflexivity).
  destruct (Hshape ch (or_introl eq_refl)) as [fs ->].
  cbn [app]. rewrite in_app_iff. intros [Hin | Hin].
  - apply in_map_iff in Hin as (t & <- & _). unfold classify.
    destruct (isStatusLike t || isEphemeralChunk (JObj fs)); [left | right]; reflexivity.
  - apply (IH prev); auto.
    + intros chunk now ctx H. apply Hmeta. right. exact H.
    + intros chunk H. apply Hshape. right. exact H.
Qed.

Lemma supervisor_chunks_carry_no_metadata_witness :
  let state := JObj [("plannerRecommendation", JObj [("action", JStr "delegate")]);
                     ("messages", JArr [JObj [("agent", JStr "catalog");
                                              ("content", JStr "Here are apples")]])] in
  let run := stream (fun _ => Created "thread-1")
               [{| Supervisor.event := "values"; Supervisor.data := Some state |}] None "conv-1"
               {| threadCache := ∅; created := 0 |} in
  run.1 = [JObj [("supervisor", state)]]
  /\ emitMetadata 7 (ChunkValue (JObj [("supervisor", state)])) None = ([], None)
  /\ (emitMetadata 7 (ChunkValue state) None).1 <> [].
Proof.
  split; [vm_compute; reflexivity |]. split.
  - apply (proj1 (supervisor_chunks_carry_no_metadata (fun _ => Created "thread-1")
                    [{| Supervisor.event := "values";
                        Supervisor.data :=
                          Some (JObj [("plannerRecommendation",
                                       JObj [("action", JStr "delegate")]);
                                      ("messages",
                                       JArr [JObj [("agent", JStr "catalog");
                                                   ("content", JStr "Here are apples")]])]) |}]
                    None "conv-1" {| threadCache := ∅; created := 0 |} (fun _ => 7) None)).
    vm_compute. left. reflexivity.
  - vm_compute. discriminate.
Defined.

(** Clearing the thread of one conversation, named by a non-empty id,
    removes that binding only: the next stream of the conversation creates
    a thread and binds the id the service returns, and every other
    conversation keeps its thread.  Clearing without an id, or with the
    empty id, removes the binding of every conversation. *)
Theorem clearing_a_conversation_forces_a_new_thread :
  forall (remote : nat -> CreateThread) (conv : string) (c : ThreadCache),
    conv <> EmptyString ->
    let c' := clearConversationThread (Some conv) c in
    (forall other, other <> conv -> threadCache c' !! other = threadCache c !! other)
    /\ (forall tid, remote (created c) = Created tid ->
          acquireThread remote conv c'
          = (inr tid, {| threadCache := <[conv := tid]> (threadCache c');
                         created := S (created c) |}))
    /\ (forall other,
          threadCache (clearConversationThread None c) !! other = None
          /\ threadCache (clearConversationThread (Some EmptyString) c) !! other = None).
Proof.
  intros remote conv c Hne. cbv zeta.
  assert (E : clearConversationThread (Some conv) c
              = {| threadCache := delete conv (threadCache c); created := created c |}).
  { unfold clearConversationThread. destruct conv; [congruence | reflexivity]. }
  rewrite E. simpl. split; [| split].
  - intros other Ho. apply lookup_delete_ne. congruence.
  - intros tid Hr. unfold acquireThread. simpl.
    rewrite lookup_delete_eq. simpl. rewrite Hr. reflexivity.
  - intros other. simpl. rewrite lookup_empty. split; reflexivity.
Qed.

Lemma clearing_a_conversation_forces_a_new_thread_witness :
  let c := {| threadCache := {["conv-1" := "thread-1"; "conv-2" := "thread-2"]};
              created := 2 |} in
  let c' := clearConversationThread (Some "conv-1") c in
  "conv-1" <> EmptyString
  /\ threadCache c' !! "conv-2" = Some "thread-2"
  /\ (acquireThread (fun _ => Created "thread-3") "conv-1" c').1 = inr "thread-3".
Proof.
  assert (H : "conv-1" <> EmptyString) by discriminate.
  destruct (clearing_a_conversation_forces_a_new_thread (fun _ => Created "thread-3")
              "conv-1"
              {| threadCache := {["conv-1" := "thread-1"; "conv-2" := "thread-2"]};
                 created := 2 |} H) as (Hother & Hnew & _).
  split; [exact H | split].
  - rewrite Hother by discriminate. vm_compute. reflexivity.
  - rewrite (Hnew "thread-3" eq_refl). reflexivity.
Defined.

End SupervisorFacts.

Section ProviderFacts.
Import Ciba Coordinator Samples.

Ltac run_selected :=
  cbv [CibaProvider.withCIBAAuthorization CibaProvider.getAuthorizationState
       CibaProvider.resetAuthorizationState CibaProvider.getStandardState
       CibaProvider.resetStandardState
       withCIBAAuthorization extractUserId
       createBindingMessage originalTool
       getAuthorizationState resetAuthorizationState
       setStatus setCibaStatus await bind ret raise tryCatch modify mkError
       kind errMessage negb].

(** The state read through the selector is the state its wrapper wrote,
    whatever the checkout tool reports.  When the selector picks the
    standards-based implementation (lib/ciba-langchain.ts): once the user
    id and the binding message have resolved, and for an action that
    returns or fails with a plain error, the status read after a call is
    [approved] when the authorization ended in tokens and the action
    returned, and [denied] in every other case.  For either implementation,
    the status read after a reset through the selector is [idle]. *)
Theorem selector_reads_what_its_wrapper_wrote :
  forall (idp : option string) (outcome : Result json) (auth : SdkAuthorization)
         (p : Provider) (params : json) (config : option json)
         (shop : option Status) (w : World),
    (CibaProvider.getCIBAProvider idp = CibaProvider.standard ->
     truthyO (userID params config) = true ->
     is_Some (bindingMessageText params) ->
     (forall e, outcome = Raise e -> kind e = PlainError) ->
     let after := (CibaProvider.withCIBAAuthorization idp outcome auth p params config w).2 in
     let expected :=
       match performCIBAAuthorizationWithEnv p, outcome with
       | Returned (Some _), Ok _ => approved
       | _, _ => denied
       end in
     exists st, (CibaProvider.getAuthorizationState idp shop after).1 = Ok st
                /\ status st = expected)
    /\ (exists st,
          (CibaProvider.getAuthorizationState idp shop
             (CibaProvider.resetAuthorizationState idp w).2).1 = Ok st
          /\ status st = idle).
Proof.
  intros idp outcome auth p params config shop w. split.
  - intros Hstd Hu [m Hm] Hplain. cbv zeta.
    unfold CibaProvider.withCIBAAuthorization, CibaProvider.getAuthorizationState.
    rewrite Hstd. run_selected. rewrite Hu, Hm.
    destruct (performCIBAAuthorizationWithEnv p) as [[t|]|em];
      destruct outcome as [v|[[] n e]];
      try (specialize (Hplain _ eq_refl); discriminate Hplain); simpl;
      rewrite ?andb_false_r; simpl; eexists; split; reflexivity.
  - unfold CibaProvider.getAuthorizationState, CibaProvider.resetAuthorizationState.
    destruct (CibaProvider.getCIBAProvider idp); run_selected; simpl;
      rewrite ?andb_false_r; simpl; eexists; split; reflexivity.
Qed.

Lemma selector_reads_what_its_wrapper_wrote_witness :
  let after := (CibaProvider.withCIBAAuthorization (Some "Okta") (Ok JNull)
                  (SdkRequested (Returned None)) denyingProvider
                  purchase None idleWorld).2 in
  CibaProvider.getCIBAProvider (Some "Okta") = CibaProvider.standard
  /\ truthyO (userID purchase None) = true
  /\ is_Some (bindingMessageText purchase)
  /\ exists st, (CibaProvider.getAuthorizationState (Some "Okta") (Some approved) after).1
                = Ok st
                /\ status st = denied.
Proof.
  assert (H0 : CibaProvider.getCIBAProvider (Some "Okta") = CibaProvider.standard)
    by reflexivity.
  assert (H1 : truthyO (userID purchase None) = true) by reflexivity.
  assert (H2 : is_Some (bindingMessageText purchase)) by (vm_compute; eauto).
  assert (H3 : forall e : JsError, Ok JNull = Raise e -> kind e = PlainError)
    by (intros e He; discriminate He).
  destruct (selector_reads_what_its_wrapper_wrote (Some "Okta") (Ok JNull)
              (SdkRequested (Returned None)) denyingProvider
              purchase None (Some approved) idleWorld) as (Hcall & _).
  destruct (Hcall H0 H1 H2 H3) as (st & Hs & He).
  split; [exact H0 | split; [exact H1 | split; [exact H2 |]]].
  exists st. split; [exact Hs | exact He].
Defined.

End ProviderFacts.
